(** * Kaveri: location crawler, combination expander, session check and
      batch search loops

    A shallow embedding of the Python sources
      - kaveri_api_indexer.py        (module [Indexer])
      - kaveri_citizen_assistant.py  (module [Assistant])
      - kaveri_hybrid_search.py      (module [Hybrid])
      - kaveri_direct_api.py         (module [DirectApi])
      - kaveri_smart_search.py       (module [SmartSearch])
    followed by the properties of the specification that were checked
    against them, and by further parts of the same sources (modules
    [Villages], [HybridSearch], [FullHierarchy] and [Controller]) with
    properties read off the code.

    Python code that performs I/O is written in a small state-and-exception
    monad ([Py.M]): a computation takes the world it runs in and returns
    the new world together with either a raised exception or a value. *)

From stdpp Require Import base numbers list option strings gmap sorting.

Open Scope Z_scope.

(* ===================================================================== *)
(** * Python computations: state and exceptions *)
(* ===================================================================== *)

Module Py.

(** Exceptions, all of them instances of Python's [Exception] class, so
    that [except Exception] and a bare [except] both catch them. *)
Inductive exn : Type :=
| RequestException (msg : string)   (* requests: transport, status, JSON *)
| IntegrityError (msg : string)     (* sqlite3 *)
| WebDriverException (msg : string) (* selenium *)
| Exception (msg : string).         (* raise Exception("...") *)

Definition M (W A : Type) : Type := W → W * (exn + A).

Definition ret {W A} (a : A) : M W A := λ w, (w, inr a).

Definition bind {W A B} (c : M W A) (k : A → M W B) : M W B :=
  λ w, match c w with
       | (w', inl e) => (w', inl e)
       | (w', inr a) => k a w'
       end.

Definition raise {W A} (e : exn) : M W A := λ w, (w, inl e).

(** [try: c  except Exception as e: ...] with the handler left to the
    caller: the outcome of [c] is handed back as a value. *)
Definition try {W A} (c : M W A) : M W (exn + A) :=
  λ w, match c w with (w', r) => (w', inr r) end.

Definition get {W} : M W W := λ w, (w, inr w).
Definition modify {W} (f : W → W) : M W unit := λ w, (f w, inr tt).

(** [for x in xs: body x], the body run for its effects. *)
Fixpoint for_each {W A} (xs : list A) (body : A → M W unit) : M W unit :=
  match xs with
  | [] => ret tt
  | x :: rest => bind (body x) (λ _, for_each rest body)
  end.

(** [for x in xs: acc = body acc x], the loop-carried locals made
    explicit. *)
Fixpoint for_fold {W A S} (xs : list A) (body : S → A → M W S) (acc : S)
  : M W S :=
  match xs with
  | [] => ret acc
  | x :: rest => bind (body acc x) (λ acc', for_fold rest body acc')
  end.

End Py.

Notation "'do' x <- c ; k" := (Py.bind c (λ x, k))
  (at level 10, x name, c at level 100, k at level 200,
   format "'[v' 'do'  x  <-  c ; '/' k ']'").
Notation "'do' ' p <- c ; k" := (Py.bind c (λ x, match x with p => k end))
  (at level 10, p pattern, c at level 100, k at level 200,
   format "'[v' 'do'  ' p  <-  c ; '/' k ']'").
Notation "'run' c ; k" := (Py.bind c (λ _, k))
  (at level 10, c at level 100, k at level 200,
   format "'[v' 'run'  c ; '/' k ']'").

(** Python truthiness of the values the sources test with [if x:] or
    [not x]. *)
Definition truthy_int (z : Z) : bool := negb (z =? 0).
Definition truthy_opt_int (o : option Z) : bool :=
  match o with Some z => truthy_int z | None => false end.
Definition truthy_str (s : string) : bool :=
  match s with EmptyString => false | _ => true end.
Definition truthy_opt_str (o : option string) : bool :=
  match o with Some s => truthy_str s | None => false end.
Definition truthy_list {A} (l : list A) : bool :=
  match l with [] => false | _ => true end.

(** [d.get(k, default)] on an optional text field, with the empty string
    as the default. *)
Definition get_text (o : option string) : string :=
  match o with Some s => s | None => EmptyString end.

(* ===================================================================== *)
(** * Rows of the remote hierarchy API *)
(* ===================================================================== *)

(** The JSON objects of the hierarchy endpoints, with the keys the sources
    read.  The code keys are integers; text keys may be missing.  The
    [bhoomi*] keys of hoblis and villages and [sroCode] are copied into
    columns that nothing here reads and are left out. *)
Record DistrictJson := {
  districtCode : Z;
  districtNamee : option string;
  districtNamek : option string;
  bhoomiDistrictCode : option string }.

Record TalukaJson := {
  talukCode : Z;
  talukNamee : option string;
  talukNamek : option string;
  unit_ : option string }.

Record HobliJson := {
  hoblicode : Z;
  hoblinamee : option string;
  hoblinamek : option string }.

Record VillageJson := {
  villagecode : Z;
  villagenamee : option string;
  villagenamek : option string;
  ulbcode : option Z;
  isurban : option bool }.

Record PropertyTypeJson := {
  propertytypeid : Z;
  typeNameEnglish : option string;
  typeNameKannada : option string }.

(** The remote service: its state [Net], and one request per endpoint
    ([requests.post], [raise_for_status], [response.json()]).  A request
    either raises (connection error, timeout, HTTP error status, a body
    that is not JSON) or returns the decoded list. *)
Record Remote (Net : Type) := {
  GetDistrictAsync : Net → Net * (Py.exn + list DistrictJson);
  GetTalukaAsync : Z → Net → Net * (Py.exn + list TalukaJson);
  GetHobliAsync : Z → Net → Net * (Py.exn + list HobliJson);
  GetVillageAsync : Z → Net → Net * (Py.exn + list VillageJson);
  GetPropertyTypeMasterAsync
    : Net → Net * (Py.exn + list PropertyTypeJson) }.
Arguments GetDistrictAsync {Net}.
Arguments GetTalukaAsync {Net}.
Arguments GetHobliAsync {Net}.
Arguments GetVillageAsync {Net}.
Arguments GetPropertyTypeMasterAsync {Net}.

(* ===================================================================== *)
(** * SQLite connections *)
(* ===================================================================== *)

Module Sqlite.
(** SQLite parses FOREIGN KEY clauses but enforces them only on a
    connection that has run [PRAGMA foreign_keys = ON]; a connection
    from [sqlite3.connect] starts with enforcement off. *)
Record Conn := { foreign_keys : bool }.

Definition connect : Conn := {| foreign_keys := false |}.

(** The check an INSERT into a table with a FOREIGN KEY clause makes. *)
Definition fk_check {W} (conn : Conn) (parent_present : bool)
  : Py.M W unit :=
  if foreign_keys conn && negb parent_present
  then Py.raise (Py.IntegrityError "FOREIGN KEY constraint failed")
  else Py.ret tt.
End Sqlite.

(* ===================================================================== *)
(** * kaveri_api_indexer.py *)
(* ===================================================================== *)

Module Indexer.
Import Py Sqlite.

(** ** The SQLite file at [DB_PATH] *)

(** One record per table row, the primary key being the key of the map
    that holds the table. *)
Record DistrictRow := {
  district_name_en : string;
  district_name_kn : string;
  bhoomi_district_code : string }.

Record TalukaRow := {
  taluk_name_en : string;
  taluk_name_kn : string;
  taluk_district_code : Z;       (* FOREIGN KEY REFERENCES districts *)
  taluk_unit : string }.

Record HobliRow := {
  hobli_name_en : string;
  hobli_name_kn : string;
  hobli_taluk_code : Z }.         (* FOREIGN KEY REFERENCES talukas *)

Record VillageRow := {
  village_name_en : string;
  village_name_kn : string;
  is_urban : Z }.

Record Stats := {
  st_districts : Z; st_talukas : Z; st_hoblis : Z; st_villages : Z }.

(** Values of the [metadata] table: a timestamp, or the JSON text of the
    run's counts. *)
Inductive MetaValue : Type :=
| MetaText (s : string)
| MetaStats (s : Stats).

(** [villages] has PRIMARY KEY (village_code, hobli_code, ulb_code); the
    foreign key [hobli_code] is the second component of the key. *)
Record Db := {
  districts : gmap Z DistrictRow;
  talukas : gmap Z TalukaRow;
  hoblis : gmap Z HobliRow;
  villages : gmap (Z * Z * Z) VillageRow;
  metadata : gmap string MetaValue }.

Definition empty_db : Db :=
  {| districts := ∅; talukas := ∅; hoblis := ∅; villages := ∅;
     metadata := ∅ |}.

(** ** What an indexing run can observe and change *)

Inductive Event : Type :=
| AttemptFailed (attempt : Z) (e : exn)   (* print "Attempt n failed: e" *)
| FailedAfter (retries : Z)               (* "Failed after n attempts" *)
| Sleep (ms : Z)                          (* time.sleep *)
| NoDistrictsReceived                     (* print "No districts received" *)
| DistrictsIndexed (n : Z)
| IndexingComplete.                       (* the final summary *)

(** The dictionaries the fetch functions return and [index_all] nests
    into the JSON export. *)
Record DistrictOut := { d_code : Z; d_name : string; d_name_kn : string;
                        d_bhoomi_code : string }.
Record TalukaOut := { t_code : Z; t_name : string; t_name_kn : string;
                      t_district_code : Z }.
Record HobliOut := { h_code : Z; h_name : string; h_name_kn : string;
                     h_taluk_code : Z }.
Record VillageOut := { v_code : Z; v_name : string; v_name_kn : string;
                       v_hobli_code : Z; v_is_urban : bool }.

Definition HobliData : Type := Z * string * list VillageOut.
Definition TalukaData : Type := Z * string * list HobliData.
Definition DistrictData : Type := Z * string * list TalukaData.

Section Crawl.
Context {Net : Type}.

Record World := {
  net : Net;
  out : list Event;
  db : Db;
  json_export : option (Stats * list DistrictData) }.

Definition emit (ev : Event) : M World unit :=
  modify (λ w, {| net := net w; out := out w ++ [ev]; db := db w;
                  json_export := json_export w |}).

Definition set_db (f : Db → Db) : M World unit :=
  modify (λ w, {| net := net w; out := out w; db := f (db w);
                  json_export := json_export w |}).

Definition set_json (x : Stats * list DistrictData) : M World unit :=
  modify (λ w, {| net := net w; out := out w; db := db w;
                  json_export := Some x |}).

(** [requests.post(url, ...); raise_for_status(); response.json()] *)
Definition request {R} (post : Net → Net * (exn + list R))
  : M World (list R) :=
  λ w, match post (net w) with
       | (n', r) => ({| net := n'; out := out w; db := db w;
                        json_export := json_export w |}, r)
       end.

(** [time.sleep(2 ** attempt)], in milliseconds. *)
Definition backoff (attempt : Z) : Z := 1000 * 2 ^ attempt.

(** [api_call(endpoint, payload, retries)]: the endpoint and payload
    select the request [post]. *)
Fixpoint api_call_loop {R} (post : Net → Net * (exn + list R))
    (retries : Z) (attempts : list Z) : M World (list R) :=
  match attempts with
  | [] => ret []
  | attempt :: rest =>
      do r <- try (request post);
      match r with
      | inr rows => ret rows
      | inl e =>
          run emit (AttemptFailed (attempt + 1) e);
          if attempt <? retries - 1
          then run emit (Sleep (backoff attempt));
               api_call_loop post retries rest
          else run emit (FailedAfter retries);
               ret []
      end
  end.

Definition api_call {R} (post : Net → Net * (exn + list R))
    (retries : Z) : M World (list R) :=
  api_call_loop post retries (seqZ 0 retries).

(** ** Writes: INSERT OR REPLACE *)

Definition insert_district (conn : Conn) (code : Z) (r : DistrictRow)
  : M World unit :=
  set_db (λ d, {| districts := <[code := r]> (districts d);
                  talukas := talukas d; hoblis := hoblis d;
                  villages := villages d; metadata := metadata d |}).

Definition insert_taluka (conn : Conn) (code : Z) (r : TalukaRow)
  : M World unit :=
  do w <- get;
  run fk_check conn
        (bool_decide (is_Some (districts (db w) !! taluk_district_code r)));
  set_db (λ d, {| districts := districts d;
                  talukas := <[code := r]> (talukas d);
                  hoblis := hoblis d;
                  villages := villages d; metadata := metadata d |}).

Definition insert_hobli (conn : Conn) (code : Z) (r : HobliRow)
  : M World unit :=
  do w <- get;
  run fk_check conn
        (bool_decide (is_Some (talukas (db w) !! hobli_taluk_code r)));
  set_db (λ d, {| districts := districts d; talukas := talukas d;
                  hoblis := <[code := r]> (hoblis d);
                  villages := villages d; metadata := metadata d |}).

Definition insert_village (conn : Conn) (key : Z * Z * Z)
    (r : VillageRow) : M World unit :=
  do w <- get;
  run fk_check conn
        (bool_decide (is_Some (hoblis (db w) !! key.1.2)));
  set_db (λ d, {| districts := districts d; talukas := talukas d;
                  hoblis := hoblis d;
                  villages := <[key := r]> (villages d);
                  metadata := metadata d |}).

Definition insert_metadata (k : string) (v : MetaValue)
  : M World unit :=
  set_db (λ d, {| districts := districts d; talukas := talukas d;
                  hoblis := hoblis d; villages := villages d;
                  metadata := <[k := v]> (metadata d) |}).

(** ** The crawl *)
Context (api : Remote Net).

(** [setup_database()]: connect and CREATE TABLE IF NOT EXISTS; the
    tables of the file are kept. *)
Definition setup_database : M World Conn := ret connect.

Definition district_out (d : DistrictJson) : DistrictOut :=
  {| d_code := districtCode d;
     d_name := get_text (districtNamee d);
     d_name_kn := get_text (districtNamek d);
     d_bhoomi_code := get_text (bhoomiDistrictCode d) |}.

Definition fetch_districts (conn : Conn) : M World (list DistrictOut) :=
  do data <- api_call (GetDistrictAsync api) 3;
  if negb (truthy_list data)
  then run emit NoDistrictsReceived; ret []
  else
    do districts <-
      for_fold data (λ (acc : list DistrictOut) (d : DistrictJson),
        if districtCode d =? 0 then ret acc
        else
          run insert_district conn (districtCode d)
                {| district_name_en := get_text (districtNamee d);
                   district_name_kn := get_text (districtNamek d);
                   bhoomi_district_code :=
                     get_text (bhoomiDistrictCode d) |};
          ret (acc ++ [district_out d])) [];
    run emit (DistrictsIndexed (Z.of_nat (length districts)));
    ret districts.

Definition taluka_out (district_code : Z) (t : TalukaJson) : TalukaOut :=
  {| t_code := talukCode t;
     t_name := get_text (talukNamee t);
     t_name_kn := get_text (talukNamek t);
     t_district_code := district_code |}.

Definition fetch_talukas (conn : Conn) (district_code : Z)
  : M World (list TalukaOut) :=
  do data <- api_call (GetTalukaAsync api district_code) 3;
  if negb (truthy_list data) then ret []
  else
    for_fold data (λ (acc : list TalukaOut) (t : TalukaJson),
      run insert_taluka conn (talukCode t)
            {| taluk_name_en := get_text (talukNamee t);
               taluk_name_kn := get_text (talukNamek t);
               taluk_district_code := district_code;
               taluk_unit := get_text (unit_ t) |};
      ret (acc ++ [taluka_out district_code t])) [].

Definition hobli_out (taluk_code : Z) (h : HobliJson) : HobliOut :=
  {| h_code := hoblicode h;
     h_name := get_text (hoblinamee h);
     h_name_kn := get_text (hoblinamek h);
     h_taluk_code := taluk_code |}.

Definition fetch_hoblis (conn : Conn) (taluk_code : Z)
  : M World (list HobliOut) :=
  do data <- api_call (GetHobliAsync api taluk_code) 3;
  if negb (truthy_list data) then ret []
  else
    for_fold data (λ (acc : list HobliOut) (h : HobliJson),
      run insert_hobli conn (hoblicode h)
            {| hobli_name_en := get_text (hoblinamee h);
               hobli_name_kn := get_text (hoblinamek h);
               hobli_taluk_code := taluk_code |};
      ret (acc ++ [hobli_out taluk_code h])) [].

Definition get_bool (o : option bool) : bool :=
  match o with Some b => b | None => false end.
Definition get_int (o : option Z) : Z :=
  match o with Some z => z | None => 0 end.

Definition village_out (hobli_code : Z) (v : VillageJson) : VillageOut :=
  {| v_code := villagecode v;
     v_name := get_text (villagenamee v);
     v_name_kn := get_text (villagenamek v);
     v_hobli_code := hobli_code;
     v_is_urban := get_bool (isurban v) |}.

Definition fetch_villages (conn : Conn) (hobli_code : Z)
  : M World (list VillageOut) :=
  do data <- api_call (GetVillageAsync api hobli_code) 3;
  if negb (truthy_list data) then ret []
  else
    for_fold data (λ (acc : list VillageOut) (v : VillageJson),
      run insert_village conn
            (villagecode v, hobli_code, get_int (ulbcode v))
            {| village_name_en := get_text (villagenamee v);
               village_name_kn := get_text (villagenamek v);
               is_urban := if get_bool (isurban v) then 1 else 0 |};
      ret (acc ++ [village_out hobli_code v])) [].

(** [index_all(specific_district)].  [now_iso] is the text of
    [datetime.now().isoformat()]. *)
Context (now_iso : string).

Definition len {A} (l : list A) : Z := Z.of_nat (length l).

Definition crawl_hobli (conn : Conn)
    (acc : Z * list HobliData) (hobli : HobliOut)
  : M World (Z * list HobliData) :=
  do villages <- fetch_villages conn (h_code hobli);
  run emit (Sleep 200);
  ret (acc.1 + len villages,
       acc.2 ++ [(h_code hobli, h_name hobli, villages)]).

Definition crawl_taluka (conn : Conn)
    (acc : Z * Z * list TalukaData) (taluka : TalukaOut)
  : M World (Z * Z * list TalukaData) :=
  do hoblis <- fetch_hoblis conn (t_code taluka);
  do ' (nv, hdata) <- for_fold hoblis (crawl_hobli conn) (acc.1.2, []);
  ret (acc.1.1 + len hoblis, nv,
       acc.2 ++ [(t_code taluka, t_name taluka, hdata)]).

Definition crawl_district (conn : Conn)
    (acc : Stats * list DistrictData) (district : DistrictOut)
  : M World (Stats * list DistrictData) :=
  do talukas <- fetch_talukas conn (d_code district);
  do ' (nh, nv, tdata) <-
    for_fold talukas (crawl_taluka conn)
             (st_hoblis acc.1, st_villages acc.1, []);
  ret ({| st_districts := st_districts acc.1;
          st_talukas := st_talukas acc.1 + len talukas;
          st_hoblis := nh; st_villages := nv |},
       acc.2 ++ [(d_code district, d_name district, tdata)]).

Definition index_all (specific_district : option Z) : M World Stats :=
  do conn <- setup_database;
  do districts <- fetch_districts conn;
  let stats0 := {| st_districts := len districts; st_talukas := 0;
                   st_hoblis := 0; st_villages := 0 |} in
  let districts :=
    match specific_district with
    | Some c =>
        if truthy_int c
        then filter (λ d, d_code d = c) districts
        else districts
    | None => districts
    end in
  do ' (stats, hierarchy) <-
    for_fold districts (crawl_district conn) (stats0, []);
  run insert_metadata "last_updated" (MetaText now_iso);
  run insert_metadata "stats" (MetaStats stats);
  run set_json (stats, hierarchy);
  run emit IndexingComplete;
  ret stats.

End Crawl.

Arguments World : clear implicits.
End Indexer.

(* ===================================================================== *)
(** * kaveri_citizen_assistant.py: hierarchy build and location store *)
(* ===================================================================== *)

Module Assistant.
Import Py Sqlite.

(** A child dictionary once the crawler has written the parent key into
    it ([t["districtCode"] = dcode] and the like): the API's row paired
    with that key. *)
Definition TalukaRec : Type := TalukaJson * Z.
Definition HobliRec : Type := HobliJson * Z.
Definition VillageRec : Type := VillageJson * Z.

(** The [data] dictionary returned by [build_location_hierarchy]. *)
Record Data := {
  data_districts : list DistrictJson;
  data_talukas : list TalukaRec;
  data_hoblis : list HobliRec;
  data_villages : list VillageRec;
  data_property_types : list PropertyTypeJson }.

(** The tables of [location_hierarchy.db]; every table has an INTEGER
    PRIMARY KEY, the key of the map. *)
Record Db := {
  tbl_districts : gmap Z DistrictJson;
  tbl_talukas : gmap Z TalukaRec;      (* FOREIGN KEY districtCode *)
  tbl_hoblis : gmap Z HobliRec;        (* FOREIGN KEY talukCode *)
  tbl_villages : gmap Z VillageRec;    (* FOREIGN KEY hobliCode *)
  tbl_property_types : gmap Z PropertyTypeJson }.

Definition empty_db : Db :=
  {| tbl_districts := ∅; tbl_talukas := ∅; tbl_hoblis := ∅;
     tbl_villages := ∅; tbl_property_types := ∅ |}.

(** Records of the module's logger at ERROR and WARNING level, and the
    one INFO record of the expander; progress messages are not kept. *)
Inductive LogRecord : Type :=
| ApiRequestFailed (e : exn)
| CouldNotFetchPropertyTypes (e : exn)
| FailedToFetchTalukas (district : Z) (e : exn)
| FailedToFetchHoblis (taluka : Z) (e : exn)
| FailedToFetchVillages (hobli : Z) (e : exn)
| RemovedDuplicates (n : Z).

Section Build.
Context {Net : Type} (api : Remote Net).

Record World := {
  net : Net;
  log : list LogRecord;
  db : Db;
  json_file : option Data }.

Definition logger (r : LogRecord) : M World unit :=
  modify (λ w, {| net := net w; log := log w ++ [r]; db := db w;
                  json_file := json_file w |}).

Definition set_db (f : Db → Db) : M World unit :=
  modify (λ w, {| net := net w; log := log w; db := f (db w);
                  json_file := json_file w |}).

Definition write_json (d : Data) : M World unit :=
  modify (λ w, {| net := net w; log := log w; db := db w;
                  json_file := Some d |}).

Definition request {R} (post : Net → Net * (exn + list R))
  : M World (list R) :=
  λ w, match post (net w) with
       | (n', r) => ({| net := n'; log := log w; db := db w;
                        json_file := json_file w |}, r)
       end.

(** [_post_json]: a [RequestException] is logged and raised again. *)
Definition _post_json {R} (post : Net → Net * (exn + list R))
  : M World (list R) :=
  do r <- try (request post);
  match r with
  | inr rows => ret rows
  | inl (RequestException m) =>
      run logger (ApiRequestFailed (RequestException m));
      raise (RequestException m)
  | inl e => raise e
  end.

(** The three loops of [build_location_hierarchy]: a parent whose code
    is falsy is passed over; a fetch that raises is logged and leaves
    the accumulated list as it was. *)
Definition fetch_talukas_of (talukas : list TalukaRec) (d : DistrictJson)
  : M World (list TalukaRec) :=
  let dcode := districtCode d in
  if negb (truthy_int dcode) then ret talukas
  else
    do r <- try (_post_json (GetTalukaAsync api dcode));
    match r with
    | inr taluka_rows =>
        ret (talukas ++ map (λ t, (t, dcode)) taluka_rows)
    | inl e => run logger (FailedToFetchTalukas dcode e); ret talukas
    end.

Definition fetch_hoblis_of (hoblis : list HobliRec) (t : TalukaRec)
  : M World (list HobliRec) :=
  let tcode := talukCode t.1 in
  if negb (truthy_int tcode) then ret hoblis
  else
    do r <- try (_post_json (GetHobliAsync api tcode));
    match r with
    | inr hobli_rows => ret (hoblis ++ map (λ h, (h, tcode)) hobli_rows)
    | inl e => run logger (FailedToFetchHoblis tcode e); ret hoblis
    end.

Definition fetch_villages_of (villages : list VillageRec) (h : HobliRec)
  : M World (list VillageRec) :=
  let hcode := hoblicode h.1 in
  if negb (truthy_int hcode) then ret villages
  else
    do r <- try (_post_json (GetVillageAsync api hcode));
    match r with
    | inr village_rows =>
        ret (villages ++ map (λ v, (v, hcode)) village_rows)
    | inl e => run logger (FailedToFetchVillages hcode e); ret villages
    end.

(** [_write_sqlite(data)]: the tables are dropped and created anew,
    then filled with INSERT OR REPLACE in the order districts, talukas,
    hoblis, villages, property types. *)
Definition insert_district (conn : Conn) (d : DistrictJson)
  : M World unit :=
  set_db (λ t, {| tbl_districts :=
                    <[districtCode d := d]> (tbl_districts t);
                  tbl_talukas := tbl_talukas t;
                  tbl_hoblis := tbl_hoblis t;
                  tbl_villages := tbl_villages t;
                  tbl_property_types := tbl_property_types t |}).

Definition insert_taluka (conn : Conn) (r : TalukaRec) : M World unit :=
  do w <- get;
  run fk_check conn (bool_decide (is_Some (tbl_districts (db w) !! r.2)));
  set_db (λ t, {| tbl_districts := tbl_districts t;
                  tbl_talukas := <[talukCode r.1 := r]> (tbl_talukas t);
                  tbl_hoblis := tbl_hoblis t;
                  tbl_villages := tbl_villages t;
                  tbl_property_types := tbl_property_types t |}).

Definition insert_hobli (conn : Conn) (r : HobliRec) : M World unit :=
  do w <- get;
  run fk_check conn (bool_decide (is_Some (tbl_talukas (db w) !! r.2)));
  set_db (λ t, {| tbl_districts := tbl_districts t;
                  tbl_talukas := tbl_talukas t;
                  tbl_hoblis := <[hoblicode r.1 := r]> (tbl_hoblis t);
                  tbl_villages := tbl_villages t;
                  tbl_property_types := tbl_property_types t |}).

Definition insert_village (conn : Conn) (r : VillageRec) : M World unit :=
  do w <- get;
  run fk_check conn (bool_decide (is_Some (tbl_hoblis (db w) !! r.2)));
  set_db (λ t, {| tbl_districts := tbl_districts t;
                  tbl_talukas := tbl_talukas t;
                  tbl_hoblis := tbl_hoblis t;
                  tbl_villages := <[villagecode r.1 := r]> (tbl_villages t);
                  tbl_property_types := tbl_property_types t |}).

Definition insert_property_type (conn : Conn) (p : PropertyTypeJson)
  : M World unit :=
  set_db (λ t, {| tbl_districts := tbl_districts t;
                  tbl_talukas := tbl_talukas t;
                  tbl_hoblis := tbl_hoblis t;
                  tbl_villages := tbl_villages t;
                  tbl_property_types :=
                    <[propertytypeid p := p]> (tbl_property_types t) |}).

Definition _write_sqlite (data : Data) : M World unit :=
  let conn := connect in
  run set_db (λ _, empty_db);
  run for_each (data_districts data) (insert_district conn);
  run for_each (data_talukas data) (insert_taluka conn);
  run for_each (data_hoblis data) (insert_hobli conn);
  run for_each (data_villages data) (insert_village conn);
  if truthy_list (data_property_types data)
  then for_each (data_property_types data) (insert_property_type conn)
  else ret tt.

Definition build_location_hierarchy : M World Data :=
  do districts <- _post_json (GetDistrictAsync api);
  do r <- try (_post_json (GetPropertyTypeMasterAsync api));
  do property_types <-
    match r with
    | inr p => ret p
    | inl e => run logger (CouldNotFetchPropertyTypes e); ret []
    end;
  do talukas <- for_fold districts fetch_talukas_of [];
  do hoblis <- for_fold talukas fetch_hoblis_of [];
  do villages <- for_fold hoblis fetch_villages_of [];
  let data := {| data_districts := districts; data_talukas := talukas;
                 data_hoblis := hoblis; data_villages := villages;
                 data_property_types := property_types |} in
  run write_json data;
  run _write_sqlite data;
  ret data.
End Build.

Arguments World : clear implicits.

(** ** LocationRepo *)

(** A text column: a string, or NULL ([None]). *)
Definition Name : Type := option string.

(** The methods of [LocationRepo] that the expander calls, with the
    tuples they return. *)
Record LocationRepo := {
  districts : list (Z * Name);
  talukas : option Z → list (Z * Name * Z);
  hoblis : option Z → list (Z * Name * Z);
  villages : option Z → list (Z * Name * Z) }.

(** ORDER BY on a text column: NULL first, then byte order.  SQLite
    leaves the order of rows with equal names open; here they come in
    primary-key order. *)
Definition name_leb (a b : Name) : bool :=
  match a, b with
  | None, _ => true
  | Some _, None => false
  | Some x, Some y => String.leb x y
  end.

Definition row_leb (a b : Name * Z) : bool :=
  if bool_decide (a.1 = b.1) then a.2 <=? b.2 else name_leb a.1 b.1.

Definition order_by_name {A} (key : A → Name * Z) (rows : list A)
  : list A :=
  merge_sort (λ x y, Is_true (row_leb (key x) (key y))) rows.

(** [if code: ... WHERE parent = ? ...  else: ... all rows ...] *)
Definition where_parent {A} (parent_of : A → Z) (code : option Z)
    (rows : list A) : list A :=
  match code with
  | Some c => if truthy_int c then filter (λ r, parent_of r = c) rows
              else rows
  | None => rows
  end.

Definition sqlite_repo (d : Db) : LocationRepo :=
  {| districts :=
       order_by_name (λ r, (r.2, r.1))
         ((λ kv, (kv.1, districtNamee kv.2)) <$>
            filter (λ kv, 0 < kv.1) (map_to_list (tbl_districts d)));
     talukas code :=
       order_by_name (λ r, (r.1.2, r.1.1))
         (where_parent (λ r, r.2) code
            ((λ kv, (kv.1, talukNamee kv.2.1, kv.2.2)) <$>
               map_to_list (tbl_talukas d)));
     hoblis code :=
       order_by_name (λ r, (r.1.2, r.1.1))
         (where_parent (λ r, r.2) code
            ((λ kv, (kv.1, hoblinamee kv.2.1, kv.2.2)) <$>
               map_to_list (tbl_hoblis d)));
     villages code :=
       order_by_name (λ r, (r.1.2, r.1.1))
         (where_parent (λ r, r.2) code
            ((λ kv, (kv.1, villagenamee kv.2.1, kv.2.2)) <$>
               map_to_list (tbl_villages d))) |}.

(** ** SearchConfig and the combination expander *)

Record SearchConfig := {
  username : string;
  password : string;
  party_name : string;
  from_date : string;
  to_date : string;
  district_code : option Z;
  taluk_code : option Z;
  hobli_code : option Z;
  village_code : option Z;
  all_taluks : bool;
  all_hoblis : bool;
  all_villages : bool;
  property_type_id : option Z }.

(** The 8-tuples of [build_location_combinations]. *)
Record Combo := {
  c_district : Z; c_taluk : Z; c_hobli : Z; c_village : Z;
  c_district_name : Name; c_taluk_name : Name;
  c_hobli_name : Name; c_village_name : Name }.

Definition combo_key (c : Combo) : Z * Z * Z * Z :=
  (c_district c, c_taluk c, c_hobli c, c_village c).

(** [if sel: rows = [r for r in rows if r[0] == sel]] *)
Definition only_code {A} (code_of : A → Z) (sel : option Z)
    (rows : list A) : list A :=
  match sel with
  | Some c => if truthy_int c then filter (λ r, code_of r = c) rows
              else rows
  | None => rows
  end.

(** The four nested loops that fill [combos]: the body of the outermost
    loop, for one district row, and the loop over the district rows. *)
Definition combos_in_district (repo : LocationRepo) (cfg : SearchConfig)
    (d : Z * Name) : list Combo :=
  let taluka_rows :=
    if all_taluks cfg then talukas repo (Some d.1)
    else only_code (λ t, t.1.1) (taluk_code cfg)
                   (talukas repo (Some d.1)) in
  t ← taluka_rows;
  let hobli_rows :=
    if all_hoblis cfg then hoblis repo (Some t.1.1)
    else only_code (λ h, h.1.1) (hobli_code cfg)
                   (hoblis repo (Some t.1.1)) in
  h ← hobli_rows;
  let village_rows :=
    if all_villages cfg then villages repo (Some h.1.1)
    else only_code (λ v, v.1.1) (village_code cfg)
                   (villages repo (Some h.1.1)) in
  v ← village_rows;
  [ {| c_district := d.1; c_taluk := t.1.1; c_hobli := h.1.1;
       c_village := v.1.1;
       c_district_name := d.2; c_taluk_name := t.1.2;
       c_hobli_name := h.1.2; c_village_name := v.1.2 |} ].

Definition candidate_combinations (repo : LocationRepo)
    (cfg : SearchConfig) : list Combo :=
  let district_rows :=
    only_code (λ d, d.1) (district_code cfg) (districts repo) in
  d ← district_rows; combos_in_district repo cfg d.

(** The de-duplication loop, with its locals [seen] and
    [unique_combos]. *)
Definition dedup_step (st : gset (Z * Z * Z * Z) * list Combo)
    (combo : Combo) : gset (Z * Z * Z * Z) * list Combo :=
  let key := combo_key combo in
  if decide (key ∈ st.1) then st
  else ({[ key ]} ∪ st.1, st.2 ++ [combo]).

Definition unique_combinations (combos : list Combo) : list Combo :=
  (foldl dedup_step (∅, []) combos).2.

Definition len {A} (l : list A) : Z := Z.of_nat (length l).

Definition build_location_combinations (repo : LocationRepo)
    (cfg : SearchConfig) : M (list LogRecord) (list Combo) :=
  let combos := candidate_combinations repo cfg in
  let unique_combos := unique_combinations combos in
  run (if len unique_combos <? len combos
       then modify (λ l, l ++ [RemovedDuplicates
                                 (len combos - len unique_combos)])
       else ret tt);
  ret unique_combos.
End Assistant.

(* ===================================================================== *)
(** * kaveri_citizen_assistant.py: KaveriSearchBot *)
(* ===================================================================== *)

Module Bot.
Import Py Assistant.

(** A scraped result row: the dictionary built from one table row. *)
Definition Scraped : Type := list (string * string).

(** The browser behind the bot.  The helper methods of the class that
    only drive the page (dropdowns, text fields, the search button, the
    result table) and the Selenium calls made on the CAPTCHA text box
    are operations on the browser state [D]; each may raise. *)
Record Browser (D : Type) := {
  _select_dropdown_by_value : string → Z → D → D * (exn + bool);
  _fill_field : string → string → D → D * (exn + bool);
  _fill_date_field : string → string → D → D * (exn + unit);
  _log_form_structure : D → D * (exn + unit);
  (** [input()]: the operator solves the CAPTCHA, clicks SEARCH by hand
      and presses ENTER. *)
  input : D → D * (exn + unit);
  (** [find_element(captchacode).get_attribute('value')] *)
  captcha_value : D → D * (exn + option string);
  (** [find_element(captchacode)], [clear()], [send_keys(code)] *)
  captcha_retype : string → D → D * (exn + unit);
  _click_search_button : D → D * (exn + unit);
  _scrape_results_table : D → D * (exn + list Scraped) }.
Arguments _select_dropdown_by_value {D}.
Arguments _fill_field {D}.
Arguments _fill_date_field {D}.
Arguments _log_form_structure {D}.
Arguments input {D}.
Arguments captcha_value {D}.
Arguments captcha_retype {D}.
Arguments _click_search_button {D}.
Arguments _scrape_results_table {D}.

Inductive BotEvent : Type :=
| Wait (ms : Z)                          (* time.sleep *)
| PromptSolveCaptcha                     (* ">>> Solve the CAPTCHA ..." *)
| SavedCaptcha (code : string)           (* "Saved CAPTCHA code for reuse" *)
| AutoSearching                          (* "Auto-searching with saved ..." *)
| ReenteredCaptcha (code : string)       (* "Re-entered CAPTCHA: ..." *)
| CouldNotReenter (e : exn)
| FoundResults (n : Z)
| SearchFailed (e : exn).

(** A result row with the location and search metadata added by
    [r.update({...})]. *)
Record ResultRow := {
  scraped : Scraped;
  row_location : Combo;
  row_party_name : string;
  row_from_date : string;
  row_to_date : string }.

Section SearchOne.
Context {D : Type} (browser : Browser D).

(** The bot object: the driver, and the two attributes that
    [search_one] creates on first use ([hasattr] is [false] or [None]
    until then).  [_captcha_code] may be set to [None]. *)
Record BotState := {
  driver : D;
  _form_logged : bool;
  _captcha_code : option (option string);
  events : list BotEvent }.

Definition on_driver {A} (op : D → D * (exn + A)) : M BotState A :=
  λ b, match op (driver b) with
       | (d', r) => ({| driver := d'; _form_logged := _form_logged b;
                        _captcha_code := _captcha_code b;
                        events := events b |}, r)
       end.

Definition note (ev : BotEvent) : M BotState unit :=
  modify (λ b, {| driver := driver b; _form_logged := _form_logged b;
                  _captcha_code := _captcha_code b;
                  events := events b ++ [ev] |}).

Definition set_form_logged : M BotState unit :=
  modify (λ b, {| driver := driver b; _form_logged := true;
                  _captcha_code := _captcha_code b;
                  events := events b |}).

Definition set_captcha_code (c : option string) : M BotState unit :=
  modify (λ b, {| driver := driver b; _form_logged := _form_logged b;
                  _captcha_code := Some c; events := events b |}).

(** The CAPTCHA step of [search_one].  On the first search (no
    [_captcha_code] attribute yet) the operator solves the CAPTCHA and
    clicks SEARCH by hand, and the text left in the box is kept. *)
Definition solve_by_hand : M BotState unit :=
  run note PromptSolveCaptcha;
  run on_driver (input browser);
  do r <- try (do v <- on_driver (captcha_value browser);
               run set_captcha_code v;
               if truthy_opt_str v
               then note (SavedCaptcha (get_text v))
               else ret tt);
  match r with
  | inr _ => ret tt
  | inl _ => set_captcha_code None
  end.

(** On every later search the kept text is typed again and the search
    button is pressed. *)
Definition reuse_saved (saved : option string) : M BotState unit :=
  run note AutoSearching;
  run (if truthy_opt_str saved
       then
         do r <- try (run on_driver
                            (captcha_retype browser (get_text saved));
                      note (ReenteredCaptcha (get_text saved)));
         match r with
         | inr _ => ret tt
         | inl e => note (CouldNotReenter e)
         end
       else ret tt);
  run on_driver (_click_search_button browser);
  note (Wait 4000).

Definition captcha_step : M BotState unit :=
  do b <- get;
  match _captcha_code b with
  | None => solve_by_hand
  | Some saved => reuse_saved saved
  end.

Definition search_one_body (cfg : SearchConfig) (loc : Combo)
  : M BotState (list ResultRow) :=
  run on_driver (_select_dropdown_by_value browser "district"
                   (c_district loc));
  run note (Wait 1500);
  run on_driver (_select_dropdown_by_value browser "taluka"
                   (c_taluk loc));
  run note (Wait 1500);
  run on_driver (_select_dropdown_by_value browser "hobli" (c_hobli loc));
  run note (Wait 1500);
  run on_driver (_select_dropdown_by_value browser "village"
                   (c_village loc));
  run note (Wait 500);
  run (match property_type_id cfg with
       | Some p =>
           if truthy_int p
           then run on_driver
                      (_select_dropdown_by_value browser "propertyType" p);
                ret tt
           else ret tt
       | None => ret tt
       end);
  do b <- get;
  run (if _form_logged b then ret tt
       else run on_driver (_log_form_structure browser);
            set_form_logged);
  do filled <- on_driver (_fill_field browser "firstName" (party_name cfg));
  run (if filled then ret tt
       else run on_driver (_fill_field browser "partyName"
                             (party_name cfg));
            ret tt);
  run on_driver (_fill_date_field browser "fromDate" (from_date cfg));
  run on_driver (_fill_date_field browser "toDate" (to_date cfg));
  run captcha_step;
  do rows <- on_driver (_scrape_results_table browser);
  let rows := map (λ r, {| scraped := r; row_location := loc;
                           row_party_name := party_name cfg;
                           row_from_date := from_date cfg;
                           row_to_date := to_date cfg |}) rows in
  run note (FoundResults (len rows));
  ret rows.

(** [search_one]: any exception of the body is logged and the search
    yields no rows. *)
Definition search_one (cfg : SearchConfig) (loc : Combo)
  : M BotState (list ResultRow) :=
  do r <- try (search_one_body cfg loc);
  match r with
  | inr rows => ret rows
  | inl e => run note (SearchFailed e); ret []
  end.

(** The loop of [run_search] over the combinations. *)
Fixpoint search_all (cfg : SearchConfig) (total idx : Z)
    (combinations : list Combo) (all_rows : list ResultRow)
  : M BotState (list ResultRow) :=
  match combinations with
  | [] => ret all_rows
  | combo :: rest =>
      do rows <- search_one cfg combo;
      run (if idx <? total then note (Wait 1000) else ret tt);
      search_all cfg total (idx + 1) rest (all_rows ++ rows)
  end.

Definition run_search_loop (cfg : SearchConfig)
    (combinations : list Combo) : M BotState (list ResultRow) :=
  search_all cfg (len combinations) 1 combinations [].
End SearchOne.

Arguments BotState : clear implicits.
End Bot.

(* ===================================================================== *)
(** * kaveri_hybrid_search.py: the saved session *)
(* ===================================================================== *)

Module Hybrid.
Import Py.

(** A [datetime]: the instant, in microseconds on the local time line,
    and the UTC offset when the value is timezone-aware. *)
Record datetime := { instant : Z; tzinfo : option Z }.

(** A [timedelta], normalised as Python keeps it:
    [0 <= seconds < 86400] and [0 <= microseconds < 1000000]. *)
Record timedelta := { days : Z; seconds : Z; microseconds : Z }.

Definition timedelta_of (us : Z) : timedelta :=
  {| days := us / 86400000000;
     seconds := (us `mod` 86400000000) / 1000000;
     microseconds := us `mod` 1000000 |}.

(** [a - b] for a naive [a]: mixing naive and aware values raises
    TypeError. *)
Definition datetime_sub (a b : datetime) : exn + timedelta :=
  match tzinfo b with
  | None => inr (timedelta_of (instant a - instant b))
  | Some _ =>
      inl (Exception "can't subtract offset-naive and offset-aware datetimes")
  end.

(** The dictionary of [.kaveri_session.json] with the keys that are
    read; [load_session] gives the empty dictionary when the file is
    missing or unreadable. *)
Record Session := {
  append_token : option string;
  cookies : list (string * string);
  saved_at : option string }.

Definition load_session (file : option Session) : Session :=
  match file with
  | Some s => s
  | None => {| append_token := None; cookies := []; saved_at := None |}
  end.

Section Validity.
(** [datetime.fromisoformat]: raises ValueError on text it cannot
    parse. *)
Context (fromisoformat : string → exn + datetime).

Definition is_session_valid (file : option Session) (now : Z) : bool :=
  let session := load_session file in
  let has_token := truthy_opt_str (append_token session) in
  let has_cookies := truthy_list (cookies session) in
  if negb has_token && negb has_cookies then false
  else
    match saved_at session with
    | Some text =>
        if truthy_str text then
          match fromisoformat text with
          | inr saved_time =>
              match datetime_sub {| instant := now; tzinfo := None |}
                                 saved_time with
              | inr age => if 3600 <? seconds age then false else true
              | inl _ => true
              end
          | inl _ => true
          end
        else true
    | None => true
    end.
End Validity.
End Hybrid.

(* ===================================================================== *)
(** * kaveri_direct_api.py: search_ec and batch_search *)
(* ===================================================================== *)

(** A record of the search API or of a scraped table: an ordered
    dictionary from column to text. *)
Definition Row : Type := list (string * string).

(** [row[k] = v] *)
Fixpoint dict_set (k v : string) (row : Row) : Row :=
  match row with
  | [] => [(k, v)]
  | (k', v') :: rest =>
      if decide (k' = k) then (k, v) :: rest else (k', v') :: dict_set k v rest
  end.

(** A CSV file: missing, or the records appended to it so far.  The
    writer takes its columns from the first record of each batch; the
    records of a batch are taken to share their columns, as the rows of
    one response or one result table do, so that a write does not fail. *)
Definition CsvFile : Type := option (list Row).

Definition append_rows (f : CsvFile) (records : list Row) : CsvFile :=
  match f with
  | None => Some records
  | Some old => Some (old ++ records)
  end.

Module DirectApi.
Import Py.

(** The JSON body of [/api/NewECSearch]. *)
Inductive DataField : Type :=
| Records (rows : list Row)   (* a list, or JSON text that decodes to one *)
| Undecodable.                (* JSON text that does not decode *)

Record SearchResponse := {
  responseCode : option Z;
  responseMessage : option string;
  data : DataField }.

Record Payload := {
  _VillageCode : string;
  _FromDate : string;
  _ToDate : string;
  firstName : string;
  captchaID : option string;
  captchaCode : string }.

(** The portal and the CAPTCHA solver, each call of which may raise. *)
Record Service (R : Type) := {
  generate_captcha : R → R * (exn + (option string * string));
  solve_captcha : string → R → R * (exn + string);
  NewECSearch : Payload → R → R * (exn + SearchResponse) }.
Arguments generate_captcha {R}.
Arguments solve_captcha {R}.
Arguments NewECSearch {R}.

Inductive LogRecord : Type :=
| Processing (idx total : Z) (village_code : string)
| ApiWarning (msg : option string)
| Found (n : Z)
| Error (e : exn)
| Slept (ms : Z).

Section Search.
Context {R : Type} (svc : Service R).
(** [self._append_token] *)
Context (_append_token : option string).

Record World := {
  remote : R;
  log : list LogRecord;
  output_file : CsvFile }.

Definition call {A} (op : R → R * (exn + A)) : M World A :=
  λ w, match op (remote w) with
       | (r', x) => ({| remote := r'; log := log w;
                        output_file := output_file w |}, x)
       end.

Definition logger (r : LogRecord) : M World unit :=
  modify (λ w, {| remote := remote w; log := log w ++ [r];
                  output_file := output_file w |}).

Definition _append_to_csv (records : list Row) : M World unit :=
  if truthy_list records
  then modify (λ w, {| remote := remote w; log := log w;
                       output_file := append_rows (output_file w) records |})
  else ret tt.

Definition search_ec (village_code party_name from_date to_date : string)
  : M World (list Row) :=
  if negb (truthy_opt_str _append_token)
  then raise (Exception "No session token. Please login first.")
  else
    do ' (captcha_id, captcha_image) <- call (generate_captcha svc);
    do captcha_code <- call (solve_captcha svc captcha_image);
    let payload := {| _VillageCode := village_code;
                      _FromDate := from_date; _ToDate := to_date;
                      firstName := party_name;
                      captchaID := captcha_id;
                      captchaCode := captcha_code |} in
    do result <- call (NewECSearch svc payload);
    if negb (bool_decide (responseCode result = Some 1000))
    then run logger (ApiWarning (responseMessage result)); ret []
    else
      let records := match data result with
                     | Records rows => rows
                     | Undecodable => []
                     end in
      run logger (Found (Z.of_nat (length records)));
      ret records.

(** One turn of the loop of [batch_search]. *)
Definition batch_turn (party_name from_date to_date : string)
    (delay_ms total : Z) (acc : Z * list Row) (village_code : string)
  : M World (Z * list Row) :=
  let idx := acc.1 in
  run logger (Processing idx total village_code);
  do r <- try (
    do results <- search_ec village_code party_name from_date to_date;
    let results :=
      map (dict_set "_search_village_code" village_code) results in
    run (if truthy_list results then _append_to_csv results else ret tt);
    ret results);
  do all_results <-
    match r with
    | inr results => ret (acc.2 ++ results)
    | inl e => run logger (Error e); ret acc.2
    end;
  run (if idx <? total then logger (Slept delay_ms) else ret tt);
  ret (idx + 1, all_results).

Definition batch_search (village_codes : list string)
    (party_name from_date to_date : string) (delay_ms : Z)
  : M World (list Row) :=
  let total := Z.of_nat (length village_codes) in
  do acc <- for_fold village_codes
              (batch_turn party_name from_date to_date delay_ms total)
              (1, []);
  ret acc.2.
End Search.

Arguments World : clear implicits.
End DirectApi.

(* ===================================================================== *)
(** * kaveri_smart_search.py: the search loop of main *)
(* ===================================================================== *)

Module SmartSearch.
Import Py.

Record Village := { code : Z; name : string }.

(** What the page shows while the loop runs. *)
Inductive Ui : Type :=
| Progress (done total : Z)
| Searching (village : string) (idx total : Z)
| SessionExpiredError                  (* "SESSION EXPIRED! Please login" *)
| FoundSoFar (records errors : Z)
| Sleep (ms : Z)
| ProgressDone
| StoppedSessionExpired                (* "Search stopped - session ..." *)
| SearchComplete.                      (* "Search complete!" *)

(** The locals of the button handler. *)
Record Locals := {
  all_results : list Row;
  errors : list (string * string);     (* "village: error" *)
  session_expired : bool }.

Section Main.
(** The browser controller: [search_village] catches every exception
    itself and always returns (success, results, error_message). *)
Context {B : Type}.
Context (search_village
  : string → string → string → string → B → B * (bool * list Row * string)).

Record World := {
  browser : B;
  output_file : CsvFile;
  ui : list Ui }.

Definition show (u : Ui) : M World unit :=
  modify (λ w, {| browser := browser w; output_file := output_file w;
                  ui := ui w ++ [u] |}).

Definition save_rows (results : list Row) : M World unit :=
  modify (λ w, {| browser := browser w;
                  output_file := append_rows (output_file w) results;
                  ui := ui w |}).

Definition do_search (village_name party_name from_date to_date : string)
  : M World (bool * list Row * string) :=
  λ w, match search_village village_name party_name from_date to_date
               (browser w) with
       | (b', r) => ({| browser := b'; output_file := output_file w;
                        ui := ui w |}, inr r)
       end.

(** The body of the loop for one village; the boolean tells whether
    the loop is left ([break]). *)
Definition search_turn (party_name from_date to_date : string)
    (total idx : Z) (village : Village) (st : Locals)
  : M World (bool * Locals) :=
  run show (Progress (idx + 1) total);
  run show (Searching (name village) (idx + 1) total);
  do ' (success, results, error) <-
    do_search (name village) party_name from_date to_date;
  if bool_decide (error = "SESSION_EXPIRED")
  then
    run show SessionExpiredError;
    ret (true, {| all_results := all_results st; errors := errors st;
                  session_expired := true |})
  else
    do st' <-
      (if success : bool
       then
         let results := map (dict_set "_village" (name village)) results in
         run (if truthy_list results then save_rows results else ret tt);
         ret {| all_results := all_results st ++ results;
                errors := errors st;
                session_expired := session_expired st |}
       else
         ret (if truthy_str error
              then {| all_results := all_results st;
                      errors := errors st ++ [(name village, error)];
                      session_expired := session_expired st |}
              else st));
    run show (FoundSoFar (Z.of_nat (length (all_results st')))
                         (Z.of_nat (length (errors st'))));
    run show (Sleep 1000);
    ret (false, st').

Fixpoint search_loop (party_name from_date to_date : string)
    (total idx : Z) (villages : list Village) (st : Locals)
  : M World Locals :=
  match villages with
  | [] => ret st
  | village :: rest =>
      if session_expired st then ret st
      else
        do ' (brk, st') <-
          search_turn party_name from_date to_date total idx village st;
        if brk : bool then ret st'
        else search_loop party_name from_date to_date total (idx + 1)
                         rest st'
  end.


End Main.

Arguments World : clear implicits.
End SmartSearch.

(* ===================================================================== *)
(** * Concrete remotes, stores and runs *)
(* ===================================================================== *)

Module Scenario.
Import Py.

Definition district (c : Z) (n : string) : DistrictJson :=
  {| districtCode := c; districtNamee := Some n; districtNamek := None;
     bhoomiDistrictCode := None |}.
Definition taluka (c : Z) (n : string) : TalukaJson :=
  {| talukCode := c; talukNamee := Some n; talukNamek := None;
     unit_ := None |}.
Definition hobli (c : Z) (n : string) : HobliJson :=
  {| hoblicode := c; hoblinamee := Some n; hoblinamek := None |}.
Definition village (c : Z) (n : string) : VillageJson :=
  {| villagecode := c; villagenamee := Some n; villagenamek := None;
     ulbcode := None; isurban := None |}.

Definition refused {A} : exn + A :=
  inl (RequestException "connection refused").

(** A service that is down: every request raises. *)
Definition down : Remote unit :=
  {| GetDistrictAsync := λ n, (n, refused);
     GetTalukaAsync := λ _ n, (n, refused);
     GetHobliAsync := λ _ n, (n, refused);
     GetVillageAsync := λ _ n, (n, refused);
     GetPropertyTypeMasterAsync := λ n, (n, refused) |}.

(** A service whose state counts the requests made.  Its first answer to
    any child request is a list of no rows; asked again it would send
    one row. *)
Definition slow_start : Remote nat :=
  {| GetDistrictAsync := λ n, (S n, inr [district 10 "Mysuru"]);
     GetTalukaAsync := λ _ n,
       (S n, inr (if n is O then [] else [taluka 20 "Hunsur"]));
     GetHobliAsync := λ _ n,
       (S n, inr (if n is O then [] else [hobli 30 "Kasaba"]));
     GetVillageAsync := λ _ n,
       (S n, inr (if n is O then [] else [village 40 "Alpha"]));
     GetPropertyTypeMasterAsync := λ n, (S n, inr []) |}.

Definition fresh_indexer {Net} (n : Net) : Indexer.World Net :=
  {| Indexer.net := n; Indexer.out := []; Indexer.db := Indexer.empty_db;
     Indexer.json_export := None |}.

Definition fresh_assistant {Net} (n : Net) : Assistant.World Net :=
  {| Assistant.net := n; Assistant.log := [];
     Assistant.db := Assistant.empty_db; Assistant.json_file := None |}.

(** The store of the specification's expansion scenario: district 10,
    talukas 20 and 21 under it, hobli 30 under taluka 20, villages 40
    and 41 under hobli 30. *)
Definition one_district_store : Assistant.Db :=
  {| Assistant.tbl_districts := {[ 10 := district 10 "Mysuru" ]};
     Assistant.tbl_talukas :=
       {[ 20 := (taluka 20 "Hunsur", 10);
          21 := (taluka 21 "Nanjangud", 10) ]};
     Assistant.tbl_hoblis := {[ 30 := (hobli 30 "Kasaba", 20) ]};
     Assistant.tbl_villages :=
       {[ 40 := (village 40 "Alpha", 30);
          41 := (village 41 "Beta", 30) ]};
     Assistant.tbl_property_types := ∅ |}.

(** A store with two districts, each with one taluka, hobli and
    village. *)
Definition two_district_store : Assistant.Db :=
  {| Assistant.tbl_districts :=
       {[ 10 := district 10 "Mysuru"; 11 := district 11 "Bagalkot" ]};
     Assistant.tbl_talukas :=
       {[ 20 := (taluka 20 "Hunsur", 10);
          22 := (taluka 22 "Badami", 11) ]};
     Assistant.tbl_hoblis :=
       {[ 30 := (hobli 30 "Kasaba", 20); 32 := (hobli 32 "Kerur", 22) ]};
     Assistant.tbl_villages :=
       {[ 40 := (village 40 "Alpha", 30);
          42 := (village 42 "Gamma", 32) ]};
     Assistant.tbl_property_types := ∅ |}.

Definition config (district taluk : option Z)
    (all_taluks all_hoblis all_villages : bool) : Assistant.SearchConfig :=
  {| Assistant.username := "user"; Assistant.password := "secret";
     Assistant.party_name := "KRISHNAPPA";
     Assistant.from_date := "2003-01-01";
     Assistant.to_date := "2026-01-01";
     Assistant.district_code := district;
     Assistant.taluk_code := taluk;
     Assistant.hobli_code := None;
     Assistant.village_code := None;
     Assistant.all_taluks := all_taluks;
     Assistant.all_hoblis := all_hoblis;
     Assistant.all_villages := all_villages;
     Assistant.property_type_id := None |}.

Definition combo (d t h v : Z) (dn tn hn vn : string) : Assistant.Combo :=
  {| Assistant.c_district := d; Assistant.c_taluk := t;
     Assistant.c_hobli := h; Assistant.c_village := v;
     Assistant.c_district_name := Some dn;
     Assistant.c_taluk_name := Some tn;
     Assistant.c_hobli_name := Some hn;
     Assistant.c_village_name := Some vn |}.

(** A repository whose village query lists a row twice. *)
Definition doubled_repo : Assistant.LocationRepo :=
  {| Assistant.districts := [(10, Some "Mysuru")];
     Assistant.talukas := λ _, [(20, Some "Hunsur", 10)];
     Assistant.hoblis := λ _, [(30, Some "Kasaba", 20)];
     Assistant.villages := λ _,
       [(40, Some "Alpha", 30); (41, Some "Beta", 30);
        (40, Some "Alpha", 30)] |}.

(** A session file with a token, saved at instant 0, and a parser that
    reads its timestamp. *)
Definition saved_session : Hybrid.Session :=
  {| Hybrid.append_token := Some "a1b2c3d4";
     Hybrid.cookies := [];
     Hybrid.saved_at := Some "2026-01-01T00:00:00" |}.

Definition parse_epoch (text : string) : exn + Hybrid.datetime :=
  inr {| Hybrid.instant := 0; Hybrid.tzinfo := None |}.

Definition second : Z := 1000000.
Definition day : Z := 86400 * second.


(** A service on which every search succeeds and finds no record. *)
Definition no_records : DirectApi.Service unit :=
  {| DirectApi.generate_captcha := λ r, (r, inr (Some "c-1", "PNG"));
     DirectApi.solve_captcha := λ _ r, (r, inr "X7K2P");
     DirectApi.NewECSearch := λ _ r,
       (r, inr {| DirectApi.responseCode := Some 1000;
                  DirectApi.responseMessage := None;
                  DirectApi.data := DirectApi.Records [] |}) |}.


Definition fresh_batch : DirectApi.World unit :=
  {| DirectApi.remote := tt; DirectApi.log := [];
     DirectApi.output_file := None |}.


Definition fresh_page : SmartSearch.World nat :=
  {| SmartSearch.browser := O; SmartSearch.output_file := None;
     SmartSearch.ui := [] |}.

(** A portal on which a CAPTCHA text is good for one submission.  The
    state holds the content of the CAPTCHA text box and whether the last
    submission was accepted.  The operator's own submission is accepted;
    a submission made by the search button with a text typed again is
    rejected, and the result table is then empty. *)
Record Portal := { text_box : option string; accepted : bool }.

Definition single_use_portal : Bot.Browser Portal :=
  {| Bot._select_dropdown_by_value := λ _ _ p, (p, inr true);
     Bot._fill_field := λ _ _ p, (p, inr true);
     Bot._fill_date_field := λ _ _ p, (p, inr tt);
     Bot._log_form_structure := λ p, (p, inr tt);
     Bot.input := λ _,
       ({| text_box := Some "X7K2P"; accepted := true |}, inr tt);
     Bot.captcha_value := λ p, (p, inr (text_box p));
     Bot.captcha_retype := λ code p,
       ({| text_box := Some code; accepted := accepted p |}, inr tt);
     Bot._click_search_button := λ p,
       ({| text_box := text_box p; accepted := false |}, inr tt);
     Bot._scrape_results_table := λ p,
       (p, inr (if accepted p then [[("Doc No", "1234")]] else [])) |}.

Definition fresh_bot : Bot.BotState Portal :=
  {| Bot.driver := {| text_box := None; accepted := false |};
     Bot._form_logged := false;
     Bot._captcha_code := None;
     Bot.events := [] |}.

Definition three_targets : list Assistant.Combo :=
  [ combo 10 20 30 40 "Mysuru" "Hunsur" "Kasaba" "Alpha";
    combo 10 20 30 41 "Mysuru" "Hunsur" "Kasaba" "Beta";
    combo 10 20 30 42 "Mysuru" "Hunsur" "Kasaba" "Gamma" ].

End Scenario.

(* ===================================================================== *)
(** * Statement helpers *)
(* ===================================================================== *)

Module IndexerSpec.
Import Py Sqlite Indexer.

(** The next [n] requests all raise, each seen from the network state the
    previous one left. *)
Fixpoint all_attempts_fail {Net R} (post : Net → Net * (exn + list R))
    (n : nat) (s : Net) : bool :=
  match n with
  | O => true
  | S n' => match post s with
            | (s', inl _) => all_attempts_fail post n' s'
            | (_, inr _) => false
            end
  end.

(** The next request answers with a list of no rows. *)
Definition answers_empty {Net R} (post : Net → Net * (exn + list R))
    (s : Net) : bool :=
  match post s with
  | (_, inr []) => true
  | _ => false
  end.

(** What a caller of a fetch function can see of an unproductive fetch:
    an empty list comes back and no table has changed. *)
Definition empty_handed {Net A} (c : M (World Net) (list A))
    (w : World Net) : Prop :=
  ∃ w', c w = (w', inr []) ∧ db w' = db w.



(** The parts of the world [api_call] leaves alone. *)
Definition same_files {Net} (w w' : World Net) : Prop :=
  db w' = db w ∧ json_export w' = json_export w.

End IndexerSpec.

Module AssistantSpec.
Import Py Assistant.

(** The world after a request and after more log records. *)
Definition after_post {Net} (w : World Net) (n' : Net) : World Net :=
  {| net := n'; log := log w; db := db w; json_file := json_file w |}.

Definition with_log {Net} (w : World Net) (rs : list LogRecord)
  : World Net :=
  {| net := net w; log := log w ++ rs; db := db w;
     json_file := json_file w |}.

(** What [_post_json] logs for an exception before raising it again. *)
Definition post_log (e : exn) : list LogRecord :=
  match e with
  | RequestException _ => [ApiRequestFailed e]
  | _ => []
  end.

(** The combinations kept from [combos] when the keys in [seen] have
    already been met: a structurally recursive reading of the
    de-duplication loop, used in proofs. *)
Fixpoint keep_unseen (seen : gset (Z * Z * Z * Z)) (combos : list Combo)
  : list Combo :=
  match combos with
  | [] => []
  | c :: rest =>
      if decide (combo_key c ∈ seen) then keep_unseen seen rest
      else c :: keep_unseen ({[ combo_key c ]} ∪ seen) rest
  end.

(** [u] stands in [combos] at a place before which its key does not
    occur. *)
Definition first_seen_in (combos : list Combo) (u : Combo) : Prop :=
  ∃ before after,
    combos = before ++ u :: after
    ∧ combo_key u ∉ combo_key <$> before.

(** The log record the expander writes for [combos] reduced to
    [unique]: none when nothing was removed. *)
Definition duplicates_report (combos unique : list Combo)
  : list LogRecord :=
  if len unique <? len combos
  then [RemovedDuplicates (len combos - len unique)]
  else [].
End AssistantSpec.

Module DirectApiSpec.
Import Py DirectApi.

(** The village codes of the targets taken up so far, read off the
    "Processing village" records of the log. *)
Fixpoint processed (log : list LogRecord) : list string :=
  match log with
  | [] => []
  | Processing _ _ village_code :: rest => village_code :: processed rest
  | _ :: rest => processed rest
  end.


Definition logged {R} (w : World R) (rs : list LogRecord) : World R :=
  {| remote := remote w; log := log w ++ rs; output_file := output_file w |}.

(** The world once [records] have been appended to the output file;
    nothing is written for an empty list. *)
Definition saved {R} (w : World R) (records : list Row) : World R :=
  {| remote := remote w; log := log w;
     output_file := if truthy_list records
                    then append_rows (output_file w) records
                    else output_file w |}.

(** The rate-limiting pause after target [idx] of [total]. *)
Definition pause (idx total delay_ms : Z) : list LogRecord :=
  if idx <? total then [Slept delay_ms] else [].
End DirectApiSpec.

Module BotSpec.
Import Py Bot.

(** How many times the operator was asked to solve a CAPTCHA. *)
Fixpoint prompts (evs : list BotEvent) : nat :=
  match evs with
  | [] => O
  | PromptSolveCaptcha :: rest => S (prompts rest)
  | _ :: rest => prompts rest
  end.

(** A computation that, started with a CAPTCHA text already saved,
    keeps that text and does not ask the operator for a new one. *)
Definition keeps_captcha {D A} (c : M (BotState D) A) : Prop :=
  ∀ b saved,
    _captcha_code b = Some saved →
    _captcha_code (c b).1 = Some saved
    ∧ prompts (events (c b).1) = prompts (events b).

Definition with_driver {D} (b : BotState D) (d : D) : BotState D :=
  {| driver := d; _form_logged := _form_logged b;
     _captcha_code := _captcha_code b; events := events b |}.

Definition with_events {D} (b : BotState D) (evs : list BotEvent)
  : BotState D :=
  {| driver := driver b; _form_logged := _form_logged b;
     _captcha_code := _captcha_code b; events := events b ++ evs |}.
End BotSpec.

Module SmartSearchSpec.
Import Py SmartSearch.

(** The rows of one village as they are stored: each with its
    [_village] column. *)
Definition tagged (village : Village) (results : list Row) : list Row :=
  map (dict_set "_village" (name village)) results.


End SmartSearchSpec.

(* ===================================================================== *)
(** * Statement helpers and runs for the further properties *)
(* ===================================================================== *)

Module CrawlSpec.
Import Py Sqlite Indexer.

(** A request that also counts, beside the network state, how many
    requests have been made. *)
Definition counted {Net R} (post : Net → Net * (exn + list R))
  : Net * nat → (Net * nat) * (exn + list R) :=
  λ s, match post s.1 with (s', r) => ((s', S s.2), r) end.


(** The network state after [k] requests. *)
Fixpoint after_requests {Net R} (post : Net → Net * (exn + list R))
    (k : nat) (s : Net) : Net :=
  match k with
  | O => s
  | S k' => after_requests post k' (post s).1
  end.

(** Every child row names a parent that is stored. *)
Definition ref_ok (d : Db) : Prop :=
  (∀ k r, talukas d !! k = Some r →
          is_Some (districts d !! taluk_district_code r))
  ∧ (∀ k r, hoblis d !! k = Some r →
            is_Some (talukas d !! hobli_taluk_code r))
  ∧ (∀ k r, villages d !! k = Some r → is_Some (hoblis d !! k.1.2)).

(** No key of [d] is missing from [d']. *)
Definition grows (d d' : Db) : Prop :=
  (∀ k, is_Some (districts d !! k) → is_Some (districts d' !! k))
  ∧ (∀ k, is_Some (talukas d !! k) → is_Some (talukas d' !! k))
  ∧ (∀ k, is_Some (hoblis d !! k) → is_Some (hoblis d' !! k))
  ∧ (∀ k, is_Some (villages d !! k) → is_Some (villages d' !! k)).

(** Node counts of the exported hierarchy. *)
Definition villages_under (hs : list HobliData) : Z :=
  foldr (λ h n, len h.2 + n) 0 hs.
Definition hoblis_under (ts : list TalukaData) : Z :=
  foldr (λ t n, len t.2 + n) 0 ts.
Definition villages_under_talukas (ts : list TalukaData) : Z :=
  foldr (λ t n, villages_under t.2 + n) 0 ts.
Definition talukas_in (ds : list DistrictData) : Z :=
  foldr (λ d n, len d.2 + n) 0 ds.
Definition hoblis_in (ds : list DistrictData) : Z :=
  foldr (λ d n, hoblis_under d.2 + n) 0 ds.
Definition villages_in (ds : list DistrictData) : Z :=
  foldr (λ d n, villages_under_talukas d.2 + n) 0 ds.

(** [specific_district] lets the district [code] through. *)
Definition wanted (specific_district : option Z) (code : Z) : Prop :=
  match specific_district with
  | Some c => c = 0 ∨ code = c
  | None => True
  end.
End CrawlSpec.

Module CrawlScenario.
Import Py Scenario.

(** A service whose state counts the requests made and whose first
    request fails; from the second on it answers.  The district list
    starts with the portal's placeholder entry, code 0. *)
Definition flaky : Remote nat :=
  {| GetDistrictAsync := λ n,
       (S n, if n is O then refused
             else inr [district 0 "Select"; district 10 "Mysuru";
                       district 11 "Bagalkot"]);
     GetTalukaAsync := λ c n,
       (S n, inr (if c =? 10 then [taluka 20 "Hunsur"] else []));
     GetHobliAsync := λ _ n, (S n, inr [hobli 30 "Kasaba"]);
     GetVillageAsync := λ _ n,
       (S n, inr [village 40 "Alpha"; village 41 "Beta"]);
     GetPropertyTypeMasterAsync := λ n, (S n, inr []) |}.


End CrawlScenario.

Module StoreScenario.
Import Py Scenario.

(** A filter that names one village by its four codes. *)
Definition pinpoint (d t h v : Z) : Assistant.SearchConfig :=
  {| Assistant.username := "user"; Assistant.password := "secret";
     Assistant.party_name := "KRISHNAPPA";
     Assistant.from_date := "2003-01-01";
     Assistant.to_date := "2026-01-01";
     Assistant.district_code := Some d;
     Assistant.taluk_code := Some t;
     Assistant.hobli_code := Some h;
     Assistant.village_code := Some v;
     Assistant.all_taluks := false;
     Assistant.all_hoblis := false;
     Assistant.all_villages := false;
     Assistant.property_type_id := None |}.
End StoreScenario.

Module StoreSpec.
Import Py Assistant.

(** Every child row of the store names a parent that is stored. *)
Definition intact (d : Db) : Prop :=
  (∀ k r, tbl_talukas d !! k = Some r → is_Some (tbl_districts d !! r.2))
  ∧ (∀ k r, tbl_hoblis d !! k = Some r → is_Some (tbl_talukas d !! r.2))
  ∧ (∀ k r, tbl_villages d !! k = Some r → is_Some (tbl_hoblis d !! r.2)).

(** The row INSERT OR REPLACE leaves under [code] after the rows of
    [rows] have been written in order to a new table: the last one with
    that code. *)
Definition last_with {A} (key : A → Z) (code : Z) (rows : list A)
  : option A :=
  last (filter (λ r, key r = code) rows).

(** The names of [rows] are in the order of ORDER BY. *)
Definition by_name (rows : list (Z * Name * Z)) : Prop :=
  Sorted (λ a b, Is_true (name_leb a.1.2 b.1.2)) rows.

(** [rows] is the answer to a query for the children of [code] in the
    table [tbl]: the stored rows, all of them when [code] is absent or
    0 and else those whose parent is [code], each once, by name. *)
Definition query_answer {A} (tbl : gmap Z A) (name : A → Name)
    (parent : A → Z) (code : option Z) (rows : list (Z * Name * Z))
  : Prop :=
  (∀ r, r ∈ rows ↔
        ∃ row, tbl !! r.1.1 = Some row ∧ r.1.2 = name row
               ∧ r.2 = parent row
               ∧ if truthy_opt_int code then code = Some r.2 else True)
  ∧ NoDup ((λ r, r.1.1) <$> rows)
  ∧ by_name rows.

(** The combination [u] is a path of the store [d]: its district,
    taluka, hobli and village are stored, each child under the parent
    the combination names; below a taluka or hobli whose code is 0 the
    parent is not checked. *)
Definition stored_path (d : Db) (u : Combo) : Prop :=
  0 < c_district u
  ∧ is_Some (tbl_districts d !! c_district u)
  ∧ (∃ t, tbl_talukas d !! c_taluk u = Some t ∧ t.2 = c_district u)
  ∧ (∃ h, tbl_hoblis d !! c_hobli u = Some h
          ∧ (c_taluk u ≠ 0 → h.2 = c_taluk u))
  ∧ (∃ v, tbl_villages d !! c_village u = Some v
          ∧ (c_hobli u ≠ 0 → v.2 = c_hobli u)).
End StoreSpec.

Module BatchSpec.
Import Py DirectApi.

(** [row.get(k)] *)
Fixpoint dict_get (k : string) (row : Row) : option string :=
  match row with
  | [] => None
  | (k', v) :: rest => if decide (k' = k) then Some v else dict_get k rest
  end.

(** The exceptions of the error records of a log, in order. *)
Fixpoint failures (log : list LogRecord) : list exn :=
  match log with
  | [] => []
  | Error e :: rest => e :: failures rest
  | _ :: rest => failures rest
  end.

(** The file once [records] have been appended to it; an empty list is
    not written, so that a missing file stays missing. *)
Definition file_with (f : CsvFile) (records : list Row) : CsvFile :=
  if truthy_list records then append_rows f records else f.
End BatchSpec.

Module RunSpec.
Import Py SmartSearch.

(** The villages a run has started on, read off the "Searching" lines
    of the page. *)
Fixpoint searched (ui : list Ui) : list string :=
  match ui with
  | [] => []
  | Searching village _ _ :: rest => village :: searched rest
  | _ :: rest => searched rest
  end.
End RunSpec.

Module HybridSession.
Import Py Hybrid.

Section Save.
(** [datetime.isoformat] *)
Context (isoformat : datetime → string).

(** [save_session(data)] at the instant [now]: the dictionary gets its
    [saved_at] entry, replacing one it may have, and is written to the
    session file.  Returns the dictionary as it is afterwards and the
    file. *)
Definition save_session (data : Session) (now : Z)
  : Session * option Session :=
  let data := {| append_token := append_token data;
                 cookies := cookies data;
                 saved_at :=
                   Some (isoformat {| instant := now; tzinfo := None |}) |} in
  (data, Some data).
End Save.

(** One hour and one day, in microseconds. *)
Definition hour : Z := 3600000000.
Definition day : Z := 86400000000.
End HybridSession.

Module SessionScenario.
Import Py Hybrid.

(** A session file with a token and no timestamp. *)
Definition undated_session : Session :=
  {| append_token := Some "a1b2c3d4"; cookies := []; saved_at := None |}.

(** The dictionary handed to [save_session]. *)
Definition unsaved_session : Session :=
  {| append_token := Some "a1b2c3d4"; cookies := []; saved_at := None |}.

(** The text of the instant 0. *)
Definition stamp_epoch (d : datetime) : string := "2026-01-01T00:00:00".
End SessionScenario.

From stdpp Require Import pretty.
Open Scope Z_scope.

(* ===================================================================== *)
(** * Readers of kaveri_locations.db *)
(* ===================================================================== *)

(** The search tools read the database file that the indexer writes:
    [None] when the file does not exist. *)
Module Villages.
Import Py Indexer.

(** [villages v JOIN hoblis h ON v.hobli_code = h.hobli_code], then
    [JOIN talukas t ON h.taluk_code = t.taluk_code], then
    [JOIN districts d ON t.district_code = d.district_code]: a row of
    the left table is kept with the row of the right table that it
    names, and dropped when there is none. *)
Record Joined := {
  v_key : Z * Z * Z;     (* village_code, hobli_code, ulb_code *)
  v_row : VillageRow;
  h_row : option HobliRow;
  t_row : option TalukaRow;
  d_row : option DistrictRow }.

Definition village_code (r : Joined) : Z := (v_key r).1.1.
Definition hobli_code_of (r : Joined) : Z := (v_key r).1.2.
Definition taluk_code_of (r : Joined) : option Z :=
  hobli_taluk_code <$> h_row r.
Definition district_code_of (r : Joined) : option Z :=
  taluk_district_code <$> t_row r.

Definition from_villages (d : Db) : list Joined :=
  (λ kv, {| v_key := kv.1; v_row := kv.2; h_row := None; t_row := None;
            d_row := None |}) <$> map_to_list (villages d).

Definition join_hoblis (d : Db) (rows : list Joined) : list Joined :=
  r ← rows;
  h ← option_list (hoblis d !! hobli_code_of r);
  [ {| v_key := v_key r; v_row := v_row r; h_row := Some h;
       t_row := t_row r; d_row := d_row r |} ].

Definition join_talukas (d : Db) (rows : list Joined) : list Joined :=
  r ← rows;
  c ← option_list (taluk_code_of r);
  t ← option_list (talukas d !! c);
  [ {| v_key := v_key r; v_row := v_row r; h_row := h_row r;
       t_row := Some t; d_row := d_row r |} ].

Definition join_districts (d : Db) (rows : list Joined) : list Joined :=
  r ← rows;
  c ← option_list (district_code_of r);
  dr ← option_list (districts d !! c);
  [ {| v_key := v_key r; v_row := v_row r; h_row := h_row r;
       t_row := t_row r; d_row := Some dr |} ].

(** [if code: query += " AND col = ?"] *)
Definition and_eq (code : option Z) (col : option Z) : bool :=
  if truthy_opt_int code then bool_decide (col = code) else true.

(** kaveri_direct_api.py, [get_villages_from_db]: SELECT DISTINCT
    v.village_code over the three joins, as text.  The query has no
    ORDER BY; the rows are taken in the order of the primary key of
    [villages]. *)
Definition get_villages_from_db (file : option Db)
    (district_code taluk_code hobli_code : option Z) : list string :=
  match file with
  | None => []
  | Some d =>
      let rows :=
        join_districts d (join_talukas d (join_hoblis d (from_villages d))) in
      let rows :=
        filter (λ r, Is_true
                       (and_eq district_code (district_code_of r)
                        && and_eq taluk_code (taluk_code_of r)
                        && and_eq hobli_code (Some (hobli_code_of r))))
               rows in
      (λ c : Z, pretty c) <$> remove_dups (village_code <$> rows)
  end.

(** SELECT DISTINCT code, name ... ORDER BY name; rows with equal names
    come in the order of their codes. *)
Definition distinct_by_name (rows : list (Z * string)) : list (Z * string) :=
  Assistant.order_by_name (λ r, (Some r.2, r.1)) (remove_dups rows).

(** kaveri_hybrid_search.py, [get_villages]: the dictionaries
    [{"code": .., "name": ..}] as pairs. *)
Definition code_and_name (r : Joined) : Z * string :=
  (village_code r, village_name_en (v_row r)).

Definition get_villages (file : option Db)
    (hobli_code taluk_code district_code : option Z) : list (Z * string) :=
  match file with
  | None => []
  | Some d =>
      if truthy_opt_int hobli_code then
        distinct_by_name
          (code_and_name <$>
             filter (λ r, Some (hobli_code_of r) = hobli_code)
                    (from_villages d))
      else if truthy_opt_int taluk_code then
        distinct_by_name
          (code_and_name <$>
             filter (λ r, taluk_code_of r = taluk_code)
                    (join_hoblis d (from_villages d)))
      else if truthy_opt_int district_code then
        distinct_by_name
          (code_and_name <$>
             filter (λ r, district_code_of r = district_code)
                    (join_talukas d (join_hoblis d (from_villages d))))
      else []
  end.

Definition count_villages (file : option Db)
    (hobli_code taluk_code district_code : option Z) : Z :=
  Z.of_nat (length (get_villages file hobli_code taluk_code district_code)).
End Villages.

(* ===================================================================== *)
(** * kaveri_hybrid_search.py: KaveriAPI.search and the search loop *)
(* ===================================================================== *)

Module HybridSearch.
Import Py.

(** [str(e)] *)
Definition str (e : exn) : string :=
  match e with
  | RequestException m | IntegrityError m | WebDriverException m
  | Exception m => m
  end.

(** The dictionary that the page's [fetch] hands back: the JSON body of
    the response, or [{error: ...}]. *)
Record BrowserResult := {
  error : option string;
  body : DirectApi.SearchResponse }.

(** A response of [requests]: its status, the text of the HTTPError that
    [raise_for_status] raises for it when the status is an error status,
    and what [resp.json()] gives. *)
Record Response := {
  status_code : Z;
  http_error : string;
  json : exn + DirectApi.SearchResponse }.

(** The portal, the CAPTCHA solver and the browser, each call of which
    may raise. *)
Record Service (R : Type) := {
  generate_captcha : R → R * (exn + (option string * string));
  solve : string → R → R * (exn + string);
  execute_script : DirectApi.Payload → R → R * (exn + BrowserResult);
  post : option string → DirectApi.Payload → R → R * (exn + Response) }.
Arguments generate_captcha {R}.
Arguments solve {R}.
Arguments execute_script {R}.
Arguments post {R}.

(** What the page shows while the loop runs. *)
Inductive Ui : Type :=
| Progress (done total : Z)
| Searching (village : string) (idx total : Z)
| Found (records : Z)
| Sleep (ms : Z)
| ProgressDone
| SearchComplete.

(** The locals of the button handler. *)
Record Locals := {
  all_results : list Row;
  errors : list (string * string) }.     (* "village: error" *)

Section Search.
Context {R : Type} (svc : Service R).
(** [self._token] and whether [self._driver] is set. *)
Context (_token : option string) (_driver : bool).

Record World := {
  remote : R;
  output_file : CsvFile;
  ui : list Ui }.

Definition call {A} (op : R → R * (exn + A)) : M World A :=
  λ w, match op (remote w) with
       | (r', x) => ({| remote := r'; output_file := output_file w;
                        ui := ui w |}, x)
       end.

Definition show (u : Ui) : M World unit :=
  modify (λ w, {| remote := remote w; output_file := output_file w;
                  ui := ui w ++ [u] |}).

Definition save_rows (results : list Row) : M World unit :=
  modify (λ w, {| remote := remote w;
                  output_file := append_rows (output_file w) results;
                  ui := ui w |}).

(** [_fetch_via_browser], called with a driver: an exception of
    [execute_script] comes back as [{"error": str(e)}]. *)
Definition _fetch_via_browser (payload : DirectApi.Payload)
  : M World BrowserResult :=
  do r <- try (call (execute_script svc payload));
  match r with
  | inr result => ret result
  | inl e =>
      ret {| error := Some (str e);
             body := {| DirectApi.responseCode := None;
                        DirectApi.responseMessage := None;
                        DirectApi.data := DirectApi.Records [] |} |}
  end.

(** The records of a response body: none unless the response code is
    1000, and none when the data do not decode. *)
Definition records_of (result : DirectApi.SearchResponse) : list Row :=
  if negb (bool_decide (DirectApi.responseCode result = Some 1000))
  then []
  else match DirectApi.data result with
       | DirectApi.Records rows => rows
       | DirectApi.Undecodable => []
       end.

Definition search (village_code : Z)
    (party_name from_date to_date : string)
    (captcha_id : option string) (captcha_code : string)
    (use_browser : bool) : M World (list Row) :=
  let payload :=
    {| DirectApi._VillageCode := pretty village_code;
       DirectApi._FromDate := from_date;
       DirectApi._ToDate := to_date;
       DirectApi.firstName := party_name;
       DirectApi.captchaID := captcha_id;
       DirectApi.captchaCode := captcha_code |} in
  do through_browser <-
    (if use_browser && _driver
     then
       do r <- try (do result <- _fetch_via_browser payload;
                    match error result with
                    | Some msg => raise (Exception msg)
                    | None => ret (records_of (body result))
                    end);
       match r with
       | inr rows => ret (Some rows)
       | inl _ => ret None               (* fall back to requests *)
       end
     else ret None);
  match through_browser with
  | Some rows => ret rows
  | None =>
      do resp <- call (post svc _token payload);
      if status_code resp =? 401
      then raise (Exception "Session expired! Please login again (Tab 1)")
      else if (400 <=? status_code resp) && (status_code resp <? 600)
      then raise (RequestException (http_error resp))
      else
        match json resp with
        | inl e => raise e
        | inr result => ret (records_of result)
        end
  end.

(** One turn of the search loop of [main]. *)
Definition search_turn (party_name from_date to_date : string)
    (use_browser : bool) (total : Z) (acc : Z * Locals)
    (village : Z * string) : M World (Z * Locals) :=
  let idx := acc.1 in
  let st := acc.2 in
  run show (Progress (idx + 1) total);
  run show (Searching village.2 (idx + 1) total);
  do r <- try (
    do ' (captcha_id, captcha_img) <- call (generate_captcha svc);
    do captcha_code <- call (solve svc captcha_img);
    do results <- search village.1 party_name from_date to_date
                    captcha_id captcha_code use_browser;
    let results :=
      map (λ r, dict_set "_village_name" village.2
                  (dict_set "_village_code" (pretty village.1) r))
          results in
    run (if truthy_list results then save_rows results else ret tt);
    run show (Found (Z.of_nat (length (all_results st ++ results))));
    ret results);
  let st' :=
    match r with
    | inr results => {| all_results := all_results st ++ results;
                        errors := errors st |}
    | inl e => {| all_results := all_results st;
                  errors := errors st ++ [(village.2, str e)] |}
    end in
  run show (Sleep 1000);
  ret (idx + 1, st').

Definition search_loop (villages : list (Z * string))
    (party_name from_date to_date : string) (use_browser : bool)
  : M World Locals :=
  let total := Z.of_nat (length villages) in
  do acc <- for_fold villages
              (search_turn party_name from_date to_date use_browser total)
              (0, {| all_results := []; errors := [] |});
  run show ProgressDone;
  run show SearchComplete;
  ret acc.2.
End Search.

Arguments World : clear implicits.
End HybridSearch.

Module HybridSearchSpec.
Import Py HybridSearch.

(** The villages a run has started on, read off the "Searching" lines
    of the page. *)
Fixpoint searched (ui : list Ui) : list string :=
  match ui with
  | [] => []
  | Searching village _ _ :: rest => village :: searched rest
  | _ :: rest => searched rest
  end.

Definition expired_message : string :=
  "Session expired! Please login again (Tab 1)".
End HybridSearchSpec.

Module HybridScenario.
Import Py HybridSearch.

(** A portal whose session has expired: CAPTCHAs are served and solved,
    every search is answered with status 401.  The state counts the
    CAPTCHAs solved. *)
Definition expired_portal : Service nat :=
  {| generate_captcha := λ n, (n, inr (Some "c-1", "PNG"));
     solve := λ _ n, (S n, inr "X7K2P");
     execute_script := λ _ n,
       (n, inl (WebDriverException "no such window"));
     post := λ _ _ n,
       (n, inr {| status_code := 401;
                  http_error := "401 Client Error: Unauthorized";
                  json := inl (RequestException "Expecting value") |}) |}.

Definition fresh_page : World nat :=
  {| remote := O; output_file := None; ui := [] |}.
End HybridScenario.

(* ===================================================================== *)
(** * kaveri_citizen_assistant.py: LocationRepo.get_full_hierarchy *)
(* ===================================================================== *)

Module FullHierarchy.
Import Py Assistant.

(** The dictionary [get_full_hierarchy] returns. *)
Record Hierarchy := {
  village_code : Z; village_name : Name;
  hobli_code : Z; hobli_name : Name;
  taluk_code : Z; taluk_name : Name;
  district_code : Z; district_name : Name }.

(** [get_full_hierarchy]: the village row joined with its hobli, taluka
    and district rows; every join is on a primary key, so that there is
    at most one row, and none when a parent is missing. *)
Definition get_full_hierarchy (d : Db) (code : Z) : option Hierarchy :=
  v ← tbl_villages d !! code;
  h ← tbl_hoblis d !! v.2;
  t ← tbl_talukas d !! h.2;
  dr ← tbl_districts d !! t.2;
  Some {| village_code := code; village_name := villagenamee v.1;
          hobli_code := v.2; hobli_name := hoblinamee h.1;
          taluk_code := h.2; taluk_name := talukNamee t.1;
          district_code := t.2; district_name := districtNamee dr |}.

(** The hierarchy a combination of the expander names. *)
Definition of_combo (u : Combo) : Hierarchy :=
  {| village_code := c_village u; village_name := c_village_name u;
     hobli_code := c_hobli u; hobli_name := c_hobli_name u;
     taluk_code := c_taluk u; taluk_name := c_taluk_name u;
     district_code := c_district u; district_name := c_district_name u |}.
End FullHierarchy.

(* ===================================================================== *)
(** * kaveri_smart_search.py: BrowserController.search_village *)
(* ===================================================================== *)

Module Controller.
Import Py.

(** [needle in hay] on strings. *)
Fixpoint contains (needle hay : string) : bool :=
  if String.prefix needle hay then true
  else match hay with
       | EmptyString => false
       | String _ rest => contains needle rest
       end.

(** The methods of [BrowserController] that [search_village] calls, and
    the page source of the driver, as operations on the browser state;
    each may raise. *)
Record Browser (B : Type) := {
  fill_text_field : string → string → B → B * (exn + bool);
  select_dropdown : string → string → B → B * (exn + bool);
  solve_and_fill_captcha : B → B * (exn + bool);
  click_search : B → B * (exn + bool);
  page_source : B → B * (exn + string);
  check_no_results : B → B * (exn + bool);
  get_results_table : B → B * (exn + list Row) }.
Arguments fill_text_field {B}.
Arguments select_dropdown {B}.
Arguments solve_and_fill_captcha {B}.
Arguments click_search {B}.
Arguments page_source {B}.
Arguments check_no_results {B}.
Arguments get_results_table {B}.

Section SearchVillage.
Context {B : Type} (browser : Browser B).
(** [str.lower] *)
Context (lower : string → string).

Definition search_village_body
    (village_name party_name from_date to_date : string)
  : M B (bool * list Row * string) :=
  do filled <- fill_text_field browser "firstName" party_name;
  if negb filled then ret (false, [], "Could not fill party name")
  else
    run fill_text_field browser "fromDate" from_date;
    run fill_text_field browser "toDate" to_date;
    do selected <- select_dropdown browser "villageCode" village_name;
    if negb selected
    then ret (false, [],
              String.append "Could not select village: " village_name)
    else
      do solved <- solve_and_fill_captcha browser;
      if negb solved then ret (false, [], "CAPTCHA solving failed")
      else
        do clicked <- click_search browser;
        if negb clicked
        then ret (false, [], "Could not click search button")
        else
          do source <- page_source browser;
          let page_text := lower source in
          if contains "session" page_text && contains "expired" page_text
          then ret (false, [], "SESSION_EXPIRED")
          else if contains "unauthorized" page_text
          then ret (false, [], "SESSION_EXPIRED")
          else
            do none <- check_no_results browser;
            if none : bool then ret (true, [], EmptyString)
            else
              do results <- get_results_table browser;
              ret (true, results, EmptyString).

(** [search_village]: an exception of the body is turned into a failed
    search, and into SESSION_EXPIRED when its text mentions a session,
    a login or "unauthorized". *)
Definition search_village
    (village_name party_name from_date to_date : string)
  : M B (bool * list Row * string) :=
  do r <- try (search_village_body village_name party_name from_date
                 to_date);
  match r with
  | inr answer => ret answer
  | inl e =>
      let error_msg := lower (HybridSearch.str e) in
      if contains "session" error_msg || contains "login" error_msg
         || contains "unauthorized" error_msg
      then ret (false, [], "SESSION_EXPIRED")
      else ret (false, [], HybridSearch.str e)
  end.

(** [search_village] as the search loop of [main] calls it. *)
Definition search_village_call
    (village_name party_name from_date to_date : string) (b : B)
  : B * (bool * list Row * string) :=
  match search_village village_name party_name from_date to_date b with
  | (b', inr answer) => (b', answer)
  | (b', inl e) => (b', (false, [], HybridSearch.str e))
  end.
End SearchVillage.
End Controller.

(* ===================================================================== *)
(** * Properties *)
(* ===================================================================== *)

Section MonadFacts.
Import Py.
Context {W : Type}.

Lemma bind_inr {A B} (c : M W A) (k : A → M W B) w w' a :
  c w = (w', inr a) → bind c k w = k a w'.
Proof. unfold bind. by intros ->. Qed.

Lemma bind_inl {A B} (c : M W A) (k : A → M W B) w w' e :
  c w = (w', inl e) → bind c k w = (w', inl e).
Proof. unfold bind. by intros ->. Qed.

Lemma bind_try {A B} (c : M W A) (k : exn + A → M W B) w w' r :
  c w = (w', r) → bind (try c) k w = k r w'.
Proof. unfold bind, try. by intros ->. Qed.


End MonadFacts.


Section IndexerFacts.
Import Py Sqlite Indexer IndexerSpec.
Context {Net : Type}.
Implicit Types w : World Net.

Lemma api_call_loop_returns {R} (post : Net → Net * (exn + list R))
    retries attempts w :
  ∃ w' rows, api_call_loop post retries attempts w = (w', inr rows)
             ∧ same_files w w'.
Proof.
  revert w. induction attempts as [|a rest IH]; intros w; simpl.
  - by exists w, [].
  - unfold bind, try, request, emit, modify, ret.
    destruct (post (net w)) as [n' [e|rows]]; simpl.
    + destruct (a <? retries - 1).
      * edestruct IH as (w' & rows & -> & Hdb & Hj).
        exists w', rows. by split.
      * by eexists _, [].
    + by eexists _, rows.
Qed.

Lemma api_call_loop_all_fail {R} (post : Net → Net * (exn + list R))
    retries attempts w :
  all_attempts_fail post (length attempts) (net w) = true →
  ∃ w', api_call_loop post retries attempts w = (w', inr [])
        ∧ same_files w w'.
Proof.
  revert w. induction attempts as [|a rest IH]; intros w; simpl.
  - intros _. by exists w.
  - unfold bind, try, request, emit, modify, ret.
    destruct (post (net w)) as [n' [e|rows]]; simpl; [|done].
    intros Hfail. destruct (a <? retries - 1).
    + edestruct IH as (w' & -> & Hdb & Hj); [exact Hfail|].
      exists w'. by split.
    + by eexists.
Qed.

Lemma length_seqZ_nat (m n : Z) : length (seqZ m n) = Z.to_nat n.
Proof. apply length_seqZ. Qed.

Lemma api_call_all_fail {R} (post : Net → Net * (exn + list R)) retries w :
  all_attempts_fail post (Z.to_nat retries) (net w) = true →
  ∃ w', api_call post retries w = (w', inr []) ∧ same_files w w'.
Proof.
  intros H. apply api_call_loop_all_fail. by rewrite length_seqZ_nat.
Qed.

Lemma api_call_answers_empty {R} (post : Net → Net * (exn + list R))
    retries w :
  0 < retries →
  answers_empty post (net w) = true →
  api_call post retries w
  = ({| net := (post (net w)).1; out := out w; db := db w;
        json_export := json_export w |}, inr []).
Proof.
  intros Hpos. unfold answers_empty, api_call.
  rewrite seqZ_cons by done. simpl.
  unfold bind, try, request, ret.
  by destruct (post (net w)) as [n' [e|[|r rows]]].
Qed.

(** *** A write on a connection from [sqlite3.connect] checks no parent *)

Lemma insert_taluka_connect code r w :
  insert_taluka connect code r w
  = ({| net := net w; out := out w;
        db := {| districts := districts (db w);
                 talukas := <[code := r]> (talukas (db w));
                 hoblis := hoblis (db w); villages := villages (db w);
                 metadata := metadata (db w) |};
        json_export := json_export w |}, inr tt).
Proof. done. Qed.

(** *** The fetch functions *)
Context (api : Remote Net).





(** A fetch whose [api_call] came back empty hands the empty list on and
    writes nothing. *)
Lemma fetch_districts_no_data conn w w' :
  api_call (GetDistrictAsync api) 3 w = (w', inr []) →
  fetch_districts api conn w
  = ({| net := net w'; out := out w' ++ [NoDistrictsReceived];
        db := db w'; json_export := json_export w' |}, inr []).
Proof. intros E. unfold fetch_districts. by rewrite (bind_inr _ _ _ _ _ E). Qed.

Lemma fetch_talukas_no_data conn code w w' :
  api_call (GetTalukaAsync api code) 3 w = (w', inr []) →
  fetch_talukas api conn code w = (w', inr []).
Proof. intros E. unfold fetch_talukas. by rewrite (bind_inr _ _ _ _ _ E). Qed.

Lemma fetch_hoblis_no_data conn code w w' :
  api_call (GetHobliAsync api code) 3 w = (w', inr []) →
  fetch_hoblis api conn code w = (w', inr []).
Proof. intros E. unfold fetch_hoblis. by rewrite (bind_inr _ _ _ _ _ E). Qed.

Lemma fetch_villages_no_data conn code w w' :
  api_call (GetVillageAsync api code) 3 w = (w', inr []) →
  fetch_villages api conn code w = (w', inr []).
Proof. intros E. unfold fetch_villages. by rewrite (bind_inr _ _ _ _ _ E). Qed.

(** Either way of coming back empty from [api_call]. *)
Lemma api_call_unproductive {R} (post : Net → Net * (exn + list R)) w :
  all_attempts_fail post 3 (net w) = true
  ∨ answers_empty post (net w) = true →
  ∃ w', api_call post 3 w = (w', inr []) ∧ same_files w w'.
Proof.
  intros [H|H].
  - by apply api_call_all_fail.
  - rewrite api_call_answers_empty by done. by eexists.
Qed.
End IndexerFacts.

Section IndexerClaims.
Import Py Sqlite Indexer IndexerSpec.

(** C10.  [api_call] never raises: for every request and retry count it
    returns a list.  When every configured attempt raises, the list is
    empty.  At each of the four call sites a fetch whose three attempts
    all raise and a fetch answered with zero rows look the same to the
    caller: the fetch function returns the empty list and no table has
    changed. *)
Theorem api_call_total_and_failure_reads_as_empty :
  ∀ {Net : Type} (api : Remote Net),
    (∀ R (post : Net → Net * (exn + list R)) retries (w : World Net),
       ∃ w' rows, api_call post retries w = (w', inr rows))
    ∧ (∀ R (post : Net → Net * (exn + list R)) retries (w : World Net),
         all_attempts_fail post (Z.to_nat retries) (net w) = true →
         ∃ w', api_call post retries w = (w', inr []))
    ∧ (∀ conn (w : World Net),
         all_attempts_fail (GetDistrictAsync api) 3 (net w) = true
         ∨ answers_empty (GetDistrictAsync api) (net w) = true →
         empty_handed (fetch_districts api conn) w)
    ∧ (∀ conn code (w : World Net),
         all_attempts_fail (GetTalukaAsync api code) 3 (net w) = true
         ∨ answers_empty (GetTalukaAsync api code) (net w) = true →
         empty_handed (fetch_talukas api conn code) w)
    ∧ (∀ conn code (w : World Net),
         all_attempts_fail (GetHobliAsync api code) 3 (net w) = true
         ∨ answers_empty (GetHobliAsync api code) (net w) = true →
         empty_handed (fetch_hoblis api conn code) w)
    ∧ (∀ conn code (w : World Net),
         all_attempts_fail (GetVillageAsync api code) 3 (net w) = true
         ∨ answers_empty (GetVillageAsync api code) (net w) = true →
         empty_handed (fetch_villages api conn code) w).
Proof.
  intros Net api. repeat split.
  - intros R post retries w.
    destruct (api_call_loop_returns post retries (seqZ 0 retries) w)
      as (w' & rows & E & _).
    by exists w', rows.
  - intros R post retries w H.
    destruct (api_call_all_fail post retries w H) as (w' & E & _).
    by exists w'.
  - intros conn w H.
    destruct (api_call_unproductive _ w H) as (w' & E & Hdb & _).
    unfold empty_handed. rewrite (fetch_districts_no_data api conn w w' E).
    by eexists.
  - intros conn code w H.
    destruct (api_call_unproductive _ w H) as (w' & E & Hdb & _).
    exists w'. by rewrite (fetch_talukas_no_data api conn code w w' E).
  - intros conn code w H.
    destruct (api_call_unproductive _ w H) as (w' & E & Hdb & _).
    exists w'. by rewrite (fetch_hoblis_no_data api conn code w w' E).
  - intros conn code w H.
    destruct (api_call_unproductive _ w H) as (w' & E & Hdb & _).
    exists w'. by rewrite (fetch_villages_no_data api conn code w w' E).
Qed.

(** With the service down, fetching the talukas of district 10 comes
    back empty-handed. *)
Lemma api_call_total_and_failure_reads_as_empty_witness :
  all_attempts_fail (GetTalukaAsync Scenario.down 10) 3 tt = true
  ∧ empty_handed (fetch_talukas Scenario.down connect 10)
                 (Scenario.fresh_indexer tt).
Proof.
  split; [reflexivity|].
  apply (api_call_total_and_failure_reads_as_empty Scenario.down).
  left. reflexivity.
Defined.




End IndexerClaims.

Section CrawlFacts.
Import Py Sqlite AssistantSpec.
Context {Net : Type} (api : Remote Net).

(** *** index_all *)





(** *** build_location_hierarchy *)
Implicit Types w : Assistant.World Net.

Lemma _post_json_ok {R} (post : Net → Net * (exn + list R)) w n' rows :
  post (Assistant.net w) = (n', inr rows) →
  Assistant._post_json post w = (after_post w n', inr rows).
Proof.
  intros E. unfold Assistant._post_json, bind, try, Assistant.request.
  by rewrite E.
Qed.

Lemma _post_json_raises {R} (post : Net → Net * (exn + list R)) w n' e :
  post (Assistant.net w) = (n', inl e) →
  Assistant._post_json post w
  = (with_log (after_post w n') (post_log e), inl e).
Proof.
  intros E. unfold Assistant._post_json, bind, try, Assistant.request.
  rewrite E. destruct e; simpl; try done.
  all: unfold with_log, after_post; simpl; by rewrite app_nil_r.
Qed.

Lemma _post_json_cases {R} (post : Net → Net * (exn + list R)) w :
  ∃ w' r, Assistant._post_json post w = (w', r)
          ∧ Assistant.db w' = Assistant.db w
          ∧ Assistant.json_file w' = Assistant.json_file w.
Proof.
  destruct (post (Assistant.net w)) as [n' [e|rows]] eqn:E.
  - rewrite (_post_json_raises _ _ _ _ E). by eexists _, _.
  - rewrite (_post_json_ok _ _ _ _ E). by eexists _, _.
Qed.




Lemma _write_sqlite_returns data w :
  ∃ w', Assistant._write_sqlite data w = (w', inr tt)
        ∧ Assistant.json_file w' = Assistant.json_file w.
Proof.
  unfold Assistant._write_sqlite.
  set (J := λ w' : Assistant.World Net,
              Assistant.json_file w' = Assistant.json_file w).
  assert (Hloop : ∀ A (xs : list A) (body : A → M (Assistant.World Net) unit),
            (∀ x w0, J w0 → ∃ w', body x w0 = (w', inr tt) ∧ J w') →
            ∀ w0, J w0 → ∃ w', for_each xs body w0 = (w', inr tt) ∧ J w').
  { intros A xs body Hbody. induction xs as [|x xs IH]; intros w0 HJ; simpl.
    - by exists w0.
    - destruct (Hbody x w0 HJ) as (w1 & E & HJ1).
      rewrite (bind_inr _ _ _ _ _ E). by apply IH. }
  rewrite (bind_inr _ _ w _ tt eq_refl).
  edestruct (Hloop _ (Assistant.data_districts data)
               (Assistant.insert_district connect)) as (w1 & E1 & J1);
    [by eexists | | rewrite (bind_inr _ _ _ _ _ E1)]; [done|].
  edestruct (Hloop _ (Assistant.data_talukas data)
               (Assistant.insert_taluka connect)) as (w2 & E2 & J2);
    [by eexists | exact J1 | rewrite (bind_inr _ _ _ _ _ E2)].
  edestruct (Hloop _ (Assistant.data_hoblis data)
               (Assistant.insert_hobli connect)) as (w3 & E3 & J3);
    [by eexists | exact J2 | rewrite (bind_inr _ _ _ _ _ E3)].
  edestruct (Hloop _ (Assistant.data_villages data)
               (Assistant.insert_village connect)) as (w4 & E4 & J4);
    [by eexists | exact J3 | rewrite (bind_inr _ _ _ _ _ E4)].
  destruct (truthy_list _); [|by exists w4].
  edestruct (Hloop _ (Assistant.data_property_types data)
               (Assistant.insert_property_type connect)) as (w5 & E5 & J5);
    [by eexists | exact J4 |]. by exists w5.
Qed.
End CrawlFacts.

Section CrawlClaims.
Import Py Sqlite IndexerSpec AssistantSpec.

End CrawlClaims.

Section CrawlExamples.
Import Py Sqlite IndexerSpec AssistantSpec.


End CrawlExamples.

Section ExpanderFacts.
Import Py Assistant AssistantSpec.
Implicit Types (seen : gset (Z * Z * Z * Z)) (combos : list Combo).

Lemma foldl_dedup_step combos seen acc :
  (foldl dedup_step (seen, acc) combos).2 = acc ++ keep_unseen seen combos.
Proof.
  revert seen acc. induction combos as [|c rest IH]; intros seen acc; simpl.
  - by rewrite app_nil_r.
  - unfold dedup_step at 2. simpl. destruct (decide (combo_key c ∈ seen)).
    + apply IH.
    + rewrite IH. by rewrite <- app_assoc.
Qed.

Lemma unique_combinations_keep combos :
  unique_combinations combos = keep_unseen ∅ combos.
Proof. unfold unique_combinations. by rewrite foldl_dedup_step. Qed.

Lemma keep_unseen_fresh combos seen u :
  u ∈ keep_unseen seen combos → combo_key u ∉ seen.
Proof.
  revert seen. induction combos as [|c rest IH]; intros seen; simpl.
  - by intros ?%elem_of_nil.
  - destruct (decide (combo_key c ∈ seen)); [by apply IH|].
    intros [->|H]%elem_of_cons; [done|].
    apply IH in H. intros Hs. apply H, elem_of_union. by right.
Qed.

Lemma keep_unseen_NoDup combos seen :
  NoDup (combo_key <$> keep_unseen seen combos).
Proof.
  revert seen. induction combos as [|c rest IH]; intros seen; simpl.
  - constructor.
  - destruct (decide (combo_key c ∈ seen)); [by apply IH|].
    rewrite fmap_cons. constructor; [|by apply IH].
    intros (u & Hk & Hu)%list_elem_of_fmap.
    apply keep_unseen_fresh in Hu. apply Hu, elem_of_union. left.
    by apply elem_of_singleton.
Qed.

Lemma keep_unseen_sublist combos seen :
  keep_unseen seen combos `sublist_of` combos.
Proof.
  revert seen. induction combos as [|c rest IH]; intros seen; simpl.
  - constructor.
  - destruct (decide (combo_key c ∈ seen)).
    + by apply sublist_cons.
    + by apply sublist_skip.
Qed.

Lemma keep_unseen_covers combos seen c :
  c ∈ combos →
  combo_key c ∈ seen ∨ combo_key c ∈ combo_key <$> keep_unseen seen combos.
Proof.
  revert seen. induction combos as [|c' rest IH]; intros seen; simpl.
  - by intros ?%elem_of_nil.
  - intros [->|H]%elem_of_cons.
    + destruct (decide (combo_key c' ∈ seen)); [by left|].
      right. rewrite fmap_cons. by left.
    + destruct (decide (combo_key c' ∈ seen)); [by apply IH|].
      destruct (IH ({[ combo_key c' ]} ∪ seen) H) as [Hs|Hk].
      * apply elem_of_union in Hs as [Hs%elem_of_singleton|Hs]; [|by left].
        right. rewrite fmap_cons, Hs. by left.
      * right. rewrite fmap_cons. by right.
Qed.

Lemma keep_unseen_first combos seen u :
  u ∈ keep_unseen seen combos → first_seen_in combos u.
Proof.
  revert seen. induction combos as [|c rest IH]; intros seen; simpl.
  - by intros ?%elem_of_nil.
  - destruct (decide (combo_key c ∈ seen)) as [Hin|Hnin].
    + intros Hu. pose proof (keep_unseen_fresh _ _ _ Hu) as Hfresh.
      destruct (IH _ Hu) as (before & after & -> & Hb).
      exists (c :: before), after. split; [done|].
      rewrite fmap_cons. intros [E|?]%elem_of_cons; [|done].
      apply Hfresh. by rewrite E.
    + intros [->|Hu]%elem_of_cons.
      * exists [], rest. split; [done|]. by intros ?%elem_of_nil.
      * pose proof (keep_unseen_fresh _ _ _ Hu) as Hfresh.
        destruct (IH _ Hu) as (before & after & -> & Hb).
        exists (c :: before), after. split; [done|].
        rewrite fmap_cons. intros [E|?]%elem_of_cons; [|done].
        apply Hfresh, elem_of_union. left. by apply elem_of_singleton.
Qed.

Lemma only_code_unselected {A} (code_of : A → Z) sel (rows : list A) :
  truthy_opt_int sel = false → only_code code_of sel rows = rows.
Proof.
  unfold only_code, truthy_opt_int. destruct sel as [c|]; [|done].
  by intros ->.
Qed.

Lemma only_code_selected {A} (code_of : A → Z) c (rows : list A) r :
  c ≠ 0 → r ∈ only_code code_of (Some c) rows → code_of r = c.
Proof.
  intros Hc. unfold only_code, truthy_int.
  destruct (Z.eqb_spec c 0); [done|]. simpl.
  by intros [? _]%list_elem_of_filter.
Qed.

Lemma combos_in_district_code repo cfg d u :
  u ∈ combos_in_district repo cfg d → c_district u = d.1.
Proof.
  unfold combos_in_district.
  intros (t & Hu & _)%list_elem_of_bind.
  apply list_elem_of_bind in Hu as (h & Hu & _).
  apply list_elem_of_bind in Hu as (v & Hu & _).
  by apply list_elem_of_singleton in Hu as ->.
Qed.

Lemma build_location_combinations_eq repo cfg (log0 : list LogRecord) :
  build_location_combinations repo cfg log0
  = (log0 ++ duplicates_report (candidate_combinations repo cfg)
               (unique_combinations (candidate_combinations repo cfg)),
     inr (unique_combinations (candidate_combinations repo cfg))).
Proof.
  unfold build_location_combinations, duplicates_report, bind.
  destruct (_ <? _); simpl; [done|]. by rewrite app_nil_r.
Qed.
End ExpanderFacts.

Section ExpanderClaims.
Import Py Assistant AssistantSpec.

(** C2, as amended.  For every repository and filter the expander
    returns a list in which each 4-tuple of codes occurs at most once;
    the list keeps the order of the candidate list, every candidate's
    4-tuple is represented, and each retained combination is the first
    one with its 4-tuple in the candidate list.  The number of
    duplicates removed is logged when it is positive; when nothing was
    removed nothing is logged. *)
Theorem expander_output_is_deduplicated :
  ∀ (repo : LocationRepo) (cfg : SearchConfig) (log0 : list LogRecord),
    let combos := candidate_combinations repo cfg in
    ∃ unique,
      build_location_combinations repo cfg log0
      = (log0 ++ duplicates_report combos unique, inr unique)
      ∧ NoDup (combo_key <$> unique)
      ∧ unique `sublist_of` combos
      ∧ (∀ c, c ∈ combos → combo_key c ∈ combo_key <$> unique)
      ∧ (∀ u, u ∈ unique → first_seen_in combos u).
Proof.
  intros repo cfg log0 combos. exists (unique_combinations combos).
  split; [apply build_location_combinations_eq|].
  rewrite unique_combinations_keep. repeat split.
  - apply keep_unseen_NoDup.
  - apply keep_unseen_sublist.
  - intros c Hc.
    by destruct (keep_unseen_covers _ ∅ _ Hc) as [?%elem_of_empty|?].
  - intros u. apply keep_unseen_first.
Qed.

(** A repository that lists a village twice: the second occurrence is
    dropped and one removed duplicate is logged. *)
Example expander_reports_removed_duplicate :
  build_location_combinations Scenario.doubled_repo
    (Scenario.config (Some 10) (Some 20) false true true) []
  = ([RemovedDuplicates 1],
     inr [Scenario.combo 10 20 30 40 "Mysuru" "Hunsur" "Kasaba" "Alpha";
          Scenario.combo 10 20 30 41 "Mysuru" "Hunsur" "Kasaba" "Beta"]).
Proof. reflexivity. Qed.

(** C2, as stated, fails in its last part.  On the store of the
    specification's scenario, with district 10, taluka 20 and all
    hoblis, the expander returns the two targets (10,20,30,40) and
    (10,20,30,41) and logs nothing: no count of removed duplicates is
    reported. *)
Lemma no_duplicates_no_report_counterexample :
  build_location_combinations (sqlite_repo Scenario.one_district_store)
    (Scenario.config (Some 10) (Some 20) false true false) []
  = ([],
     inr [Scenario.combo 10 20 30 40 "Mysuru" "Hunsur" "Kasaba" "Alpha";
          Scenario.combo 10 20 30 41 "Mysuru" "Hunsur" "Kasaba" "Beta"]).
Proof. vm_compute. reflexivity. Qed.

(** C6, as amended.  The expander never raises, with or without a
    district in the filter.  When no district code is given (absent, or
    0) every district row of the repository is expanded: each
    combination found under any district is represented in the output.
    When a district code is given, every target of the output lies in
    that district. *)
Theorem expander_district_is_optional :
  ∀ (repo : LocationRepo) (cfg : SearchConfig) (log0 : list LogRecord),
    ∃ log1 unique,
      build_location_combinations repo cfg log0 = (log1, inr unique)
      ∧ (truthy_opt_int (district_code cfg) = false →
         ∀ d c, d ∈ districts repo → c ∈ combos_in_district repo cfg d →
                combo_key c ∈ combo_key <$> unique)
      ∧ (∀ code, district_code cfg = Some code → code ≠ 0 →
                 ∀ u, u ∈ unique → c_district u = code).
Proof.
  intros repo cfg log0.
  rewrite build_location_combinations_eq, unique_combinations_keep.
  eexists _, _. split; [reflexivity|]. split.
  - intros Hnone d c Hd Hc.
    destruct (keep_unseen_covers (candidate_combinations repo cfg) ∅ c)
      as [?%elem_of_empty|?]; [|done..].
    unfold candidate_combinations.
    rewrite only_code_unselected by done.
    apply list_elem_of_bind. by exists d.
  - intros code Hcode Hne u Hu.
    eapply elem_of_sublist in Hu; [|apply keep_unseen_sublist].
    unfold candidate_combinations in Hu. rewrite Hcode in Hu.
    apply list_elem_of_bind in Hu as (d & Hu & Hd).
    apply only_code_selected in Hd; [|done].
    rewrite (combos_in_district_code _ _ _ _ Hu). exact Hd.
Qed.

(** On the store with two districts and a filter without district code,
    the village found under district 10 is in the output. *)
Lemma expander_district_is_optional_witness :
  ∃ log1 unique,
    build_location_combinations (sqlite_repo Scenario.two_district_store)
      (Scenario.config None None true true true) [] = (log1, inr unique)
    ∧ (10, 20, 30, 40) ∈ combo_key <$> unique.
Proof.
  destruct (expander_district_is_optional
              (sqlite_repo Scenario.two_district_store)
              (Scenario.config None None true true true) [])
    as (log1 & unique & E & Hall & _).
  exists log1, unique. split; [exact E|].
  apply (Hall eq_refl (10, Some "Mysuru")
           (Scenario.combo 10 20 30 40 "Mysuru" "Hunsur" "Kasaba" "Alpha")).
  - vm_compute. apply list_elem_of_In. right. by left.
  - vm_compute. by left.
Defined.

(** C6, as stated, fails.  On a store with districts 10 and 11 and a
    filter that names no district, the expander raises nothing: it
    returns targets in both districts, that is, a list that spans every
    district of the store. *)
Lemma no_district_expands_every_district_counterexample :
  district_code (Scenario.config None None true true true) = None
  ∧ build_location_combinations (sqlite_repo Scenario.two_district_store)
      (Scenario.config None None true true true) []
    = ([],
       inr [Scenario.combo 11 22 32 42 "Bagalkot" "Badami" "Kerur" "Gamma";
            Scenario.combo 10 20 30 40 "Mysuru" "Hunsur" "Kasaba" "Alpha"]).
Proof. split; [done|]. vm_compute. reflexivity. Qed.
End ExpanderClaims.

Section SessionClaims.
Import Py Hybrid.

Lemma seconds_of_age (d s : Z) :
  0 ≤ s < 86400000000 →
  seconds (timedelta_of (d * 86400000000 + s)) = s / 1000000.
Proof.
  intros Hs. unfold timedelta_of. simpl.
  replace (d * 86400000000 + s) with (s + d * 86400000000) by lia.
  rewrite Z_mod_plus_full. by rewrite Z.mod_small.
Qed.

(** C3 (the code does not do this).  The check compares the [seconds]
    field of the age, which leaves out whole days.  For a session file
    with a token, saved [d] days and [s] microseconds ago with [s] less
    than one hour and one second, [is_session_valid] returns [true] for
    every number of days [d]: a session saved a day and ten minutes ago
    is reported valid. *)
Theorem stale_session_is_reported_valid :
  ∀ (fromisoformat : string → exn + datetime) (file : Session)
    (text : string) (saved now d s : Z),
    truthy_opt_str (append_token file) = true →
    saved_at file = Some text →
    truthy_str text = true →
    fromisoformat text = inr {| instant := saved; tzinfo := None |} →
    now - saved = d * 86400000000 + s →
    0 ≤ s < 3601000000 →
    is_session_valid fromisoformat (Some file) now = true.
Proof.
  intros parse file text saved now d s Htok Hsaved Htext Hparse Hage Hs.
  unfold is_session_valid, load_session, datetime_sub.
  rewrite Htok, Hsaved, Htext, Hparse.
  cbn [tzinfo instant negb andb]. rewrite Hage, seconds_of_age by lia.
  destruct (Z.ltb_spec 3600 (s / 1000000)) as [H|H]; [|done].
  assert (s / 1000000 < 3601); [|lia].
  apply Z.div_lt_upper_bound; lia.
Qed.

(** A session saved one day and ten minutes before [now]. *)
Lemma stale_session_is_reported_valid_witness :
  Scenario.day + 600 * Scenario.second - 0
  = 1 * 86400000000 + 600000000
  ∧ is_session_valid Scenario.parse_epoch (Some Scenario.saved_session)
      (Scenario.day + 600 * Scenario.second) = true.
Proof.
  split; [reflexivity|].
  apply (stale_session_is_reported_valid Scenario.parse_epoch
           Scenario.saved_session "2026-01-01T00:00:00" 0
           (Scenario.day + 600 * Scenario.second) 1 600000000);
    [reflexivity..|lia].
Defined.

(** Within the first day the check works as documented: a session
    saved two hours ago is not valid. *)
Example two_hour_old_session_is_invalid :
  is_session_valid Scenario.parse_epoch (Some Scenario.saved_session)
    (7200 * Scenario.second) = false.
Proof. reflexivity. Qed.
End SessionClaims.

Section BatchFacts.
Import Py DirectApi DirectApiSpec.
Context {R : Type} (svc : Service R) (token : option string).
Implicit Types w : World R.

Lemma processed_app (l1 l2 : list LogRecord) :
  processed (l1 ++ l2) = processed l1 ++ processed l2.
Proof.
  induction l1 as [|r l1 IH]; [done|].
  destruct r; simpl; by rewrite ?IH.
Qed.

(** [search_ec] writes no file and starts no target. *)
Lemma search_ec_frame village party from to w :
  ∃ w' r extra,
    search_ec svc token village party from to w = (w', r)
    ∧ output_file w' = output_file w
    ∧ log w' = log w ++ extra
    ∧ processed extra = [].
Proof.
  unfold search_ec. destruct (negb _).
  { exists w, (inl (Exception "No session token. Please login first.")), [].
    by rewrite app_nil_r. }
  unfold bind, call, logger, modify, ret.
  destruct (generate_captcha svc (remote w)) as [r1 [e|[id img]]]; simpl.
  { eexists _, _, []. by rewrite app_nil_r. }
  destruct (solve_captcha svc img r1) as [r2 [e|code]]; simpl.
  { eexists _, _, []. by rewrite app_nil_r. }
  destruct (NewECSearch svc _ r2) as [r3 [e|resp]]; simpl.
  { eexists _, _, []. by rewrite app_nil_r. }
  destruct (negb _); simpl; by eexists _, _, [_].
Qed.

(** The guarded part of a turn when the search returned records. *)
Lemma turn_body_ok village party from to w w1 results :
  search_ec svc token village party from to w = (w1, inr results) →
  (do results <- search_ec svc token village party from to;
   let results := map (dict_set "_search_village_code" village) results in
   run (if truthy_list results then _append_to_csv results else ret tt);
   ret results) w
  = (saved w1 (map (dict_set "_search_village_code" village) results),
     inr (map (dict_set "_search_village_code" village) results)).
Proof.
  intros E. rewrite (bind_inr _ _ _ _ _ E).
  unfold bind, _append_to_csv, modify, ret, saved.
  destruct (truthy_list _); simpl; [done|by destruct w1].
Qed.


End BatchFacts.

Section BatchClaims.
Import Py DirectApi DirectApiSpec.

End BatchClaims.

Section BatchExamples.
Import Py DirectApi DirectApiSpec.


End BatchExamples.

Section SmartSearchFacts.
Import Py SmartSearch SmartSearchSpec.
Context {B : Type}.
Context (search_village
  : string → string → string → string → B → B * (bool * list Row * string)).
Context (party from to : string).
Implicit Types (w : World B) (st : Locals).




End SmartSearchFacts.

Section SmartSearchClaims.
Import Py SmartSearch SmartSearchSpec.


End SmartSearchClaims.

Section BotFacts.
Import Py Assistant Bot BotSpec.
Context {D : Type} (browser : Browser D).
Implicit Types b : BotState D.

Lemma prompts_app (l1 l2 : list BotEvent) :
  prompts (l1 ++ l2) = (prompts l1 + prompts l2)%nat.
Proof.
  induction l1 as [|ev l1 IH]; [done|].
  destruct ev; simpl; by rewrite ?IH.
Qed.

Lemma keeps_ret {A} (a : A) : keeps_captcha (ret a : M (BotState D) A).
Proof. by intros b saved H. Qed.

Lemma keeps_raise {A} e : keeps_captcha (raise e : M (BotState D) A).
Proof. by intros b saved H. Qed.

Lemma keeps_bind {A C} (c : M (BotState D) A) (k : A → M (BotState D) C) :
  keeps_captcha c → (∀ a, keeps_captcha (k a)) → keeps_captcha (bind c k).
Proof.
  intros Hc Hk b saved H. unfold bind.
  destruct (Hc b saved H) as [H1 H2].
  destruct (c b) as [b1 [e|a]]; simpl in *; [done|].
  destruct (Hk a b1 saved H1) as [H3 H4]. split; [done|congruence].
Qed.

Lemma keeps_try {A} (c : M (BotState D) A) :
  keeps_captcha c → keeps_captcha (try c).
Proof.
  intros Hc b saved H. unfold try.
  destruct (Hc b saved H) as [H1 H2]. by destruct (c b).
Qed.

Lemma keeps_on_driver {A} (op : D → D * (exn + A)) :
  keeps_captcha (on_driver op).
Proof. intros b saved H. unfold on_driver. by destruct (op (driver b)). Qed.

Lemma keeps_note ev :
  ev ≠ PromptSolveCaptcha → keeps_captcha (note ev : M (BotState D) unit).
Proof.
  intros Hev b saved H. unfold note, modify. simpl. split; [done|].
  rewrite prompts_app. destruct ev; simpl; try lia. done.
Qed.

Lemma keeps_set_form_logged :
  keeps_captcha (set_form_logged : M (BotState D) unit).
Proof. by intros b saved H. Qed.

Lemma keeps_get_bind {C} (k : BotState D → M (BotState D) C) :
  (∀ b saved, _captcha_code b = Some saved →
     _captcha_code (k b b).1 = Some saved
     ∧ prompts (events (k b b).1) = prompts (events b)) →
  keeps_captcha (bind get k).
Proof. intros Hk b saved H. unfold bind, get. by apply Hk. Qed.

Lemma keeps_get : keeps_captcha (get : M (BotState D) (BotState D)).
Proof. by intros b saved H. Qed.

Ltac keeps1 :=
  first
    [ apply keeps_ret | apply keeps_raise | apply keeps_get
    | apply keeps_on_driver | apply keeps_set_form_logged
    | apply keeps_note; discriminate
    | apply keeps_try
    | apply keeps_bind; [|intros ?]
    | match goal with
      | |- keeps_captcha (if ?c then _ else _) => destruct c
      | |- keeps_captcha (match ?r with inl _ => _ | inr _ => _ end) =>
          destruct r
      | |- keeps_captcha (match ?o with Some _ => _ | None => _ end) =>
          destruct o
      end ].

Ltac keeps := repeat keeps1.

Lemma keeps_reuse_saved saved : keeps_captcha (reuse_saved browser saved).
Proof. unfold reuse_saved. keeps. Qed.

Lemma keeps_captcha_step : keeps_captcha (captcha_step browser).
Proof.
  unfold captcha_step. apply keeps_get_bind. intros b saved H. rewrite H.
  by apply keeps_reuse_saved.
Qed.

Lemma keeps_search_one_body cfg loc :
  keeps_captcha (search_one_body browser cfg loc).
Proof.
  unfold search_one_body.
  repeat first [ apply keeps_captcha_step | keeps1 ].
Qed.

Lemma search_one_returns cfg loc b :
  ∃ b' rows, search_one browser cfg loc b = (b', inr rows).
Proof.
  unfold search_one, bind, try.
  destruct (search_one_body browser cfg loc b) as [b1 [e|rows]];
    by eexists _, _.
Qed.

Lemma keeps_search_one cfg loc : keeps_captcha (search_one browser cfg loc).
Proof.
  unfold search_one. apply keeps_bind.
  - apply keeps_try, keeps_search_one_body.
  - intros r. keeps.
Qed.

Lemma keeps_search_all cfg total locs : ∀ idx acc,
  keeps_captcha (search_all browser cfg total idx locs acc).
Proof.
  induction locs as [|loc rest IH]; intros idx acc; simpl.
  - apply keeps_ret.
  - apply keeps_bind; [apply keeps_search_one|intros rows].
    apply keeps_bind; [keeps|intros _]. apply IH.
Qed.

Lemma search_all_returns cfg total locs : ∀ idx acc b,
  ∃ b' rows, search_all browser cfg total idx locs acc b = (b', inr rows).
Proof.
  induction locs as [|loc rest IH]; intros idx acc b; simpl.
  - by eexists _, _.
  - destruct (search_one_returns cfg loc b) as (b1 & rows & E).
    rewrite (bind_inr _ _ _ _ _ E).
    destruct (idx <? total).
    + rewrite (bind_inr _ _ b1 _ tt eq_refl). apply IH.
    + rewrite (bind_inr _ _ b1 b1 tt eq_refl). apply IH.
Qed.
End BotFacts.

Section BotClaims.
Import Py Assistant Bot BotSpec.

(** C9, as amended.  Once a CAPTCHA text has been saved, every later
    search types that text again and presses the search button, and the
    text is never renewed: whatever the portal answers, also when it
    rejects the text and the target yields no rows, [search_one] returns
    without asking the operator for a fresh CAPTCHA and leaves
    [_captcha_code] as it was, and so does the rest of the run. *)
Theorem saved_captcha_is_reused_and_never_renewed :
  ∀ {D : Type} (browser : Browser D) (cfg : SearchConfig),
    (∀ (b : BotState D) code d1 d2,
       _captcha_code b = Some (Some code) →
       truthy_str code = true →
       captcha_retype browser code (driver b) = (d1, inr tt) →
       _click_search_button browser d1 = (d2, inr tt) →
       captcha_step browser b
       = (with_events (with_driver b d2)
            [AutoSearching; ReenteredCaptcha code; Wait 4000], inr tt))
    ∧ (∀ loc (b : BotState D) saved,
         _captcha_code b = Some saved →
         ∃ b' rows,
           search_one browser cfg loc b = (b', inr rows)
           ∧ _captcha_code b' = Some saved
           ∧ prompts (events b') = prompts (events b))
    ∧ (∀ total idx locs acc (b : BotState D) saved,
         _captcha_code b = Some saved →
         ∃ b' rows,
           search_all browser cfg total idx locs acc b = (b', inr rows)
           ∧ _captcha_code b' = Some saved
           ∧ prompts (events b') = prompts (events b)).
Proof.
  intros D browser cfg. repeat apply conj.
  - intros b code d1 d2 Hsaved Hcode Hretype Hclick.
    unfold captcha_step, reuse_saved, bind, get, try, on_driver, note,
      modify, ret.
    rewrite Hsaved. simpl. rewrite Hcode. simpl. rewrite Hretype. simpl.
    rewrite Hclick. unfold with_events, with_driver. simpl.
    by rewrite <- !app_assoc.
  - intros loc b saved H.
    destruct (search_one_returns browser cfg loc b) as (b' & rows & E).
    destruct (keeps_search_one browser cfg loc b saved H) as [H1 H2].
    rewrite E in H1, H2. by exists b', rows.
  - intros total idx locs acc b saved H.
    destruct (search_all_returns browser cfg total locs idx acc b)
      as (b' & rows & E).
    destruct (keeps_search_all browser cfg total locs idx acc b saved H)
      as [H1 H2].
    rewrite E in H1, H2. by exists b', rows.
Qed.

(** On the single-use portal, after the first target has been searched
    by hand, the second search returns with the same saved text and
    without a new prompt. *)
Lemma saved_captcha_is_reused_and_never_renewed_witness :
  let cfg := Scenario.config (Some 10) (Some 20) false true true in
  let b1 := (search_one Scenario.single_use_portal cfg
               (Scenario.combo 10 20 30 40 "Mysuru" "Hunsur" "Kasaba" "Alpha")
               Scenario.fresh_bot).1 in
  _captcha_code b1 = Some (Some "X7K2P")
  ∧ ∃ b' rows,
      search_one Scenario.single_use_portal cfg
        (Scenario.combo 10 20 30 41 "Mysuru" "Hunsur" "Kasaba" "Beta") b1
      = (b', inr rows)
      ∧ _captcha_code b' = Some (Some "X7K2P")
      ∧ prompts (events b') = prompts (events b1).
Proof.
  intros cfg b1. split; [reflexivity|].
  destruct (saved_captcha_is_reused_and_never_renewed
              Scenario.single_use_portal cfg) as (_ & H & _).
  exact (H _ b1 (Some "X7K2P") eq_refl).
Defined.

(** C9, as stated, fails.  Three targets on a portal that accepts a
    CAPTCHA text for one submission only.  The operator solves the
    CAPTCHA for the first target, which finds a record.  For the second
    target the saved text is typed again and rejected: the target yields
    no rows, and no fresh CAPTCHA is asked for.  The third target is
    searched with the same rejected text.  The operator is prompted once
    in the whole run. *)
Lemma rejected_captcha_is_not_renewed_counterexample :
  let cfg := Scenario.config (Some 10) (Some 20) false true true in
  let r := run_search_loop Scenario.single_use_portal cfg
             Scenario.three_targets Scenario.fresh_bot in
  r.2 = inr [ {| scraped := [("Doc No", "1234")];
                 row_location :=
                   Scenario.combo 10 20 30 40 "Mysuru" "Hunsur" "Kasaba"
                     "Alpha";
                 row_party_name := "KRISHNAPPA";
                 row_from_date := "2003-01-01";
                 row_to_date := "2026-01-01" |} ]
  ∧ _captcha_code r.1 = Some (Some "X7K2P")
  ∧ prompts (events r.1) = 1%nat
  ∧ events r.1
    = [ Wait 1500; Wait 1500; Wait 1500; Wait 500;
        PromptSolveCaptcha; SavedCaptcha "X7K2P"; FoundResults 1;
        Wait 1000;
        Wait 1500; Wait 1500; Wait 1500; Wait 500;
        AutoSearching; ReenteredCaptcha "X7K2P"; Wait 4000; FoundResults 0;
        Wait 1000;
        Wait 1500; Wait 1500; Wait 1500; Wait 500;
        AutoSearching; ReenteredCaptcha "X7K2P"; Wait 4000; FoundResults 0 ].
Proof. vm_compute. done. Qed.
End BotClaims.

(* ===================================================================== *)
(** * Further properties of the code *)
(* ===================================================================== *)

Section RetryExtras.
Import Py Sqlite Indexer IndexerSpec CrawlSpec.
Context {Net : Type}.


Lemma api_call_loop_counted {R} (post : Net → Net * (exn + list R))
    retries attempts (w : World (Net * nat)) :
  let w' := (api_call_loop (counted post) retries attempts w).1 in
  ((net w).2 ≤ (net w').2 ≤ (net w).2 + length attempts)%nat.
Proof.
  revert w. induction attempts as [|a rest IH]; intros w; simpl.
  - lia.
  - unfold bind, try, request, emit, modify, ret.
    destruct (counted post (net w)) as [[s' c'] r] eqn:E.
    assert (c' = S (net w).2) as ->.
    { unfold counted in E. destruct (post (net w).1). by injection E. }
    destruct r as [e|rows]; simpl; [|lia].
    destruct (a <? retries - 1); simpl; [|lia].
    match goal with
    | |- context [api_call_loop _ _ rest ?w1] => specialize (IH w1)
    end.
    cbv zeta in IH. simpl in IH. lia.
Qed.

(** X1 (api_call).  [api_call] never makes more requests than
    [retries], whatever the service does: with the requests counted in
    the network state, the count grows by at most [retries]. *)
Theorem api_call_request_budget :
  ∀ {R} (post : Net → Net * (exn + list R)) (retries : Z)
    (w : World (Net * nat)),
    let w' := (api_call (counted post) retries w).1 in
    ((net w).2 ≤ (net w').2 ≤ (net w).2 + Z.to_nat retries)%nat.
Proof.
  intros R post retries w. unfold api_call.
  pose proof (api_call_loop_counted post retries (seqZ 0 retries) w) as H.
  by rewrite length_seqZ in H.
Qed.


End RetryExtras.

Section RecoveryExtras.
Import Py Sqlite Indexer IndexerSpec CrawlSpec.
Context {Net : Type}.

Lemma api_call_loop_first_success {R} (post : Net → Net * (exn + list R))
    retries (k : nat) : ∀ a (m : nat) (w : World Net) n' rows,
  0 ≤ a → a + Z.of_nat m = retries → (k < m)%nat →
  all_attempts_fail post k (net w) = true →
  post (after_requests post k (net w)) = (n', inr rows) →
  ∃ w', api_call_loop post retries (seqZ a (Z.of_nat m)) w = (w', inr rows)
        ∧ net w' = n' ∧ db w' = db w.
Proof.
  induction k as [|k IH]; intros a m w n' rows Ha Hsum Hk Hfail Hok.
  - destruct m as [|m]; [lia|]. rewrite seqZ_cons by lia. simpl in *.
    unfold bind, try, request, ret. rewrite Hok. by eexists.
  - destruct m as [|m]; [lia|]. rewrite seqZ_cons by lia. simpl in *.
    unfold bind, try, request, emit, modify, ret.
    destruct (post (net w)) as [s' [e|rows']]; simpl in *; [|done].
    destruct (Z.ltb_spec a (retries - 1)); [|lia]. simpl.
    replace (Z.pred (Z.of_nat (S m))) with (Z.of_nat m) by lia.
    match goal with
    | |- context [api_call_loop _ _ _ ?w1] =>
        destruct (IH (Z.succ a) m w1 n' rows) as (w' & E & Hn & Hdb);
          [lia|lia|lia|done|done|]
    end.
    exists w'. by rewrite E.
Qed.

(** X3 (api_call).  A transient failure is made good by a later
    attempt: when the first [k] requests raise and the next one, still
    within the [retries] attempts, answers with [rows], [api_call]
    returns exactly [rows], and the database is not touched. *)
Theorem api_call_returns_first_answer :
  ∀ {R} (post : Net → Net * (exn + list R)) (retries : Z) (k : nat)
    (w : World Net) n' rows,
    Z.of_nat k < retries →
    all_attempts_fail post k (net w) = true →
    post (after_requests post k (net w)) = (n', inr rows) →
    ∃ w', api_call post retries w = (w', inr rows)
          ∧ net w' = n' ∧ db w' = db w.
Proof.
  intros R post retries k w n' rows Hk Hfail Hok. unfold api_call.
  pose proof (api_call_loop_first_success post retries k 0
                (Z.to_nat retries) w n' rows) as H.
  rewrite Z2Nat.id in H by lia. apply H; [lia|lia|lia|done|done].
Qed.
End RecoveryExtras.

Section LoopFacts.
Import Py.
Context {W : Type}.

(** A loop whose body keeps an invariant of the elements gone through,
    the loop's locals and the world. *)
Lemma for_fold_inv {A St} (I : list A → St → W → Prop) (xs : list A)
    (body : St → A → M W St) :
  (∀ pre acc x w, x ∈ xs → I pre acc w →
     ∃ w' acc', body acc x w = (w', inr acc') ∧ I (pre ++ [x]) acc' w') →
  ∀ pre acc w, I pre acc w →
    ∃ w' acc', for_fold xs body acc w = (w', inr acc')
               ∧ I (pre ++ xs) acc' w'.
Proof.
  induction xs as [|x xs IH]; intros Hbody pre acc w Hw; simpl.
  - exists w, acc. by rewrite app_nil_r.
  - destruct (Hbody pre acc x w) as (w1 & acc1 & E & Hw1);
      [by left|done|].
    rewrite (bind_inr _ _ _ _ _ E).
    replace (pre ++ x :: xs) with ((pre ++ [x]) ++ xs)
      by (by rewrite <- app_assoc).
    apply IH; [|done].
    intros pre0 acc0 y w0 Hy. apply Hbody. by right.
Qed.

(** A loop that appends [h x] to its list for every [x] and marks [x] in
    the world with a mark [P] that later turns keep. *)
Lemma for_fold_collect {A B} (I : W → Prop) (P : A → W → Prop)
    (h : A → list B) (xs : list A) (body : list B → A → M W (list B)) :
  (∀ acc x w, x ∈ xs → I w →
     ∃ w', body acc x w = (w', inr (acc ++ h x)) ∧ I w' ∧ P x w'
           ∧ ∀ y, P y w → P y w') →
  ∀ acc w, I w →
    ∃ w', for_fold xs body acc w = (w', inr (acc ++ (xs ≫= h)))
          ∧ I w' ∧ (∀ x, x ∈ xs → P x w') ∧ (∀ y, P y w → P y w').
Proof.
  induction xs as [|x xs IH]; intros Hbody acc w Hw; simpl.
  - exists w. rewrite app_nil_r. split_and!; try done.
    by intros x ?%elem_of_nil.
  - destruct (Hbody acc x w) as (w1 & E & Hw1 & Hx & Hmono);
      [by left|done|].
    rewrite (bind_inr _ _ _ _ _ E).
    destruct (IH (λ acc0 y w0 Hy,
                    Hbody acc0 y w0 (proj2 (elem_of_cons xs y x) (or_intror Hy)))
                 (acc ++ h x) w1 Hw1) as (w' & E' & Hw' & Hall & Hmono').
    exists w'. rewrite E', <- app_assoc. split_and!; try done.
    + intros y [->|Hy]%elem_of_cons; [by apply Hmono'|by apply Hall].
    + intros y Hy. by apply Hmono', Hmono.
Qed.
End LoopFacts.

Section IntegrityFacts.
Import Py Sqlite Indexer IndexerSpec CrawlSpec.

Lemma grows_refl (d : Db) : grows d d.
Proof. by split_and!. Qed.

Lemma grows_trans (d1 d2 d3 : Db) : grows d1 d2 → grows d2 d3 → grows d1 d3.
Proof.
  intros (A1 & A2 & A3 & A4) (B1 & B2 & B3 & B4).
  split_and!; intros k Hk; auto.
Qed.

Lemma is_Some_insert {K A} `{Countable K} (m : gmap K A) i j x :
  is_Some (m !! j) → is_Some (<[i := x]> m !! j).
Proof.
  intros Hj. destruct (decide (i = j)) as [->|Hne].
  - rewrite lookup_insert_eq. by eexists.
  - by rewrite lookup_insert_ne.
Qed.

Lemma ref_ok_insert_district (d : Db) c r :
  ref_ok d →
  ref_ok {| districts := <[c := r]> (districts d); talukas := talukas d;
            hoblis := hoblis d; villages := villages d;
            metadata := metadata d |}.
Proof.
  intros (A & B & C). split_and!; simpl; try done.
  intros k r0 Hk. apply is_Some_insert. by eapply A.
Qed.

Lemma ref_ok_insert_taluka (d : Db) c r :
  ref_ok d → is_Some (districts d !! taluk_district_code r) →
  ref_ok {| districts := districts d; talukas := <[c := r]> (talukas d);
            hoblis := hoblis d; villages := villages d;
            metadata := metadata d |}.
Proof.
  intros (A & B & C) Hp. split_and!; simpl; try done.
  - intros k r0. destruct (decide (c = k)) as [->|Hne].
    + rewrite lookup_insert_eq. by intros [= <-].
    + rewrite lookup_insert_ne by done. apply A.
  - intros k r0 Hk. apply is_Some_insert. by eapply B.
Qed.

Lemma ref_ok_insert_hobli (d : Db) c r :
  ref_ok d → is_Some (talukas d !! hobli_taluk_code r) →
  ref_ok {| districts := districts d; talukas := talukas d;
            hoblis := <[c := r]> (hoblis d); villages := villages d;
            metadata := metadata d |}.
Proof.
  intros (A & B & C) Hp. split_and!; simpl; try done.
  - intros k r0. destruct (decide (c = k)) as [->|Hne].
    + rewrite lookup_insert_eq. by intros [= <-].
    + rewrite lookup_insert_ne by done. apply B.
  - intros k r0 Hk. apply is_Some_insert. by eapply C.
Qed.

Lemma ref_ok_insert_village (d : Db) key r :
  ref_ok d → is_Some (hoblis d !! key.1.2) →
  ref_ok {| districts := districts d; talukas := talukas d;
            hoblis := hoblis d; villages := <[key := r]> (villages d);
            metadata := metadata d |}.
Proof.
  intros (A & B & C) Hp. split_and!; simpl; try done.
  intros k r0. destruct (decide (key = k)) as [->|Hne].
  - by rewrite lookup_insert_eq.
  - rewrite lookup_insert_ne by done. apply C.
Qed.

Lemma ref_ok_insert_metadata (d : Db) k v :
  ref_ok d →
  ref_ok {| districts := districts d; talukas := talukas d;
            hoblis := hoblis d; villages := villages d;
            metadata := <[k := v]> (metadata d) |}.
Proof. done. Qed.

Lemma grows_insert_district (d : Db) c r :
  grows d {| districts := <[c := r]> (districts d); talukas := talukas d;
             hoblis := hoblis d; villages := villages d;
             metadata := metadata d |}.
Proof. split_and!; simpl; try done. intros k. apply is_Some_insert. Qed.

Lemma grows_insert_taluka (d : Db) c r :
  grows d {| districts := districts d; talukas := <[c := r]> (talukas d);
             hoblis := hoblis d; villages := villages d;
             metadata := metadata d |}.
Proof. split_and!; simpl; try done. intros k. apply is_Some_insert. Qed.

Lemma grows_insert_hobli (d : Db) c r :
  grows d {| districts := districts d; talukas := talukas d;
             hoblis := <[c := r]> (hoblis d); villages := villages d;
             metadata := metadata d |}.
Proof. split_and!; simpl; try done. intros k. apply is_Some_insert. Qed.

Lemma grows_insert_village (d : Db) key r :
  grows d {| districts := districts d; talukas := talukas d;
             hoblis := hoblis d; villages := <[key := r]> (villages d);
             metadata := metadata d |}.
Proof. split_and!; simpl; try done. intros k. apply is_Some_insert. Qed.

Context {Net : Type} (api : Remote Net).
Implicit Types w : World Net.

Lemma api_call_keeps_db {R} (post : Net → Net * (exn + list R)) retries w :
  ∃ w1 data, api_call post retries w = (w1, inr data) ∧ db w1 = db w.
Proof.
  destruct (api_call_loop_returns post retries (seqZ 0 retries) w)
    as (w1 & data & E & Hdb & _).
  by exists w1, data.
Qed.


Lemma bind_skip_dummy (data : list DistrictJson) :
  data ≫= (λ d, if districtCode d =? 0 then [] else [district_out d])
  = district_out <$> filter (λ d, districtCode d ≠ 0) data.
Proof.
  induction data as [|d data IH]; [done|].
  change ((d :: data) ≫= ?f) with (f d ++ (data ≫= f)). rewrite IH.
  destruct (Z.eqb_spec (districtCode d) 0) as [Hz|Hnz].
  - by rewrite filter_cons_False by (by intros ?).
  - by rewrite filter_cons_True by done.
Qed.

Lemma bind_singleton {A B} (f : A → B) (xs : list A) :
  xs ≫= (λ x, [f x]) = f <$> xs.
Proof.
  induction xs as [|x xs IH]; [done|].
  change ((x :: xs) ≫= ?g) with (g x ++ (xs ≫= g)). by rewrite IH.
Qed.

(** *** fetch_districts *)
Lemma fetch_districts_spec w w1 data :
  api_call (GetDistrictAsync api) 3 w = (w1, inr data) →
  ∃ w', fetch_districts api connect w
        = (w', inr (district_out <$>
                      filter (λ d, districtCode d ≠ 0) data))
        ∧ (ref_ok (db w) → ref_ok (db w'))
        ∧ grows (db w) (db w')
        ∧ districts (db w') !! 0 = districts (db w) !! 0
        ∧ (∀ d, d ∈ data → districtCode d ≠ 0 →
                is_Some (districts (db w') !! districtCode d)).
Proof.
  intros E. unfold fetch_districts. rewrite (bind_inr _ _ _ _ _ E).
  destruct (api_call_keeps_db (GetDistrictAsync api) 3 w)
    as (w1' & data' & E' & Hdb).
  rewrite E in E'. injection E' as <- <-.
  destruct (truthy_list data) eqn:Ht; simpl; cycle 1.
  { assert (data = []) as -> by (by destruct data).
    eexists. split; [reflexivity|]. simpl. rewrite Hdb.
    split_and!;
      first [done | apply grows_refl | by intros ? ?%elem_of_nil]. }
  edestruct (for_fold_collect
    (λ w', (ref_ok (db w) → ref_ok (db w')) ∧ grows (db w) (db w')
           ∧ districts (db w') !! 0 = districts (db w) !! 0)
    (λ d w', districtCode d ≠ 0 →
             is_Some (districts (db w') !! districtCode d))
    (λ d, if districtCode d =? 0 then [] else [district_out d])
    data) with (acc := @nil DistrictOut) (w := w1)
    as (w2 & E2 & (Hok & Hg & Hz) & Hall & _); cycle 2.
  - rewrite (bind_inr _ _ _ _ _ E2). simpl.
    rewrite bind_skip_dummy. eexists. split; [reflexivity|]. by simpl.
  - intros acc d w0 _ (Hok & Hg & Hz).
    destruct (Z.eqb_spec (districtCode d) 0) as [Hd|Hd].
    + exists w0. rewrite app_nil_r. by split_and!.
    + eexists. split; [reflexivity|]. simpl. split_and!.
      * intros H. by apply ref_ok_insert_district, Hok.
      * eapply grows_trans; [exact Hg|apply grows_insert_district].
      * by rewrite lookup_insert_ne.
      * intros _. rewrite lookup_insert_eq. by eexists.
      * intros y Hy Hny. apply is_Some_insert. by apply Hy.
  - rewrite Hdb. split_and!; first [done | apply grows_refl].
Qed.

(** *** fetch_talukas, fetch_hoblis, fetch_villages *)
Lemma fetch_talukas_spec code w :
  ∃ w' data, fetch_talukas api connect code w
             = (w', inr (taluka_out code <$> data))
    ∧ (ref_ok (db w) → is_Some (districts (db w) !! code) →
       ref_ok (db w'))
    ∧ grows (db w) (db w')
    ∧ (∀ t, t ∈ data →
         ∃ r, talukas (db w') !! talukCode t = Some r
              ∧ taluk_district_code r = code).
Proof.
  unfold fetch_talukas.
  destruct (api_call_keeps_db (GetTalukaAsync api code) 3 w)
    as (w1 & data & E & Hdb).
  rewrite (bind_inr _ _ _ _ _ E).
  destruct (truthy_list data) eqn:Ht; simpl; cycle 1.
  { assert (data = []) as -> by (by destruct data).
    exists w1, []. rewrite Hdb.
    split_and!;
      first [done | apply grows_refl | by intros ? ?%elem_of_nil]. }
  edestruct (for_fold_collect
    (λ w', (ref_ok (db w) → is_Some (districts (db w) !! code) →
            ref_ok (db w')) ∧ grows (db w) (db w'))
    (λ t w', ∃ r, talukas (db w') !! talukCode t = Some r
                  ∧ taluk_district_code r = code)
    (λ t, [taluka_out code t])
    data) with (acc := @nil TalukaOut) (w := w1)
    as (w2 & E2 & (Hok & Hg) & Hall & _); cycle 2.
  - exists w2, data. rewrite E2, bind_singleton. by split_and!.
  - intros acc t w0 _ (Hok & Hg).
    eexists. split; [reflexivity|]. simpl. split_and!.
    + intros H Hp. apply ref_ok_insert_taluka; [by apply Hok|].
      simpl. by apply Hg.
    + eapply grows_trans; [exact Hg|apply grows_insert_taluka].
    + rewrite lookup_insert_eq. by eexists.
    + intros y (r & Hr & Hc).
      destruct (decide (talukCode t = talukCode y)) as [->|Hne].
      * rewrite lookup_insert_eq. by eexists.
      * rewrite lookup_insert_ne by done. by exists r.
  - rewrite Hdb. split_and!; first [done | apply grows_refl].
Qed.

Lemma fetch_hoblis_spec code w :
  ∃ w' data, fetch_hoblis api connect code w
             = (w', inr (hobli_out code <$> data))
    ∧ (ref_ok (db w) → is_Some (talukas (db w) !! code) →
       ref_ok (db w'))
    ∧ grows (db w) (db w')
    ∧ (∀ h, h ∈ data →
         ∃ r, hoblis (db w') !! hoblicode h = Some r
              ∧ hobli_taluk_code r = code).
Proof.
  unfold fetch_hoblis.
  destruct (api_call_keeps_db (GetHobliAsync api code) 3 w)
    as (w1 & data & E & Hdb).
  rewrite (bind_inr _ _ _ _ _ E).
  destruct (truthy_list data) eqn:Ht; simpl; cycle 1.
  { assert (data = []) as -> by (by destruct data).
    exists w1, []. rewrite Hdb.
    split_and!;
      first [done | apply grows_refl | by intros ? ?%elem_of_nil]. }
  edestruct (for_fold_collect
    (λ w', (ref_ok (db w) → is_Some (talukas (db w) !! code) →
            ref_ok (db w')) ∧ grows (db w) (db w'))
    (λ h w', ∃ r, hoblis (db w') !! hoblicode h = Some r
                  ∧ hobli_taluk_code r = code)
    (λ h, [hobli_out code h])
    data) with (acc := @nil HobliOut) (w := w1)
    as (w2 & E2 & (Hok & Hg) & Hall & _); cycle 2.
  - exists w2, data. rewrite E2, bind_singleton. by split_and!.
  - intros acc h w0 _ (Hok & Hg).
    eexists. split; [reflexivity|]. simpl. split_and!.
    + intros H Hp. apply ref_ok_insert_hobli; [by apply Hok|].
      simpl. by apply Hg.
    + eapply grows_trans; [exact Hg|apply grows_insert_hobli].
    + rewrite lookup_insert_eq. by eexists.
    + intros y (r & Hr & Hc).
      destruct (decide (hoblicode h = hoblicode y)) as [->|Hne].
      * rewrite lookup_insert_eq. by eexists.
      * rewrite lookup_insert_ne by done. by exists r.
  - rewrite Hdb. split_and!; first [done | apply grows_refl].
Qed.

Lemma fetch_villages_spec code w :
  ∃ w' data, fetch_villages api connect code w
             = (w', inr (village_out code <$> data))
    ∧ (ref_ok (db w) → is_Some (hoblis (db w) !! code) →
       ref_ok (db w'))
    ∧ grows (db w) (db w')
    ∧ (∀ v, v ∈ data →
         is_Some (villages (db w')
                    !! (villagecode v, code, get_int (ulbcode v)))).
Proof.
  unfold fetch_villages.
  destruct (api_call_keeps_db (GetVillageAsync api code) 3 w)
    as (w1 & data & E & Hdb).
  rewrite (bind_inr _ _ _ _ _ E).
  destruct (truthy_list data) eqn:Ht; simpl; cycle 1.
  { assert (data = []) as -> by (by destruct data).
    exists w1, []. rewrite Hdb.
    split_and!;
      first [done | apply grows_refl | by intros ? ?%elem_of_nil]. }
  edestruct (for_fold_collect
    (λ w', (ref_ok (db w) → is_Some (hoblis (db w) !! code) →
            ref_ok (db w')) ∧ grows (db w) (db w'))
    (λ v w', is_Some (villages (db w')
                        !! (villagecode v, code, get_int (ulbcode v))))
    (λ v, [village_out code v])
    data) with (acc := @nil VillageOut) (w := w1)
    as (w2 & E2 & (Hok & Hg) & Hall & _); cycle 2.
  - exists w2, data. rewrite E2, bind_singleton. by split_and!.
  - intros acc v w0 _ (Hok & Hg).
    eexists. split; [reflexivity|]. simpl. split_and!.
    + intros H Hp. apply ref_ok_insert_village; [by apply Hok|].
      simpl. by apply Hg.
    + eapply grows_trans; [exact Hg|apply grows_insert_village].
    + rewrite lookup_insert_eq. by eexists.
    + intros y Hy. by apply is_Some_insert.
  - rewrite Hdb. split_and!; first [done | apply grows_refl].
Qed.

(** *** The three nested loops of index_all *)
Lemma count_snoc {A} (f : A → Z) (l : list A) (x : A) :
  foldr (λ a n, f a + n) 0 (l ++ [x]) = foldr (λ a n, f a + n) 0 l + f x.
Proof. induction l as [|a l IH]; simpl; lia. Qed.

Lemma crawl_hobli_spec acc h w :
  ∃ w' vs,
    crawl_hobli api connect acc h w
    = (w', inr (acc.1 + len vs, acc.2 ++ [(h_code h, h_name h, vs)]))
    ∧ (ref_ok (db w) → is_Some (hoblis (db w) !! h_code h) →
       ref_ok (db w'))
    ∧ grows (db w) (db w').
Proof.
  unfold crawl_hobli.
  destruct (fetch_villages_spec (h_code h) w)
    as (w1 & data & E & Hok & Hg & _).
  rewrite (bind_inr _ _ _ _ _ E).
  eexists _, _. split; [reflexivity|]. by simpl.
Qed.

Lemma crawl_taluka_spec acc t w :
  ∃ w' hd,
    crawl_taluka api connect acc t w
    = (w', inr (acc.1.1 + len hd, acc.1.2 + villages_under hd,
                acc.2 ++ [(t_code t, t_name t, hd)]))
    ∧ (ref_ok (db w) → is_Some (talukas (db w) !! t_code t) →
       ref_ok (db w'))
    ∧ grows (db w) (db w').
Proof.
  unfold crawl_taluka.
  destruct (fetch_hoblis_spec (t_code t) w)
    as (w1 & data & E & Hok & Hg & Hall).
  rewrite (bind_inr _ _ _ _ _ E).
  edestruct (for_fold_inv
    (λ pre (a : Z * list HobliData) w',
       a.1 = acc.1.2 + villages_under a.2 ∧ length a.2 = length pre
       ∧ (ref_ok (db w1) → ref_ok (db w')) ∧ grows (db w1) (db w'))
    (hobli_out (t_code t) <$> data) (crawl_hobli api connect))
    with (pre := @nil HobliOut) (acc := (acc.1.2, @nil HobliData))
         (w := w1)
    as (w2 & [nv hd] & E2 & Hnv & Hlen & Hok2 & Hg2); cycle 2.
  - rewrite (bind_inr _ _ _ _ _ E2). simpl in *.
    exists w2, hd. split_and!.
    + unfold len. by rewrite Hlen, Hnv.
    + intros H Hp. by apply Hok2, Hok.
    + by eapply grows_trans.
  - intros pre [nv hd] x w0 Hx (Hnv & Hlen & Hok0 & Hg0). simpl in *.
    destruct (crawl_hobli_spec (nv, hd) x w0)
      as (w' & vs & E' & Hok' & Hg').
    eexists _, _. split; [exact E'|]. simpl. split_and!.
    + unfold villages_under in *. rewrite count_snoc. simpl. lia.
    + rewrite !length_app. simpl. lia.
    + intros H. apply Hok'; [by apply Hok0|].
      apply list_elem_of_fmap in Hx as (h & -> & Hh).
      destruct (Hall h Hh) as (r & Hr & _).
      destruct Hg0 as (_ & _ & G & _). apply G. simpl. by eexists.
    + by eapply grows_trans.
  - simpl. split_and!; first [done | apply grows_refl | unfold villages_under; simpl; lia].
Qed.

Lemma crawl_district_spec acc d w :
  ∃ w' td,
    crawl_district api connect acc d w
    = (w', inr ({| st_districts := st_districts acc.1;
                   st_talukas := st_talukas acc.1 + len td;
                   st_hoblis := st_hoblis acc.1 + hoblis_under td;
                   st_villages :=
                     st_villages acc.1 + villages_under_talukas td |},
                acc.2 ++ [(d_code d, d_name d, td)]))
    ∧ (ref_ok (db w) → is_Some (districts (db w) !! d_code d) →
       ref_ok (db w'))
    ∧ grows (db w) (db w').
Proof.
  unfold crawl_district.
  destruct (fetch_talukas_spec (d_code d) w)
    as (w1 & data & E & Hok & Hg & Hall).
  rewrite (bind_inr _ _ _ _ _ E).
  edestruct (for_fold_inv
    (λ pre (a : Z * Z * list TalukaData) w',
       a.1.1 = st_hoblis acc.1 + hoblis_under a.2
       ∧ a.1.2 = st_villages acc.1 + villages_under_talukas a.2
       ∧ length a.2 = length pre
       ∧ (ref_ok (db w1) → ref_ok (db w')) ∧ grows (db w1) (db w'))
    (taluka_out (d_code d) <$> data) (crawl_taluka api connect))
    with (pre := @nil TalukaOut)
         (acc := (st_hoblis acc.1, st_villages acc.1, @nil TalukaData))
         (w := w1)
    as (w2 & [[nh nv] td] & E2 & Hnh & Hnv & Hlen & Hok2 & Hg2); cycle 2.
  - rewrite (bind_inr _ _ _ _ _ E2). simpl in *.
    exists w2, td. split_and!.
    + unfold len. by rewrite Hlen, Hnh, Hnv.
    + intros H Hp. by apply Hok2, Hok.
    + by eapply grows_trans.
  - intros pre [[nh nv] td] x w0 Hx (Hnh & Hnv & Hlen & Hok0 & Hg0).
    simpl in *.
    destruct (crawl_taluka_spec (nh, nv, td) x w0)
      as (w' & hd & E' & Hok' & Hg').
    eexists _, _. split; [exact E'|]. simpl. split_and!.
    + unfold hoblis_under in *. rewrite count_snoc. simpl. lia.
    + unfold villages_under_talukas in *. rewrite count_snoc. simpl. lia.
    + rewrite !length_app. simpl. lia.
    + intros H. apply Hok'; [by apply Hok0|].
      apply list_elem_of_fmap in Hx as (t & -> & Ht).
      destruct (Hall t Ht) as (r & Hr & _).
      destruct Hg0 as (_ & G & _). apply G. simpl. by eexists.
    + by eapply grows_trans.
  - simpl. split_and!;
      first [done | apply grows_refl
            | unfold hoblis_under, villages_under_talukas; simpl; lia].
Qed.

Lemma index_all_spec now sd w :
  ∃ w' stats h,
    index_all api now sd w = (w', inr stats)
    ∧ json_export w' = Some (stats, h)
    ∧ metadata (db w') !! "stats" = Some (MetaStats stats)
    ∧ st_talukas stats = talukas_in h
    ∧ st_hoblis stats = hoblis_in h
    ∧ st_villages stats = villages_in h
    ∧ len h ≤ st_districts stats
    ∧ Forall (λ e : DistrictData, e.1.1 ≠ 0 ∧ wanted sd e.1.1) h
    ∧ (ref_ok (db w) → ref_ok (db w'))
    ∧ grows (db w) (db w').
Proof.
  unfold index_all, setup_database.
  rewrite (bind_inr _ _ w w connect eq_refl).
  destruct (api_call_keeps_db (GetDistrictAsync api) 3 w)
    as (w0 & data & Eapi & _).
  destruct (fetch_districts_spec w w0 data Eapi)
    as (w1 & E & Hok & Hg & _ & Hall).
  rewrite (bind_inr _ _ _ _ _ E). cbv zeta.
  set (all := district_out <$> filter (λ d, districtCode d ≠ 0) data).
  set (chosen := match sd with
                 | Some c => if truthy_int c
                             then filter (λ d, d_code d = c) all
                             else all
                 | None => all
                 end).
  assert (∀ x, x ∈ chosen → x ∈ all ∧ wanted sd (d_code x)) as Hsub.
  { intros x. unfold chosen, wanted. destruct sd as [c|]; [|done].
    unfold truthy_int. destruct (Z.eqb_spec c 0); simpl.
    - intros ?. split; [done|by left].
    - intros (? & ?)%list_elem_of_filter. split; [done|by right]. }
  assert (len chosen ≤ len all) as Hlen.
  { unfold chosen, len. destruct sd as [c|]; [|done].
    destruct (truthy_int c); [|done].
    apply inj_le, length_filter. }
  edestruct (for_fold_inv
    (λ pre (a : Stats * list DistrictData) w',
       st_districts a.1 = len all
       ∧ st_talukas a.1 = talukas_in a.2
       ∧ st_hoblis a.1 = hoblis_in a.2
       ∧ st_villages a.1 = villages_in a.2
       ∧ (λ e : DistrictData, e.1.1) <$> a.2 = d_code <$> pre
       ∧ (ref_ok (db w1) → ref_ok (db w')) ∧ grows (db w1) (db w'))
    chosen (crawl_district api connect))
    with (pre := @nil DistrictOut)
         (acc := ({| st_districts := len all; st_talukas := 0;
                     st_hoblis := 0; st_villages := 0 |},
                  @nil DistrictData))
         (w := w1)
    as (w2 & [stats h] & E2 & Hd & Ht & Hh & Hv & Hcodes & Hok2 & Hg2);
    cycle 2.
  - rewrite (bind_inr _ _ _ _ _ E2). simpl in *.
    eexists _, stats, h. split; [reflexivity|]. simpl. split_and!; try done.
    + by rewrite lookup_insert_eq.
    + rewrite Hd. etrans; [|exact Hlen]. unfold len.
      apply inj_le. apply (f_equal length) in Hcodes.
      rewrite !length_fmap in Hcodes. lia.
    + apply Forall_forall. intros e He.
      assert (e.1.1 ∈ d_code <$> chosen) as Hin.
      { rewrite <- Hcodes. apply list_elem_of_fmap. by exists e. }
      apply list_elem_of_fmap in Hin as (x & -> & Hx).
      destruct (Hsub x Hx) as (Hx' & Hw). split; [|done].
      apply list_elem_of_fmap in Hx' as (dj & -> & Hdj).
      by apply list_elem_of_filter in Hdj as (? & ?).
    + intros H. by apply Hok2, Hok.
    + by eapply grows_trans.
  - intros pre [st hy] x w3 Hx (Hd & Ht & Hh & Hv & Hcodes & Hok0 & Hg0).
    simpl in *.
    destruct (crawl_district_spec (st, hy) x w3)
      as (w' & td & E' & Hok' & Hg').
    eexists _, _. split; [exact E'|]. simpl. split_and!; try done.
    + unfold talukas_in in *. rewrite count_snoc. simpl. lia.
    + unfold hoblis_in in *. rewrite count_snoc. simpl. lia.
    + unfold villages_in in *. rewrite count_snoc. simpl. lia.
    + by rewrite !fmap_app, Hcodes.
    + intros H. apply Hok'; [by apply Hok0|].
      destruct (Hsub x Hx) as (Hx' & _).
      apply list_elem_of_fmap in Hx' as (dj & -> & Hdj).
      apply list_elem_of_filter in Hdj as (Hnz & Hdj).
      destruct Hg0 as (G & _). apply G. simpl. by apply Hall.
    + by eapply grows_trans.
  - simpl. split_and!; first [done | apply grows_refl].
Qed.
End IntegrityFacts.

Section CrawlExtras.
Import Py Sqlite Indexer IndexerSpec CrawlSpec.
Context {Net : Type} (api : Remote Net).
Implicit Types w : World Net.

(** X4 (fetch_districts).  Whatever list [data] the districts call
    brings back, [fetch_districts] returns one record for every entry
    with a non-zero code, in the order of the answer; the placeholder
    entries (code 0) are left out and no row is written under key 0;
    every district returned is in the districts table afterwards. *)
Theorem fetch_districts_skips_placeholder :
  ∀ w w1 (data : list DistrictJson),
    api_call (GetDistrictAsync api) 3 w = (w1, inr data) →
    ∃ w',
      fetch_districts api connect w
      = (w', inr (district_out <$>
                    filter (λ d, districtCode d ≠ 0) data))
      ∧ districts (db w') !! 0 = districts (db w) !! 0
      ∧ Forall (λ d, districtCode d ≠ 0
                     ∧ is_Some (districts (db w') !! districtCode d))
               (filter (λ d, districtCode d ≠ 0) data).
Proof.
  intros w w1 data E.
  destruct (fetch_districts_spec api w w1 data E)
    as (w' & E' & _ & _ & Hz & Hall).
  exists w'. split_and!; [done|done|].
  apply Forall_forall. intros d (Hnz & Hd)%list_elem_of_filter.
  split; [done|by apply Hall].
Qed.



(** X7 (index_all).  The counts [index_all] returns are the ones it
    stores in the metadata table and exports, and they agree with the
    exported hierarchy: as many talukas, hoblis and villages as the
    hierarchy lists.  The district count is taken before the
    [specific_district] filter, so it bounds the number of exported
    districts from above and need not equal it; no exported district has
    code 0 or a code the filter excludes. *)
Theorem index_all_counts_match_export :
  ∀ (now : string) (specific_district : option Z) w,
    ∃ w' stats hierarchy,
      index_all api now specific_district w = (w', inr stats)
      ∧ json_export w' = Some (stats, hierarchy)
      ∧ metadata (db w') !! "stats" = Some (MetaStats stats)
      ∧ st_talukas stats = talukas_in hierarchy
      ∧ st_hoblis stats = hoblis_in hierarchy
      ∧ st_villages stats = villages_in hierarchy
      ∧ len hierarchy ≤ st_districts stats
      ∧ Forall (λ e : DistrictData,
                  e.1.1 ≠ 0 ∧ wanted specific_district e.1.1) hierarchy.
Proof.
  intros now sd w.
  destruct (index_all_spec api now sd w)
    as (w' & stats & h & E & Hj & Hm & Ht & Hh & Hv & Hd & Hall & _).
  by exists w', stats, h.
Qed.
End CrawlExtras.

Section CrawlExtrasWitnesses.
Import Py Sqlite Indexer IndexerSpec CrawlSpec Scenario CrawlScenario.


Lemma api_call_returns_first_answer_witness :
  Z.of_nat 1 < 3
  ∧ ∃ w', api_call (GetDistrictAsync flaky) 3 (fresh_indexer 0%nat)
          = (w', inr [district 0 "Select"; district 10 "Mysuru";
                      district 11 "Bagalkot"])
          ∧ net w' = 2%nat ∧ db w' = db (fresh_indexer 0%nat).
Proof.
  split; [lia|].
  apply (api_call_returns_first_answer (GetDistrictAsync flaky) 3 1
           (fresh_indexer 0%nat)); [lia|reflexivity|reflexivity].
Defined.

Lemma fetch_districts_skips_placeholder_witness :
  ∃ w',
    fetch_districts flaky connect (fresh_indexer 0%nat)
    = (w', inr [district_out (district 10 "Mysuru");
                district_out (district 11 "Bagalkot")])
    ∧ districts (db w') !! 0 = None
    ∧ Forall (λ d, districtCode d ≠ 0
                   ∧ is_Some (districts (db w') !! districtCode d))
             [district 10 "Mysuru"; district 11 "Bagalkot"].
Proof.
  apply (fetch_districts_skips_placeholder flaky (fresh_indexer 0%nat)
           (api_call (GetDistrictAsync flaky) 3 (fresh_indexer 0%nat)).1
           [district 0 "Select"; district 10 "Mysuru";
            district 11 "Bagalkot"]).
  vm_compute. reflexivity.
Defined.

End CrawlExtrasWitnesses.

Section WriteFacts.
Import Py.
Context {W : Type}.

(** A loop run for its effects whose body keeps an invariant of the
    elements gone through and the world. *)
Lemma for_each_inv {A} (I : list A → W → Prop) (xs : list A)
    (body : A → M W unit) :
  (∀ pre x w, x ∈ xs → I pre w →
     ∃ w', body x w = (w', inr tt) ∧ I (pre ++ [x]) w') →
  ∀ pre w, I pre w →
    ∃ w', for_each xs body w = (w', inr tt) ∧ I (pre ++ xs) w'.
Proof.
  induction xs as [|x xs IH]; intros Hbody pre w Hw; simpl.
  - exists w. by rewrite app_nil_r.
  - destruct (Hbody pre x w) as (w1 & E & Hw1); [by left|done|].
    rewrite (bind_inr _ _ _ _ _ E).
    replace (pre ++ x :: xs) with ((pre ++ [x]) ++ xs)
      by (by rewrite <- app_assoc).
    apply IH; [|done].
    intros pre0 y w0 Hy. apply Hbody. by right.
Qed.
End WriteFacts.

Section StoreFacts.
Import Py Sqlite Assistant AssistantSpec StoreSpec.

Lemma last_with_snoc {A} (key : A → Z) (pre : list A) (x : A) (c : Z)
    (m : gmap Z A) :
  m !! c = last_with key c pre →
  <[key x := x]> m !! c = last_with key c (pre ++ [x]).
Proof.
  unfold last_with. intros Hm. rewrite filter_app.
  destruct (decide (key x = c)) as [<-|Hne].
  - rewrite lookup_insert_eq. rewrite (filter_cons_True _ x []) by done.
    rewrite filter_nil. by rewrite last_snoc.
  - rewrite lookup_insert_ne by done.
    rewrite (filter_cons_False _ x []) by done.
    by rewrite filter_nil, app_nil_r.
Qed.

Lemma last_with_Some {A} (key : A → Z) (rows : list A) c r :
  last_with key c rows = Some r → r ∈ rows ∧ key r = c.
Proof.
  unfold last_with. intros H.
  assert (r ∈ filter (λ r, key r = c) rows) as Hin.
  { apply last_Some in H as (l' & ->). apply elem_of_app. right.
    by left. }
  apply list_elem_of_filter in Hin as (? & ?). done.
Qed.

Lemma last_with_is_Some {A} (key : A → Z) (rows : list A) r :
  r ∈ rows → is_Some (last_with key (key r) rows).
Proof.
  unfold last_with. intros Hr.
  assert (r ∈ filter (λ r0, key r0 = key r) rows) as Hin
    by (by apply list_elem_of_filter).
  destruct (filter _ rows) as [|a l] eqn:E using rev_ind.
  - by apply elem_of_nil in Hin.
  - rewrite last_snoc. by eexists.
Qed.

Context {Net : Type} (api : Remote Net).
Implicit Types w : World Net.

(** What [_write_sqlite] leaves alone. *)
Lemma write_sqlite_tables data w :
  ∃ w', _write_sqlite data w = (w', inr tt)
    ∧ net w' = net w ∧ log w' = log w ∧ json_file w' = json_file w
    ∧ (∀ c, tbl_districts (db w') !! c
            = last_with districtCode c (data_districts data))
    ∧ (∀ c, tbl_talukas (db w') !! c
            = last_with (λ r, talukCode r.1) c (data_talukas data))
    ∧ (∀ c, tbl_hoblis (db w') !! c
            = last_with (λ r, hoblicode r.1) c (data_hoblis data))
    ∧ (∀ c, tbl_villages (db w') !! c
            = last_with (λ r, villagecode r.1) c (data_villages data))
    ∧ (∀ c, tbl_property_types (db w') !! c
            = last_with propertytypeid c (data_property_types data)).
Proof.
  unfold _write_sqlite.
  rewrite (bind_inr _ _ w _ tt eq_refl).
  set (same := λ w' : World Net,
         net w' = net w ∧ log w' = log w ∧ json_file w' = json_file w).
  match goal with |- ∃ w', _ ?w0 = _ ∧ _ => set (ws := w0) end.
  edestruct (for_each_inv
    (λ pre (w' : World Net),
       same w'
       ∧ (∀ c, tbl_districts (db w') !! c = last_with districtCode c pre)
       ∧ tbl_talukas (db w') = ∅ ∧ tbl_hoblis (db w') = ∅
       ∧ tbl_villages (db w') = ∅ ∧ tbl_property_types (db w') = ∅)
    (data_districts data) (insert_district connect))
    with (pre := @nil DistrictJson) (w := ws)
    as (w1 & E1 & S1 & D1 & T1 & H1 & V1 & P1);
    [ intros pre x w0 _ (S0 & D0 & T0 & H0 & V0 & P0);
      eexists; split; [reflexivity|]; simpl; split_and!; try done;
      intros c; by apply last_with_snoc
    | by split_and! | ].
  rewrite (bind_inr _ _ _ _ _ E1). simpl in D1.
  edestruct (for_each_inv
    (λ pre (w' : World Net),
       same w'
       ∧ tbl_districts (db w') = tbl_districts (db w1)
       ∧ (∀ c, tbl_talukas (db w') !! c
               = last_with (λ r, talukCode r.1) c pre)
       ∧ tbl_hoblis (db w') = ∅
       ∧ tbl_villages (db w') = ∅ ∧ tbl_property_types (db w') = ∅)
    (data_talukas data) (insert_taluka connect))
    with (pre := @nil TalukaRec) (w := w1)
    as (w2 & E2 & S2 & D2 & T2 & H2 & V2 & P2);
    [ intros pre x w0 _ (S0 & D0 & T0 & H0 & V0 & P0);
      eexists; split; [reflexivity|]; simpl; split_and!; try done;
      intros c;
      by apply (last_with_snoc (λ r : TalukaRec, talukCode r.1))
    | split_and!; try done; intros c; by rewrite T1 | ].
  rewrite (bind_inr _ _ _ _ _ E2). simpl in T2.
  edestruct (for_each_inv
    (λ pre (w' : World Net),
       same w'
       ∧ tbl_districts (db w') = tbl_districts (db w1)
       ∧ tbl_talukas (db w') = tbl_talukas (db w2)
       ∧ (∀ c, tbl_hoblis (db w') !! c
               = last_with (λ r, hoblicode r.1) c pre)
       ∧ tbl_villages (db w') = ∅ ∧ tbl_property_types (db w') = ∅)
    (data_hoblis data) (insert_hobli connect))
    with (pre := @nil HobliRec) (w := w2)
    as (w3 & E3 & S3 & D3 & T3 & H3 & V3 & P3);
    [ intros pre x w0 _ (S0 & D0 & T0 & H0 & V0 & P0);
      eexists; split; [reflexivity|]; simpl; split_and!; try done;
      intros c;
      by apply (last_with_snoc (λ r : HobliRec, hoblicode r.1))
    | split_and!; try done; intros c; by rewrite H2 | ].
  rewrite (bind_inr _ _ _ _ _ E3). simpl in H3.
  edestruct (for_each_inv
    (λ pre (w' : World Net),
       same w'
       ∧ tbl_districts (db w') = tbl_districts (db w1)
       ∧ tbl_talukas (db w') = tbl_talukas (db w2)
       ∧ tbl_hoblis (db w') = tbl_hoblis (db w3)
       ∧ (∀ c, tbl_villages (db w') !! c
               = last_with (λ r, villagecode r.1) c pre)
       ∧ tbl_property_types (db w') = ∅)
    (data_villages data) (insert_village connect))
    with (pre := @nil VillageRec) (w := w3)
    as (w4 & E4 & S4 & D4 & T4 & H4 & V4 & P4);
    [ intros pre x w0 _ (S0 & D0 & T0 & H0 & V0 & P0);
      eexists; split; [reflexivity|]; simpl; split_and!; try done;
      intros c;
      by apply (last_with_snoc (λ r : VillageRec, villagecode r.1))
    | split_and!; try done; intros c; by rewrite V3 | ].
  rewrite (bind_inr _ _ _ _ _ E4). simpl in V4.
  destruct (data_property_types data) as [|p ps] eqn:Ep.
  { simpl. exists w4. destruct S4 as (? & ? & ?).
    split_and!; try done.
    - intros c. by rewrite D4.
    - intros c. by rewrite T4.
    - intros c. by rewrite H4.
    - intros c. by rewrite P4. }
  cbn [truthy_list]. rewrite <- Ep.
  edestruct (for_each_inv
    (λ pre (w' : World Net),
       same w'
       ∧ tbl_districts (db w') = tbl_districts (db w1)
       ∧ tbl_talukas (db w') = tbl_talukas (db w2)
       ∧ tbl_hoblis (db w') = tbl_hoblis (db w3)
       ∧ tbl_villages (db w') = tbl_villages (db w4)
       ∧ (∀ c, tbl_property_types (db w') !! c
               = last_with propertytypeid c pre))
    (data_property_types data) (insert_property_type connect))
    with (pre := @nil PropertyTypeJson) (w := w4)
    as (w5 & E5 & S5 & D5 & T5 & H5 & V5 & P5);
    [ intros pre x w0 _ (S0 & D0 & T0 & H0 & V0 & P0);
      eexists; split; [reflexivity|]; simpl; split_and!; try done;
      intros c; by apply last_with_snoc
    | split_and!; try done; intros c; by rewrite P4 | ].
  simpl in P5. rewrite Ep in *. rewrite E5.
  exists w5. destruct S5 as (? & ? & ?). split_and!; try done.
  - intros c. by rewrite D5.
  - intros c. by rewrite T5.
  - intros c. by rewrite H5.
  - intros c. by rewrite V5.
Qed.

(** *** The three loops of build_location_hierarchy *)
Lemma talukas_loop (ds : list DistrictJson) w :
  ∃ w' ts, for_fold ds (fetch_talukas_of api) [] w = (w', inr ts)
    ∧ db w' = db w ∧ json_file w' = json_file w
    ∧ ∀ r, r ∈ ts → r.2 ∈ districtCode <$> ds.
Proof.
  edestruct (for_fold_inv
    (λ (pre : list DistrictJson) (acc : list TalukaRec) (w' : World Net),
       db w' = db w ∧ json_file w' = json_file w
       ∧ ∀ r, r ∈ acc → r.2 ∈ districtCode <$> ds)
    ds (fetch_talukas_of api)) with (pre := @nil DistrictJson)
    (acc := @nil TalukaRec) (w := w) as (w' & ts & E & ? & ? & ?);
    [ | | by exists w', ts ].
  - intros pre acc d w0 Hd (Hdb & Hj & Hacc).
    unfold fetch_talukas_of.
    destruct (negb _); [by eexists _, _|].
    unfold bind at 1, try.
    destruct (_post_json_cases (GetTalukaAsync api (districtCode d)) w0)
      as (w1 & [e|rows] & -> & Hdb1 & Hj1).
    + eexists _, _. split; [reflexivity|]. simpl.
      split_and!; [congruence|congruence|done].
    + eexists _, _. split; [reflexivity|].
      split_and!; [congruence|congruence|].
      intros r [Hr|Hr]%elem_of_app; [by apply Hacc|].
      apply list_elem_of_fmap in Hr as (t & -> & _). simpl.
      apply list_elem_of_fmap. by exists d.
  - split_and!; try done. by intros r ?%elem_of_nil.
Qed.

Lemma hoblis_loop (ts : list TalukaRec) w :
  ∃ w' hs, for_fold ts (fetch_hoblis_of api) [] w = (w', inr hs)
    ∧ db w' = db w ∧ json_file w' = json_file w
    ∧ ∀ r, r ∈ hs → r.2 ∈ (λ t : TalukaRec, talukCode t.1) <$> ts.
Proof.
  edestruct (for_fold_inv
    (λ (pre : list TalukaRec) (acc : list HobliRec) (w' : World Net),
       db w' = db w ∧ json_file w' = json_file w
       ∧ ∀ r, r ∈ acc → r.2 ∈ (λ t : TalukaRec, talukCode t.1) <$> ts)
    ts (fetch_hoblis_of api)) with (pre := @nil TalukaRec)
    (acc := @nil HobliRec) (w := w) as (w' & hs & E & ? & ? & ?);
    [ | | by exists w', hs ].
  - intros pre acc t w0 Ht (Hdb & Hj & Hacc).
    unfold fetch_hoblis_of.
    destruct (negb _); [by eexists _, _|].
    unfold bind at 1, try.
    destruct (_post_json_cases (GetHobliAsync api (talukCode t.1)) w0)
      as (w1 & [e|rows] & -> & Hdb1 & Hj1).
    + eexists _, _. split; [reflexivity|]. simpl.
      split_and!; [congruence|congruence|done].
    + eexists _, _. split; [reflexivity|].
      split_and!; [congruence|congruence|].
      intros r [Hr|Hr]%elem_of_app; [by apply Hacc|].
      apply list_elem_of_fmap in Hr as (h & -> & _). simpl.
      apply list_elem_of_fmap. by exists t.
  - split_and!; try done. by intros r ?%elem_of_nil.
Qed.

Lemma villages_loop (hs : list HobliRec) w :
  ∃ w' vs, for_fold hs (fetch_villages_of api) [] w = (w', inr vs)
    ∧ db w' = db w ∧ json_file w' = json_file w
    ∧ ∀ r, r ∈ vs → r.2 ∈ (λ h : HobliRec, hoblicode h.1) <$> hs.
Proof.
  edestruct (for_fold_inv
    (λ (pre : list HobliRec) (acc : list VillageRec) (w' : World Net),
       db w' = db w ∧ json_file w' = json_file w
       ∧ ∀ r, r ∈ acc → r.2 ∈ (λ h : HobliRec, hoblicode h.1) <$> hs)
    hs (fetch_villages_of api)) with (pre := @nil HobliRec)
    (acc := @nil VillageRec) (w := w) as (w' & vs & E & ? & ? & ?);
    [ | | by exists w', vs ].
  - intros pre acc h w0 Hh (Hdb & Hj & Hacc).
    unfold fetch_villages_of.
    destruct (negb _); [by eexists _, _|].
    unfold bind at 1, try.
    destruct (_post_json_cases (GetVillageAsync api (hoblicode h.1)) w0)
      as (w1 & [e|rows] & -> & Hdb1 & Hj1).
    + eexists _, _. split; [reflexivity|]. simpl.
      split_and!; [congruence|congruence|done].
    + eexists _, _. split; [reflexivity|].
      split_and!; [congruence|congruence|].
      intros r [Hr|Hr]%elem_of_app; [by apply Hacc|].
      apply list_elem_of_fmap in Hr as (v & -> & _). simpl.
      apply list_elem_of_fmap. by exists h.
  - split_and!; try done. by intros r ?%elem_of_nil.
Qed.

Lemma build_location_hierarchy_spec w n' ds :
  GetDistrictAsync api (net w) = (n', inr ds) →
  ∃ w' data,
    build_location_hierarchy api w = (w', inr data)
    ∧ data_districts data = ds
    ∧ json_file w' = Some data
    ∧ (∀ r, r ∈ data_talukas data → r.2 ∈ districtCode <$> ds)
    ∧ (∀ r, r ∈ data_hoblis data →
            r.2 ∈ (λ t : TalukaRec, talukCode t.1) <$> data_talukas data)
    ∧ (∀ r, r ∈ data_villages data →
            r.2 ∈ (λ h : HobliRec, hoblicode h.1) <$> data_hoblis data)
    ∧ ∃ w0, _write_sqlite data w0 = (w', inr tt)
            ∧ json_file w0 = Some data.
Proof.
  intros E. unfold build_location_hierarchy.
  rewrite (bind_inr _ _ _ _ _ (_post_json_ok _ _ _ _ E)).
  unfold bind at 1, try.
  destruct (_post_json_cases (GetPropertyTypeMasterAsync api)
              (after_post w n')) as (w1 & r & -> & _ & _).
  set (w2 := match r with
             | inl e => (with_log w1 [CouldNotFetchPropertyTypes e])
             | inr _ => w1
             end).
  set (pts := match r with inl _ => [] | inr p => p end).
  assert (∀ (k : list PropertyTypeJson → M (World Net) Data),
            bind (match r with
                  | inr p => ret p
                  | inl e => run logger (CouldNotFetchPropertyTypes e);
                             ret []
                  end) k w1 = k pts w2) as ->.
  { intros k. by destruct r. }
  destruct (talukas_loop ds w2) as (w3 & ts & E3 & _ & _ & Hts).
  rewrite (bind_inr _ _ _ _ _ E3).
  destruct (hoblis_loop ts w3) as (w4 & hs & E4 & _ & _ & Hhs).
  rewrite (bind_inr _ _ _ _ _ E4).
  destruct (villages_loop hs w4) as (w5 & vs & E5 & _ & _ & Hvs).
  rewrite (bind_inr _ _ _ _ _ E5). cbv zeta.
  rewrite (bind_inr _ _ w5 _ tt eq_refl).
  match goal with
  | |- context [bind (_write_sqlite ?d) ?k ?w0] =>
      destruct (_write_sqlite_returns d w0) as (w6 & E6 & Hj6);
      rewrite (bind_inr _ _ _ _ _ E6)
  end.
  eexists _, _. split; [reflexivity|]. simpl.
  split_and!; try done. eexists. split; [exact E6|done].
Qed.
End StoreFacts.

Section RepoFacts.
Import Py Assistant AssistantSpec StoreSpec.

Lemma name_leb_refl (a : Name) : name_leb a a = true.
Proof.
  destruct a as [s|]; [|done]. simpl.
  by destruct (String.leb_total s s).
Qed.

Lemma name_leb_total (a b : Name) : name_leb a b = true ∨ name_leb b a = true.
Proof.
  destruct a as [x|], b as [y|]; simpl; auto. apply String.leb_total.
Qed.

Lemma row_leb_name (a b : Name * Z) :
  row_leb a b = true → name_leb a.1 b.1 = true.
Proof.
  unfold row_leb. case_bool_decide as E; [|done].
  intros _. rewrite E. apply name_leb_refl.
Qed.

Lemma row_leb_total {A} (key : A → Name * Z) :
  Total (λ x y, Is_true (row_leb (key x) (key y))).
Proof.
  intros x y. unfold row_leb.
  case_bool_decide as E.
  - rewrite bool_decide_eq_true_2 by done.
    destruct (Z.leb_spec (key x).2 (key y).2); [by left|].
    right. apply Is_true_true, Z.leb_le. lia.
  - rewrite bool_decide_eq_false_2 by congruence.
    destruct (name_leb_total (key x).1 (key y).1) as [H|H];
      [left|right]; by apply Is_true_true.
Qed.

Lemma Sorted_weaken {A} (R R' : relation A) (l : list A) :
  (∀ x y, R x y → R' x y) → Sorted R l → Sorted R' l.
Proof.
  intros HR. induction 1 as [|x l Hs IH Hd]; constructor; [done|].
  destruct Hd; constructor. by apply HR.
Qed.

Lemma order_by_name_perm {A} (key : A → Name * Z) (rows : list A) :
  order_by_name key rows ≡ₚ rows.
Proof. apply merge_sort_Permutation. Qed.

Lemma order_by_name_sorted {A} (key : A → Name * Z) (rows : list A) :
  Sorted (λ a b, Is_true (name_leb (key a).1 (key b).1))
         (order_by_name key rows).
Proof.
  eapply Sorted_weaken; [|apply Sorted_merge_sort, row_leb_total].
  intros x y H. apply Is_true_true, row_leb_name. by apply Is_true_true.
Qed.

Lemma where_parent_elem {A} (parent_of : A → Z) code (rows : list A) r :
  r ∈ where_parent parent_of code rows
  ↔ r ∈ rows
    ∧ if truthy_opt_int code then code = Some (parent_of r) else True.
Proof.
  unfold where_parent, truthy_opt_int.
  destruct code as [c|]; [|by split; [intros ?|intros [? _]]].
  destruct (truthy_int c).
  - rewrite list_elem_of_filter. split.
    + by intros [<- ?].
    + by intros [? [= <-]].
  - by split; [intros ?|intros [? _]].
Qed.

Lemma where_parent_sublist {A} (parent_of : A → Z) code (rows : list A) :
  where_parent parent_of code rows `sublist_of` rows.
Proof.
  unfold where_parent. destruct code as [c|]; [|done].
  destruct (truthy_int c); [apply sublist_filter|done].
Qed.

Lemma only_code_sublist {A} (code_of : A → Z) sel (rows : list A) :
  only_code code_of sel rows `sublist_of` rows.
Proof.
  unfold only_code. destruct sel as [c|]; [|done].
  destruct (truthy_int c); [apply sublist_filter|done].
Qed.

(** The query behind [talukas], [hoblis] and [villages]. *)
Lemma query_rows {A} (tbl : gmap Z A) (name : A → Name) (parent : A → Z)
    (code : option Z) :
  query_answer tbl name parent code
    (order_by_name (λ r : Z * Name * Z, (r.1.2, r.1.1))
       (where_parent (λ r : Z * Name * Z, r.2) code
          ((λ kv, (kv.1, name kv.2, parent kv.2)) <$> map_to_list tbl))).
Proof.
  split_and!.
  - intros r. rewrite order_by_name_perm, where_parent_elem.
    rewrite list_elem_of_fmap. split.
    + intros [([k row] & -> & Hkv%elem_of_map_to_list) Hc]. simpl in *.
      by exists row.
    + intros (row & Hrow & Hn & Hp & Hc). split; [|done].
      exists (r.1.1, row). split.
      * destruct r as [[c n] p]. simpl in *. by subst.
      * by apply elem_of_map_to_list.
  - rewrite order_by_name_perm.
    eapply sublist_NoDup;
      [|by eapply fmap_sublist, where_parent_sublist].
    rewrite <- list_fmap_compose.
    apply (NoDup_fst_map_to_list tbl).
  - apply (order_by_name_sorted (λ r : Z * Name * Z, (r.1.2, r.1.1))).
Qed.

(** The [districts] query. *)
Lemma district_rows (tbl : gmap Z DistrictJson) :
  let rows :=
    order_by_name (λ r : Z * Name, (r.2, r.1))
      ((λ kv, (kv.1, districtNamee kv.2)) <$>
         filter (λ kv, 0 < kv.1) (map_to_list tbl)) in
  (∀ r, r ∈ rows ↔
        0 < r.1 ∧ ∃ row, tbl !! r.1 = Some row ∧ r.2 = districtNamee row)
  ∧ NoDup (fst <$> rows)
  ∧ Sorted (λ a b, Is_true (name_leb a.2 b.2)) rows.
Proof.
  cbv zeta. split_and!.
  - intros r. rewrite order_by_name_perm, list_elem_of_fmap. split.
    + intros ([k row] & -> & (Hpos & Hkv%elem_of_map_to_list)
                              %list_elem_of_filter).
      simpl in *. split; [done|]. by exists row.
    + intros (Hpos & row & Hrow & Hn). exists (r.1, row). split.
      * destruct r as [c n]. simpl in *. by subst.
      * apply list_elem_of_filter. split; [done|].
        by apply elem_of_map_to_list.
  - rewrite order_by_name_perm, <- list_fmap_compose.
    eapply sublist_NoDup; [apply (NoDup_fst_map_to_list tbl)|].
    apply (fmap_sublist fst), sublist_filter.
  - apply (order_by_name_sorted (λ r : Z * Name, (r.2, r.1))).
Qed.

(** *** Keys of the candidate list *)
Lemma NoDup_fmap_inj_on {A B} (f : A → B) (l : list A) x y :
  NoDup (f <$> l) → x ∈ l → y ∈ l → f x = f y → x = y.
Proof.
  induction l as [|a l IH]; [by intros _ ?%elem_of_nil|].
  rewrite fmap_cons. intros [Ha Hl]%NoDup_cons.
  intros [->|Hx]%elem_of_cons [->|Hy]%elem_of_cons E; auto.
  - exfalso. apply Ha. rewrite E. apply list_elem_of_fmap. by exists y.
  - exfalso. apply Ha. rewrite <- E. apply list_elem_of_fmap. by exists x.
Qed.

Lemma fmap_bind_list {A B C} (g : B → C) (f : A → list B) (l : list A) :
  g <$> (l ≫= f) = l ≫= (λ x, g <$> f x).
Proof.
  induction l as [|a l IH]; [done|].
  change ((a :: l) ≫= ?h) with (h a ++ (l ≫= h)).
  by rewrite fmap_app, IH.
Qed.

Lemma NoDup_key_bind {A B K KA} (g : B → K) (ka : A → KA) (proj : K → KA)
    (f : A → list B) (l : list A) :
  NoDup (ka <$> l) →
  (∀ x, x ∈ l → NoDup (g <$> f x)) →
  (∀ x y, x ∈ l → y ∈ f x → proj (g y) = ka x) →
  NoDup (g <$> (l ≫= f)).
Proof.
  intros Hl Hf Hproj. rewrite fmap_bind_list.
  apply NoDup_bind.
  - intros x1 x2 k H1 H2 (y1 & -> & Hy1)%list_elem_of_fmap
                        (y2 & E & Hy2)%list_elem_of_fmap.
    apply (NoDup_fmap_inj_on ka l); [done..|].
    rewrite <- (Hproj x1 y1), <- (Hproj x2 y2) by done. by rewrite E.
  - intros x Hx. by apply Hf.
  - by eapply NoDup_fmap_1.
Qed.

Lemma NoDup_selected {A} (code_of : A → Z) (all : bool) sel (rows : list A) :
  NoDup (code_of <$> rows) →
  NoDup (code_of <$> (if all then rows else only_code code_of sel rows)).
Proof.
  intros H. destruct all; [done|].
  eapply sublist_NoDup; [exact H|]. apply fmap_sublist, only_code_sublist.
Qed.

Lemma selected_elem {A} (code_of : A → Z) (all : bool) sel (rows : list A) r :
  r ∈ (if all then rows else only_code code_of sel rows) → r ∈ rows.
Proof.
  destruct all; [done|].
  intros H. eapply elem_of_sublist; [exact H|apply only_code_sublist].
Qed.

Lemma query_codes_NoDup {A} (tbl : gmap Z A) name parent code rows :
  query_answer tbl name parent code rows →
  NoDup ((λ r : Z * Name * Z, r.1.1) <$> rows).
Proof. by intros (_ & ? & _). Qed.

Lemma talukas_answer (d : Db) code :
  query_answer (tbl_talukas d) (λ r : TalukaRec, talukNamee r.1)
    (λ r : TalukaRec, r.2) code (talukas (sqlite_repo d) code).
Proof.
  apply (query_rows (tbl_talukas d) (λ r : TalukaRec, talukNamee r.1)
           (λ r : TalukaRec, r.2)).
Qed.

Lemma hoblis_answer (d : Db) code :
  query_answer (tbl_hoblis d) (λ r : HobliRec, hoblinamee r.1)
    (λ r : HobliRec, r.2) code (hoblis (sqlite_repo d) code).
Proof.
  apply (query_rows (tbl_hoblis d) (λ r : HobliRec, hoblinamee r.1)
           (λ r : HobliRec, r.2)).
Qed.

Lemma villages_answer (d : Db) code :
  query_answer (tbl_villages d) (λ r : VillageRec, villagenamee r.1)
    (λ r : VillageRec, r.2) code (villages (sqlite_repo d) code).
Proof.
  apply (query_rows (tbl_villages d) (λ r : VillageRec, villagenamee r.1)
           (λ r : VillageRec, r.2)).
Qed.

Lemma combos_in_district_keys (d : Db) cfg (dr : Z * Name) :
  NoDup (combo_key <$> combos_in_district (sqlite_repo d) cfg dr).
Proof.
  unfold combos_in_district.
  apply (NoDup_key_bind combo_key (λ t : Z * Name * Z, t.1.1)
           (λ k : Z * Z * Z * Z, k.1.1.2)).
  - apply NoDup_selected. eapply query_codes_NoDup, talukas_answer.
  - intros t _.
    apply (NoDup_key_bind combo_key (λ h : Z * Name * Z, h.1.1)
             (λ k : Z * Z * Z * Z, k.1.2)).
    + apply NoDup_selected. eapply query_codes_NoDup, hoblis_answer.
    + intros h _.
      apply (NoDup_key_bind combo_key (λ v : Z * Name * Z, v.1.1)
               (λ k : Z * Z * Z * Z, k.2)).
      * apply NoDup_selected. eapply query_codes_NoDup, villages_answer.
      * intros v _. apply NoDup_singleton.
      * by intros v u _ ->%list_elem_of_singleton.
    + intros h u _ (v & ->%list_elem_of_singleton & _)%list_elem_of_bind.
      done.
  - intros t u _ (h & Hu & _)%list_elem_of_bind.
    apply list_elem_of_bind in Hu as (v & ->%list_elem_of_singleton & _).
    done.
Qed.

Lemma candidate_keys (d : Db) cfg :
  NoDup (combo_key <$> candidate_combinations (sqlite_repo d) cfg).
Proof.
  unfold candidate_combinations.
  apply (NoDup_key_bind combo_key (λ dr : Z * Name, dr.1)
           (λ k : Z * Z * Z * Z, k.1.1.1)).
  - eapply sublist_NoDup; [|apply fmap_sublist, only_code_sublist].
    apply (district_rows (tbl_districts d)).
  - intros dr _. apply combos_in_district_keys.
  - intros dr u _ Hu. by apply combos_in_district_code in Hu.
Qed.

Lemma keep_unseen_all combos : ∀ seen,
  NoDup (combo_key <$> combos) →
  (∀ c, c ∈ combos → combo_key c ∉ seen) →
  keep_unseen seen combos = combos.
Proof.
  induction combos as [|c rest IH]; intros seen Hnd Hseen; [done|].
  simpl. rewrite fmap_cons in Hnd. apply NoDup_cons in Hnd as [Hc Hrest].
  destruct (decide (combo_key c ∈ seen)) as [Hin|_].
  { exfalso. by apply (Hseen c); [left|]. }
  f_equal. apply IH; [done|].
  intros c' Hc' [Hk%elem_of_singleton|Hk]%elem_of_union.
  - apply Hc. rewrite <- Hk. apply list_elem_of_fmap. by exists c'.
  - by apply (Hseen c'); [right|].
Qed.

Lemma sqlite_expansion_eq (d : Db) cfg (log0 : list LogRecord) :
  build_location_combinations (sqlite_repo d) cfg log0
  = (log0, inr (candidate_combinations (sqlite_repo d) cfg)).
Proof.
  rewrite build_location_combinations_eq, unique_combinations_keep.
  rewrite keep_unseen_all;
    [|apply candidate_keys|by intros c _ ?%elem_of_empty].
  unfold duplicates_report. rewrite Z.ltb_irrefl. by rewrite app_nil_r.
Qed.

(** *** Every candidate is a path of the store *)
Lemma candidate_is_stored_path (d : Db) cfg u :
  u ∈ candidate_combinations (sqlite_repo d) cfg → stored_path d u.
Proof.
  unfold candidate_combinations.
  intros (dr & Hu & Hdr)%list_elem_of_bind.
  eapply elem_of_sublist in Hdr; [|apply only_code_sublist].
  apply (district_rows (tbl_districts d)) in Hdr
    as (Hpos & drow & Hdrow & _).
  unfold combos_in_district in Hu.
  apply list_elem_of_bind in Hu as (t & Hu & Ht%selected_elem).
  apply list_elem_of_bind in Hu as (h & Hu & Hh%selected_elem).
  apply list_elem_of_bind in Hu as (v & ->%list_elem_of_singleton
                                      & Hv%selected_elem).
  apply (talukas_answer d) in Ht as (trow & Htrow & _ & Htp & Htc).
  apply (hoblis_answer d) in Hh as (hrow & Hhrow & _ & Hhp & Hhc).
  apply (villages_answer d) in Hv as (vrow & Hvrow & _ & Hvp & Hvc).
  unfold stored_path. simpl in *.
  unfold truthy_int, Name in *.
  split; [done|]. split; [by exists drow|].
  split; [|split].
  - exists trow. split; [done|].
    destruct (Z.eqb_spec dr.1 0); [lia|]. simpl in Htc. congruence.
  - exists hrow. split; [done|]. intros Hne.
    destruct (Z.eqb_spec t.1.1 0); [done|]. simpl in Hhc. congruence.
  - exists vrow. split; [done|]. intros Hne.
    destruct (Z.eqb_spec h.1.1 0); [done|]. simpl in Hvc. congruence.
Qed.
End RepoFacts.

Section StoreExtras.
Import Py Sqlite Assistant AssistantSpec StoreSpec.
Context {Net : Type} (api : Remote Net).
Implicit Types w : World Net.

(** X8 (_write_sqlite).  [_write_sqlite] always returns; it drops what
    the database held and leaves, under every code and in every table,
    the last row of [data] with that code (INSERT OR REPLACE), and no
    row under a code that [data] does not have.  The network state, the
    log and the JSON file are not touched. *)
Theorem write_sqlite_last_row_wins :
  ∀ (data : Data) w,
    ∃ w', _write_sqlite data w = (w', inr tt)
      ∧ net w' = net w ∧ log w' = log w ∧ json_file w' = json_file w
      ∧ (∀ c, tbl_districts (db w') !! c
              = last_with districtCode c (data_districts data))
      ∧ (∀ c, tbl_talukas (db w') !! c
              = last_with (λ r, talukCode r.1) c (data_talukas data))
      ∧ (∀ c, tbl_hoblis (db w') !! c
              = last_with (λ r, hoblicode r.1) c (data_hoblis data))
      ∧ (∀ c, tbl_villages (db w') !! c
              = last_with (λ r, villagecode r.1) c (data_villages data))
      ∧ (∀ c, tbl_property_types (db w') !! c
              = last_with propertytypeid c (data_property_types data)).
Proof. intros data w. apply write_sqlite_tables. Qed.

(** X9 (build_location_hierarchy).  When the districts request
    succeeds, [build_location_hierarchy] returns, whatever the other
    requests do; the data it returns is the data it wrote to the JSON
    file, with the districts as received; and the database it leaves is
    referentially intact although no foreign key is enforced: every
    taluka, hobli and village row names a parent that is stored. *)
Theorem build_location_hierarchy_store_is_intact :
  ∀ w n' (ds : list DistrictJson),
    GetDistrictAsync api (net w) = (n', inr ds) →
    ∃ w' data,
      build_location_hierarchy api w = (w', inr data)
      ∧ data_districts data = ds
      ∧ json_file w' = Some data
      ∧ intact (db w').
Proof.
  intros w n' ds E.
  destruct (build_location_hierarchy_spec api w n' ds E)
    as (w' & data & Eb & Hds & Hj & Hts & Hhs & Hvs & w0 & Ew & Hj0).
  exists w', data. split_and!; try done.
  destruct (write_sqlite_tables data w0)
    as (w'' & Ew' & _ & _ & _ & Td & Tt & Th & Tv & _).
  rewrite Ew in Ew'. injection Ew' as <-.
  split_and!.
  - intros k r Hr. rewrite Tt in Hr.
    apply last_with_Some in Hr as (Hr & _).
    apply Hts, list_elem_of_fmap in Hr as (d & -> & Hd).
    rewrite Td, Hds. by apply last_with_is_Some.
  - intros k r Hr. rewrite Th in Hr.
    apply last_with_Some in Hr as (Hr & _).
    apply Hhs, list_elem_of_fmap in Hr as (t & -> & Ht).
    rewrite Tt. by apply (last_with_is_Some (λ r : TalukaRec, talukCode r.1)).
  - intros k r Hr. rewrite Tv in Hr.
    apply last_with_Some in Hr as (Hr & _).
    apply Hvs, list_elem_of_fmap in Hr as (h & -> & Hh).
    rewrite Th. by apply (last_with_is_Some (λ r : HobliRec, hoblicode r.1)).
Qed.
End StoreExtras.

Section RepoExtras.
Import Py Sqlite Assistant AssistantSpec StoreSpec.

(** X10 (LocationRepo.districts, talukas, hoblis, villages).  The
    [districts] query lists the stored districts with a positive code;
    each child query lists the stored rows whose parent is the code
    given, and all stored rows when the code is absent or 0.  Every row
    is listed once, and the rows come ordered by name, a missing name
    first. *)
Theorem location_queries_answer :
  ∀ (d : Db) (code : option Z),
    ((∀ r, r ∈ districts (sqlite_repo d) ↔
           0 < r.1 ∧ ∃ row, tbl_districts d !! r.1 = Some row
                            ∧ r.2 = districtNamee row)
     ∧ NoDup (fst <$> districts (sqlite_repo d))
     ∧ Sorted (λ a b, Is_true (name_leb a.2 b.2))
              (districts (sqlite_repo d)))
    ∧ query_answer (tbl_talukas d) (λ r, talukNamee r.1) (λ r, r.2) code
                   (talukas (sqlite_repo d) code)
    ∧ query_answer (tbl_hoblis d) (λ r, hoblinamee r.1) (λ r, r.2) code
                   (hoblis (sqlite_repo d) code)
    ∧ query_answer (tbl_villages d) (λ r, villagenamee r.1) (λ r, r.2) code
                   (villages (sqlite_repo d) code).
Proof.
  intros d code. split_and!.
  - apply (district_rows (tbl_districts d)).
  - apply (district_rows (tbl_districts d)).
  - apply (district_rows (tbl_districts d)).
  - apply talukas_answer.
  - apply hoblis_answer.
  - apply villages_answer.
Qed.

(** X11 (build_location_combinations on a LocationRepo).  On a store
    read through [LocationRepo] the expander never finds a duplicate:
    the candidate list already has every 4-tuple of codes once, so the
    result is the candidate list as built and no record is logged. *)
Theorem sqlite_expansion_has_no_duplicates :
  ∀ (d : Db) (cfg : SearchConfig) (log0 : list LogRecord),
    build_location_combinations (sqlite_repo d) cfg log0
    = (log0, inr (candidate_combinations (sqlite_repo d) cfg))
    ∧ NoDup (combo_key <$> candidate_combinations (sqlite_repo d) cfg).
Proof.
  intros d cfg log0. split; [apply sqlite_expansion_eq|apply candidate_keys].
Qed.

(** X12 (build_location_combinations on a LocationRepo).  Every target
    the expander gives is a path of the store: its district has a
    positive code and is stored, its taluka is stored under that
    district, its hobli and village are stored, under the taluka and the
    hobli of the target unless that parent has code 0, for which the
    store lists the rows of every parent. *)
Theorem expansion_targets_are_stored_paths :
  ∀ (d : Db) (cfg : SearchConfig) (log0 : list LogRecord),
    ∃ combos,
      build_location_combinations (sqlite_repo d) cfg log0
      = (log0, inr combos)
      ∧ Forall (stored_path d) combos.
Proof.
  intros d cfg log0. eexists. split; [apply sqlite_expansion_eq|].
  apply Forall_forall. intros u. apply candidate_is_stored_path.
Qed.

Lemma NoDup_const_length {A} (l : list A) (a : A) :
  NoDup l → (∀ x, x ∈ l → x = a) → (length l ≤ 1)%nat.
Proof.
  destruct l as [|x [|y l]]; simpl; [lia|lia|].
  intros [Hx _]%NoDup_cons Hall. exfalso. apply Hx.
  rewrite (Hall x) by (by left). rewrite (Hall y) by (right; by left).
  by left.
Qed.

(** X13 (build_location_combinations on a LocationRepo).  A filter that
    names a district, a taluka, a hobli and a village by non-zero codes,
    with no "all" switch set, gives at most one target, and that target
    has the four codes named. *)
Theorem pinpoint_filter_gives_at_most_one_target :
  ∀ (d : Db) (cfg : SearchConfig) (log0 : list LogRecord)
    (dc tc hc vc : Z),
    district_code cfg = Some dc → taluk_code cfg = Some tc →
    hobli_code cfg = Some hc → village_code cfg = Some vc →
    dc ≠ 0 → tc ≠ 0 → hc ≠ 0 → vc ≠ 0 →
    all_taluks cfg = false → all_hoblis cfg = false →
    all_villages cfg = false →
    ∃ combos,
      build_location_combinations (sqlite_repo d) cfg log0
      = (log0, inr combos)
      ∧ (length combos ≤ 1)%nat
      ∧ Forall (λ u, combo_key u = (dc, tc, hc, vc)) combos.
Proof.
  intros d cfg log0 dc tc hc vc Hd Ht Hh Hv Hdc Htc Hhc Hvc At Ah Av.
  eexists. split; [apply sqlite_expansion_eq|].
  assert (∀ u, u ∈ candidate_combinations (sqlite_repo d) cfg →
               combo_key u = (dc, tc, hc, vc)) as Hkey.
  { intros u. unfold candidate_combinations, combos_in_district.
    rewrite Hd, Ht, Hh, Hv, At, Ah, Av.
    intros (dr & Hu & Hdr)%list_elem_of_bind.
    apply list_elem_of_bind in Hu as (t & Hu & Htr).
    apply list_elem_of_bind in Hu as (h & Hu & Hhr).
    apply list_elem_of_bind in Hu as (v & ->%list_elem_of_singleton & Hvr).
    apply only_code_selected in Hdr, Htr, Hhr, Hvr; try done.
    unfold combo_key. simpl. congruence. }
  split.
  - rewrite <- (length_fmap combo_key).
    apply (NoDup_const_length _ (dc, tc, hc, vc)); [apply candidate_keys|].
    intros k (u & -> & Hu)%list_elem_of_fmap. by apply Hkey.
  - apply Forall_forall. exact Hkey.
Qed.
End RepoExtras.

Section StoreExtrasWitnesses.
Import Py Sqlite Assistant AssistantSpec StoreSpec Scenario StoreScenario.

Lemma build_location_hierarchy_store_is_intact_witness :
  ∃ w' data,
    build_location_hierarchy slow_start (fresh_assistant 0%nat)
    = (w', inr data)
    ∧ data_districts data = [district 10 "Mysuru"]
    ∧ json_file w' = Some data
    ∧ intact (db w').
Proof.
  apply (build_location_hierarchy_store_is_intact slow_start
           (fresh_assistant 0%nat) 1%nat [district 10 "Mysuru"]).
  reflexivity.
Defined.

Lemma pinpoint_filter_gives_at_most_one_target_witness :
  ∃ combos,
    build_location_combinations (sqlite_repo one_district_store)
      (pinpoint 10 20 30 41) []
    = ([], inr combos)
    ∧ (length combos ≤ 1)%nat
    ∧ Forall (λ u, combo_key u = (10, 20, 30, 41)) combos.
Proof.
  apply (pinpoint_filter_gives_at_most_one_target one_district_store
           (pinpoint 10 20 30 41) [] 10 20 30 41); done.
Defined.
End StoreExtrasWitnesses.

Section BatchExtras.
Import Py DirectApi DirectApiSpec BatchSpec.
Context {R : Type} (svc : Service R) (token : option string).
Implicit Types w : World R.

Lemma dict_get_set (k v : string) (row : Row) :
  dict_get k (dict_set k v row) = Some v.
Proof.
  induction row as [|[k' v'] row IH]; simpl.
  - by rewrite decide_True.
  - destruct (decide (k' = k)) as [->|Hne]; simpl.
    + by rewrite decide_True.
    + by rewrite decide_False.
Qed.

Lemma failures_app (l1 l2 : list LogRecord) :
  failures (l1 ++ l2) = failures l1 ++ failures l2.
Proof.
  induction l1 as [|r l1 IH]; [done|].
  destruct r; simpl; by rewrite ?IH.
Qed.

Lemma file_with_app (f : CsvFile) (a b : list Row) :
  file_with (file_with f a) b = file_with f (a ++ b).
Proof.
  unfold file_with. destruct a as [|x a]; [done|].
  destruct b as [|y b]; simpl.
  - by rewrite app_nil_r.
  - destruct f as [old|]; simpl; [|done]. by rewrite <- app_assoc.
Qed.

(** One turn: what it adds to the collected records it also appends to
    the file, tagged with the turn's village. *)
Lemma batch_turn_file party from to delay total acc village w :
  ∃ w' new,
    batch_turn svc token party from to delay total acc village w
    = (w', inr (acc.1 + 1, acc.2 ++ new))
    ∧ output_file w' = file_with (output_file w) new
    ∧ Forall (λ r, dict_get "_search_village_code" r = Some village) new.
Proof.
  unfold batch_turn.
  rewrite (bind_inr _ _ w (logged w [Processing acc.1 total village]) tt
             eq_refl).
  destruct (search_ec_frame svc token village party from to
              (logged w [Processing acc.1 total village]))
    as (w1 & r & extra & E & Hfile & _ & _).
  destruct r as [e|results].
  - rewrite (bind_try _ _ _ _ _ (bind_inl _ _ _ _ _ E)).
    unfold bind, logger, modify, ret. simpl.
    exists (logged w1 (Error e :: pause acc.1 total delay)), [].
    rewrite app_nil_r. split_and!; [|done|done].
    unfold pause, logged. destruct (acc.1 <? total); simpl; [|done].
    by rewrite <- app_assoc.
  - rewrite (bind_try _ _ _ _ _ (turn_body_ok _ _ _ _ _ _ _ _ _ E)).
    set (tagged := map (dict_set "_search_village_code" village) results).
    exists (logged (saved w1 tagged) (pause acc.1 total delay)), tagged.
    split_and!.
    + unfold bind, logger, modify, ret, pause, logged. simpl.
      destruct (acc.1 <? total); simpl; [done|].
      by rewrite app_nil_r.
    + simpl. by rewrite Hfile.
    + apply Forall_forall. intros r (r0 & -> & _)%list_elem_of_fmap.
      apply dict_get_set.
Qed.

Lemma batch_search_file villages party from to delay w :
  ∃ w' results,
    batch_search svc token villages party from to delay w
    = (w', inr results)
    ∧ output_file w' = file_with (output_file w) results
    ∧ Forall (λ r, ∃ v, v ∈ villages
                        ∧ dict_get "_search_village_code" r = Some v)
             results.
Proof.
  unfold batch_search.
  edestruct (for_fold_inv
    (λ (pre : list string) (acc : Z * list Row) (w' : World R),
       output_file w' = file_with (output_file w) acc.2
       ∧ Forall (λ r, ∃ v, v ∈ villages
                           ∧ dict_get "_search_village_code" r = Some v)
                acc.2)
    villages
    (batch_turn svc token party from to delay (Z.of_nat (length villages))))
    with (pre := @nil string) (acc := (1, @nil Row)) (w := w)
    as (w' & acc' & E & Hf & Hall).
  - intros pre acc v w0 Hv (Hf & Hall).
    destruct (batch_turn_file party from to delay
                (Z.of_nat (length villages)) acc v w0)
      as (w1 & new & E & Hf1 & Hnew).
    eexists _, _. split; [exact E|]. simpl. split.
    + by rewrite Hf1, Hf, file_with_app.
    + apply Forall_app. split; [done|].
      eapply Forall_impl; [exact Hnew|]. intros r Hr. by exists v.
  - by split.
  - rewrite (bind_inr _ _ _ _ _ E). by exists w', acc'.2.
Qed.

(** The run without a session token. *)
Lemma batch_loop_no_token party from to delay total villages :
  truthy_opt_str token = false →
  ∀ acc w, ∃ w',
    for_fold villages (batch_turn svc token party from to delay total) acc w
    = (w', inr (acc.1 + Z.of_nat (length villages), acc.2))
    ∧ remote w' = remote w ∧ output_file w' = output_file w
    ∧ failures (log w')
      = failures (log w)
        ++ replicate (length villages)
             (Exception "No session token. Please login first.")
    ∧ processed (log w') = processed (log w) ++ villages.
Proof.
  intros Htok. induction villages as [|v rest IH]; intros acc w.
  - exists w. simpl. rewrite Z.add_0_r, !app_nil_r. by destruct acc.
  - cbn [for_fold].
    assert (batch_turn svc token party from to delay total acc v w
            = (logged w (Processing acc.1 total v
                         :: Error (Exception
                                     "No session token. Please login first.")
                         :: pause acc.1 total delay),
               inr (acc.1 + 1, acc.2))) as E.
    { unfold batch_turn, search_ec. rewrite Htok.
      unfold bind, try, raise, logger, modify, ret, logged, pause. simpl.
      destruct (acc.1 <? total); simpl; by rewrite <- !app_assoc. }
    rewrite (bind_inr _ _ _ _ _ E).
    destruct (IH (acc.1 + 1, acc.2)
                 (logged w (Processing acc.1 total v
                            :: Error (Exception
                                        "No session token. Please login first.")
                            :: pause acc.1 total delay)))
      as (w' & E' & Hr & Hf & Hfail & Hp).
    exists w'. simpl in *. split_and!; try done.
    + rewrite E'. do 3 f_equal. lia.
    + rewrite Hfail, failures_app. simpl.
      assert (failures (pause acc.1 total delay) = []) as ->
        by (unfold pause; by destruct (_ <? _)).
      by rewrite <- app_assoc.
    + rewrite Hp, processed_app. simpl.
      assert (processed (pause acc.1 total delay) = []) as ->
        by (unfold pause; by destruct (_ <? _)).
      by rewrite <- app_assoc.
Qed.


(** X15 (batch_search).  Every record a batch run returns carries, in
    its field [_search_village_code], the code of one of the villages
    asked for; the field is set after the response is read, so a field
    of that name in the response is overwritten. *)
Theorem batch_results_are_tagged_with_their_village :
  ∀ (villages : list string) (party from to : string) (delay : Z) w,
    ∃ w' results,
      batch_search svc token villages party from to delay w
      = (w', inr results)
      ∧ Forall (λ r, ∃ v, v ∈ villages
                          ∧ dict_get "_search_village_code" r = Some v)
               results.
Proof.
  intros villages party from to delay w.
  destruct (batch_search_file villages party from to delay w)
    as (w' & results & E & _ & Hall).
  by exists w', results.
Qed.

(** X16 (batch_search, search_ec).  Without a session token (none, or
    the empty string) a batch run makes no request at all and writes no
    file, yet it goes through the whole list: for every village it logs
    the "No session token" error, and it returns the empty list. *)
Theorem batch_without_token_makes_no_request :
  ∀ (villages : list string) (party from to : string) (delay : Z) w,
    truthy_opt_str token = false →
    ∃ w',
      batch_search svc token villages party from to delay w = (w', inr [])
      ∧ remote w' = remote w
      ∧ output_file w' = output_file w
      ∧ failures (log w')
        = failures (log w)
          ++ replicate (length villages)
               (Exception "No session token. Please login first.")
      ∧ processed (log w') = processed (log w) ++ villages.
Proof.
  intros villages party from to delay w Htok. unfold batch_search.
  destruct (batch_loop_no_token party from to delay
              (Z.of_nat (length villages)) villages Htok (1, []) w)
    as (w' & E & Hr & Hf & Hfail & Hp).
  rewrite (bind_inr _ _ _ _ _ E). by exists w'.
Qed.
End BatchExtras.

Section BatchExtrasWitnesses.
Import Py DirectApi DirectApiSpec BatchSpec Scenario.

Lemma batch_without_token_makes_no_request_witness :
  ∃ w',
    batch_search no_records None ["40"; "41"] "KRISHNAPPA" "2003-01-01"
      "2026-01-01" 2000 fresh_batch = (w', inr [])
    ∧ remote w' = remote fresh_batch
    ∧ output_file w' = output_file fresh_batch
    ∧ failures (log w')
      = failures (log fresh_batch)
        ++ replicate (length ["40"; "41"])
             (Exception "No session token. Please login first.")
    ∧ processed (log w') = processed (log fresh_batch) ++ ["40"; "41"].
Proof.
  apply (batch_without_token_makes_no_request no_records None
           ["40"; "41"] "KRISHNAPPA" "2003-01-01" "2026-01-01" 2000
           fresh_batch).
  reflexivity.
Defined.
End BatchExtrasWitnesses.

Section RunExtras.
Import Py SmartSearch SmartSearchSpec BatchSpec RunSpec.
Context {B : Type}.
Context (search_village
  : string → string → string → string → B → B * (bool * list Row * string)).
Context (party from to : string).
Implicit Types (w : World B) (st : Locals).






End RunExtras.

Section BotExtras.
Import Py Assistant Bot BotSpec.
Context {D : Type} (browser : Browser D).
Implicit Types b : BotState D.

(** What a sequence returns, its last step returns. *)
Lemma bind_yields {W A C} (c : M W A) (k : A → M W C) (Q : C → Prop) :
  (∀ a w w' r, k a w = (w', inr r) → Q r) →
  ∀ w w' r, bind c k w = (w', inr r) → Q r.
Proof.
  intros Hk w w' r. unfold bind.
  destruct (c w) as [w1 [e|a]]; [done|]. apply Hk.
Qed.

Lemma search_one_body_rows cfg loc b b' rows :
  search_one_body browser cfg loc b = (b', inr rows) →
  Forall (λ r, row_location r = loc
               ∧ row_party_name r = party_name cfg
               ∧ row_from_date r = from_date cfg
               ∧ row_to_date r = to_date cfg) rows.
Proof.
  revert b b' rows. unfold search_one_body.
  do 17 (apply bind_yields; intros ?).
  cbv zeta. apply bind_yields. intros _ w w' r [= _ <-].
  apply Forall_forall. by intros r (x & -> & _)%list_elem_of_fmap.
Qed.

Lemma search_one_rows cfg loc b :
  ∃ b' rows,
    search_one browser cfg loc b = (b', inr rows)
    ∧ Forall (λ r, row_location r = loc
                   ∧ row_party_name r = party_name cfg
                   ∧ row_from_date r = from_date cfg
                   ∧ row_to_date r = to_date cfg) rows.
Proof.
  unfold search_one, bind, try.
  destruct (search_one_body browser cfg loc b) as [b1 [e|rows]] eqn:E.
  - eexists _, []. split; [reflexivity|]. constructor.
  - exists b1, rows. split; [done|]. by eapply search_one_body_rows.
Qed.

Lemma search_all_rows cfg total locs : ∀ idx acc b,
  ∃ b' groups,
    search_all browser cfg total idx locs acc b
    = (b', inr (acc ++ concat groups))
    ∧ Forall2 (λ loc g,
                 Forall (λ r, row_location r = loc
                              ∧ row_party_name r = party_name cfg
                              ∧ row_from_date r = from_date cfg
                              ∧ row_to_date r = to_date cfg) g)
              locs groups.
Proof.
  induction locs as [|loc rest IH]; intros idx acc b; simpl.
  - exists b, []. simpl. rewrite app_nil_r. split; [done|constructor].
  - destruct (search_one_rows cfg loc b) as (b1 & rows & E & Hrows).
    rewrite (bind_inr _ _ _ _ _ E).
    destruct (idx <? total).
    + rewrite (bind_inr _ _ b1 _ tt eq_refl).
      edestruct IH as (b' & groups & -> & Hg).
      exists b', (rows :: groups). simpl. rewrite app_assoc.
      split; [done|by constructor].
    + rewrite (bind_inr _ _ b1 b1 tt eq_refl).
      edestruct IH as (b' & groups & -> & Hg).
      exists b', (rows :: groups). simpl. rewrite app_assoc.
      split; [done|by constructor].
Qed.

(** X19 (run_search, KaveriSearchBot.search_one).  The loop over the
    targets always returns, whatever the browser does, and its rows come
    grouped by target in the order of the target list: one group per
    target, possibly empty, every row of a group carrying that target's
    location and the party name and dates of the search. *)
Theorem result_rows_are_grouped_by_target :
  ∀ (cfg : SearchConfig) (combinations : list Combo) b,
    ∃ b' groups,
      run_search_loop browser cfg combinations b
      = (b', inr (concat groups))
      ∧ Forall2 (λ loc g,
                   Forall (λ r, row_location r = loc
                                ∧ row_party_name r = party_name cfg
                                ∧ row_from_date r = from_date cfg
                                ∧ row_to_date r = to_date cfg) g)
                combinations groups.
Proof.
  intros cfg combinations b. unfold run_search_loop.
  destruct (search_all_rows cfg (len combinations) combinations 1 [] b)
    as (b' & groups & E & Hg).
  by exists b', groups.
Qed.
End BotExtras.

Section SessionExtras.
Import Py Hybrid HybridSession.

Lemma seconds_within_hour (us : Z) :
  (3600 <? seconds (timedelta_of us)) = negb (bool_decide (us `mod` day < hour + 1000000)).
Proof.
  unfold timedelta_of, day, hour. simpl.
  pose proof (Z.mod_pos_bound us 86400000000 ltac:(lia)) as Hm.
  set (m := us `mod` 86400000000) in *.
  destruct (Z.ltb_spec 3600 (m / 1000000)) as [H|H].
  - rewrite bool_decide_eq_false_2; [done|].
    intros Hlt. assert (m / 1000000 < 3601); [|lia].
    apply Z.div_lt_upper_bound; lia.
  - rewrite bool_decide_eq_true_2; [done|].
    destruct (Z.lt_ge_cases m 3601000000) as [|Hge]; [done|].
    assert (3601 ≤ m / 1000000); [|lia].
    apply Z.div_le_lower_bound; lia.
Qed.

(** X20 (is_session_valid).  For a session file with a token or cookies
    and a timestamp that parses to a naive datetime, the validity check
    depends on the age modulo one day only: the session is reported
    valid exactly when the age, reduced modulo 24 hours, is less than
    one hour and one second.  So the check has period one day in [now],
    and a timestamp that lies in the future by up to 22 hours 59 minutes
    and 59 seconds makes the session invalid. *)
Theorem session_validity_has_period_one_day :
  ∀ (fromisoformat : string → exn + datetime) (file : Session)
    (text : string) (saved now : Z),
    truthy_opt_str (append_token file) || truthy_list (cookies file) = true →
    saved_at file = Some text →
    truthy_str text = true →
    fromisoformat text = inr {| instant := saved; tzinfo := None |} →
    is_session_valid fromisoformat (Some file) now
    = bool_decide ((now - saved) `mod` day < hour + 1000000)
    ∧ is_session_valid fromisoformat (Some file) (now + day)
      = is_session_valid fromisoformat (Some file) now.
Proof.
  intros parse file text saved now Hcred Hsaved Htext Hparse.
  assert (∀ t, is_session_valid parse (Some file) t
               = bool_decide ((t - saved) `mod` day < hour + 1000000)) as Hv.
  { intros t. unfold is_session_valid, load_session, datetime_sub.
    rewrite Hsaved, Htext, Hparse. cbn [tzinfo instant].
    rewrite seconds_within_hour.
    destruct (truthy_opt_str _), (truthy_list _); simpl in *; try done;
      by destruct (bool_decide _). }
  split; [apply Hv|]. rewrite !Hv.
  replace (now + day - saved) with (now - saved + 1 * day) by lia.
  by rewrite Z_mod_plus_full.
Qed.

(** X21 (is_session_valid).  A session file with a token or cookies
    whose timestamp is missing, empty, unreadable or timezone-aware
    never expires: the check returns True at every instant. *)
Theorem undated_session_never_expires :
  ∀ (fromisoformat : string → exn + datetime) (file : Session) (now : Z),
    truthy_opt_str (append_token file) || truthy_list (cookies file) = true →
    match saved_at file with
    | None => True
    | Some text =>
        truthy_str text = false
        ∨ (∃ e, fromisoformat text = inl e)
        ∨ (∃ t offset,
             fromisoformat text
             = inr {| instant := t; tzinfo := Some offset |})
    end →
    is_session_valid fromisoformat (Some file) now = true.
Proof.
  intros parse file now Hcred Hundated.
  unfold is_session_valid, load_session, datetime_sub.
  assert (negb (truthy_opt_str (append_token file))
          && negb (truthy_list (cookies file)) = false) as ->.
  { by destruct (truthy_opt_str _), (truthy_list _). }
  destruct (saved_at file) as [text|]; [|done].
  destruct (truthy_str text); [|done].
  destruct Hundated as [?|[(e & ->)|(t & offset & ->)]]; done.
Qed.

(** X22 (save_session, is_session_valid).  A session with a token that
    has just been saved is valid during the next hour and is invalid
    from one hour and one second until a day after the save. *)
Theorem saved_session_is_valid_for_an_hour :
  ∀ (isoformat : datetime → string)
    (fromisoformat : string → exn + datetime)
    (data : Session) (t0 now : Z),
    let stamp := {| instant := t0; tzinfo := None |} in
    truthy_str (isoformat stamp) = true →
    fromisoformat (isoformat stamp) = inr stamp →
    truthy_opt_str (append_token data) = true →
    t0 ≤ now < t0 + day →
    is_session_valid fromisoformat (save_session isoformat data t0).2 now
    = bool_decide (now - t0 < hour + 1000000).
Proof.
  intros iso parse data t0 now stamp Hiso Hround Htok Hnow.
  unfold is_session_valid, save_session, load_session, datetime_sub.
  cbn [snd append_token cookies saved_at]. fold stamp.
  rewrite Htok, Hiso, Hround. unfold stamp.
  cbn [tzinfo instant negb andb]. rewrite seconds_within_hour.
  rewrite (Z.mod_small (now - t0) day) by lia.
  by destruct (bool_decide _).
Qed.
End SessionExtras.

Section SessionExtrasWitnesses.
Import Py Hybrid HybridSession Scenario SessionScenario.

(** A session whose timestamp lies one second in the future. *)
Lemma session_validity_has_period_one_day_witness :
  is_session_valid parse_epoch (Some saved_session) (- second)
  = bool_decide ((- second - 0) `mod` day < hour + 1000000)
  ∧ is_session_valid parse_epoch (Some saved_session)
      (- second + HybridSession.day)
    = is_session_valid parse_epoch (Some saved_session) (- second).
Proof.
  apply (session_validity_has_period_one_day parse_epoch saved_session
           "2026-01-01T00:00:00" 0 (- second)); reflexivity.
Defined.

Lemma undated_session_never_expires_witness :
  is_session_valid parse_epoch (Some undated_session)
    (400 * Scenario.day) = true.
Proof.
  apply (undated_session_never_expires parse_epoch undated_session
           (400 * Scenario.day)); [reflexivity|exact I].
Defined.

Lemma saved_session_is_valid_for_an_hour_witness :
  is_session_valid parse_epoch
    (save_session stamp_epoch unsaved_session 0).2 (1800 * second)
  = bool_decide (1800 * second - 0 < hour + 1000000).
Proof.
  apply (saved_session_is_valid_for_an_hour stamp_epoch parse_epoch
           unsaved_session 0 (1800 * second));
    [reflexivity|reflexivity|reflexivity|].
  unfold second, HybridSession.day. lia.
Defined.
End SessionExtrasWitnesses.

Section ReaderFacts.
Import Py Indexer CrawlSpec Villages.

Lemma elem_option_list {A} (mx : option A) (x : A) :
  x ∈ option_list mx ↔ mx = Some x.
Proof.
  destruct mx as [y|]; simpl.
  - rewrite list_elem_of_singleton. split; [by intros ->|by intros [= ->]].
  - split; [by intros ?%elem_of_nil|done].
Qed.

Lemma elem_from_villages (d : Db) (r : Joined) :
  r ∈ from_villages d
  ↔ villages d !! v_key r = Some (v_row r)
    ∧ h_row r = None ∧ t_row r = None ∧ d_row r = None.
Proof.
  unfold from_villages. rewrite list_elem_of_fmap. split.
  - intros ([k vr] & -> & Hkv%elem_of_map_to_list). by simpl.
  - intros (Hv & Hh & Ht & Hd). exists (v_key r, v_row r). split.
    + destruct r. simpl in *. by subst.
    + by apply elem_of_map_to_list.
Qed.

Lemma elem_join_hoblis (d : Db) (r : Joined) :
  r ∈ join_hoblis d (from_villages d)
  ↔ villages d !! v_key r = Some (v_row r)
    ∧ (∃ h, h_row r = Some h ∧ hoblis d !! hobli_code_of r = Some h)
    ∧ t_row r = None ∧ d_row r = None.
Proof.
  unfold join_hoblis. rewrite list_elem_of_bind. split.
  - intros (r0 & Hr & (Hv & Hh & Ht & Hd)%elem_from_villages).
    apply list_elem_of_bind in Hr
      as (h & ->%list_elem_of_singleton & Hh'%elem_option_list).
    simpl. split_and!; try done. by exists h.
  - intros (Hv & (h & Hh & Hh') & Ht & Hd).
    exists {| v_key := v_key r; v_row := v_row r; h_row := None;
              t_row := None; d_row := None |}.
    split; [|by apply elem_from_villages].
    apply list_elem_of_bind. exists h. split.
    + apply list_elem_of_singleton. destruct r. simpl in *. by subst.
    + by apply elem_option_list.
Qed.

Lemma elem_join_talukas (d : Db) (r : Joined) :
  r ∈ join_talukas d (join_hoblis d (from_villages d))
  ↔ villages d !! v_key r = Some (v_row r)
    ∧ (∃ h t, h_row r = Some h ∧ t_row r = Some t
              ∧ hoblis d !! hobli_code_of r = Some h
              ∧ talukas d !! hobli_taluk_code h = Some t)
    ∧ d_row r = None.
Proof.
  unfold join_talukas. rewrite list_elem_of_bind. split.
  - intros (r0 & Hr & (Hv & (h & Hh & Hh') & Ht & Hd)%elem_join_hoblis).
    apply list_elem_of_bind in Hr as (c & Hr & Hc%elem_option_list).
    apply list_elem_of_bind in Hr
      as (t & ->%list_elem_of_singleton & Ht'%elem_option_list).
    unfold taluk_code_of in Hc. rewrite Hh in Hc. injection Hc as <-.
    simpl. split_and!; try done. by exists h, t.
  - intros (Hv & (h & t & Hh & Ht & Hh' & Ht') & Hd).
    exists {| v_key := v_key r; v_row := v_row r; h_row := Some h;
              t_row := None; d_row := None |}.
    split.
    + apply list_elem_of_bind. exists (hobli_taluk_code h). split.
      * apply list_elem_of_bind. exists t. split.
        -- apply list_elem_of_singleton. destruct r. simpl in *. by subst.
        -- by apply elem_option_list.
      * by apply elem_option_list.
    + apply elem_join_hoblis. simpl. split_and!; try done. by exists h.
Qed.

Lemma elem_join_districts (d : Db) (r : Joined) :
  r ∈ join_districts d (join_talukas d (join_hoblis d (from_villages d)))
  ↔ villages d !! v_key r = Some (v_row r)
    ∧ ∃ h t dr, h_row r = Some h ∧ t_row r = Some t ∧ d_row r = Some dr
                ∧ hoblis d !! hobli_code_of r = Some h
                ∧ talukas d !! hobli_taluk_code h = Some t
                ∧ districts d !! taluk_district_code t = Some dr.
Proof.
  unfold join_districts. rewrite list_elem_of_bind. split.
  - intros (r0 & Hr & (Hv & (h & t & Hh & Ht & Hh' & Ht') & Hd)
                        %elem_join_talukas).
    apply list_elem_of_bind in Hr as (c & Hr & Hc%elem_option_list).
    apply list_elem_of_bind in Hr
      as (dr & ->%list_elem_of_singleton & Hd'%elem_option_list).
    unfold district_code_of in Hc. rewrite Ht in Hc. injection Hc as <-.
    simpl. split; [done|]. by exists h, t, dr.
  - intros (Hv & h & t & dr & Hh & Ht & Hd & Hh' & Ht' & Hd').
    exists {| v_key := v_key r; v_row := v_row r; h_row := Some h;
              t_row := Some t; d_row := None |}.
    split.
    + apply list_elem_of_bind. exists (taluk_district_code t). split.
      * apply list_elem_of_bind. exists dr. split.
        -- apply list_elem_of_singleton. destruct r. simpl in *. by subst.
        -- by apply elem_option_list.
      * by apply elem_option_list.
    + apply elem_join_talukas. simpl. split_and!; try done. by exists h, t.
Qed.

Lemma elem_get_villages_from_db (d : Db) (dc tc hc : option Z) (s : string) :
  s ∈ get_villages_from_db (Some d) dc tc hc
  ↔ ∃ v h ulb hr tr,
      s = pretty v
      ∧ is_Some (villages d !! (v, h, ulb))
      ∧ hoblis d !! h = Some hr
      ∧ talukas d !! hobli_taluk_code hr = Some tr
      ∧ is_Some (districts d !! taluk_district_code tr)
      ∧ and_eq dc (Some (taluk_district_code tr)) = true
      ∧ and_eq tc (Some (hobli_taluk_code hr)) = true
      ∧ and_eq hc (Some h) = true.
Proof.
  unfold get_villages_from_db. cbv zeta.
  rewrite list_elem_of_fmap. split.
  - intros (c & -> & Hc). rewrite elem_of_remove_dups in Hc.
    apply list_elem_of_fmap in Hc as (r & -> & Hr).
    apply list_elem_of_filter in Hr as (Hsel & Hr).
    apply elem_join_districts in Hr
      as (Hv & h & t & dr & Hh & Ht & Hd & Hh' & Ht' & Hd').
    unfold district_code_of, taluk_code_of in Hsel.
    rewrite Hh, Ht in Hsel. simpl in Hsel.
    apply Is_true_true in Hsel.
    apply andb_true_iff in Hsel as [Hsel H3].
    apply andb_true_iff in Hsel as [H1 H2].
    destruct r as [[[v hcode] ulb] vr hrow trow drow]. simpl in *.
    exists v, hcode, ulb, h, t. unfold hobli_code_of in *. simpl in *.
    split_and!; try done; by eexists.
  - intros (v & h & ulb & hr & tr & -> & [vr Hv] & Hh & Ht & [dr Hd]
              & H1 & H2 & H3).
    exists v. split; [done|]. apply elem_of_remove_dups.
    apply list_elem_of_fmap.
    exists {| v_key := (v, h, ulb); v_row := vr; h_row := Some hr;
              t_row := Some tr; d_row := Some dr |}.
    split; [done|]. apply list_elem_of_filter. split.
    + unfold district_code_of, taluk_code_of, hobli_code_of. simpl.
      by rewrite H1, H2, H3.
    + apply elem_join_districts. simpl. split; [done|].
      by exists hr, tr, dr.
Qed.

Lemma NoDup_get_villages_from_db file (dc tc hc : option Z) :
  NoDup (get_villages_from_db file dc tc hc).
Proof.
  destruct file as [d|]; simpl; [|constructor].
  apply NoDup_fmap_2; [apply pretty_Z_inj|apply NoDup_remove_dups].
Qed.

Lemma elem_distinct_by_name (rows : list (Z * string)) r :
  r ∈ distinct_by_name rows ↔ r ∈ rows.
Proof.
  unfold distinct_by_name.
  by rewrite order_by_name_perm, elem_of_remove_dups.
Qed.

Lemma NoDup_distinct_by_name (rows : list (Z * string)) :
  NoDup (distinct_by_name rows).
Proof.
  unfold distinct_by_name. rewrite order_by_name_perm.
  apply NoDup_remove_dups.
Qed.

Lemma truthy_some (c : Z) : c ≠ 0 → truthy_opt_int (Some c) = true.
Proof.
  intros Hc. unfold truthy_opt_int, truthy_int.
  by destruct (Z.eqb_spec c 0).
Qed.

(** X23 (get_villages_from_db).  The village codes the batch tool reads
    from the database are those of the stored villages whose hobli,
    taluka and district rows are all stored, a village with a broken
    parent chain being left out; a filter that is absent or 0 does not
    restrict, so that with no filter every such village is listed.  Each
    code is listed once, and a missing database file gives the empty
    list. *)
Theorem get_villages_from_db_lists_complete_chains :
  ∀ (d : Db) (district_code taluk_code hobli_code : option Z),
    (∀ s, s ∈ get_villages_from_db (Some d) district_code taluk_code
                hobli_code
          ↔ ∃ v h ulb hr tr,
              s = pretty v
              ∧ is_Some (villages d !! (v, h, ulb))
              ∧ hoblis d !! h = Some hr
              ∧ talukas d !! hobli_taluk_code hr = Some tr
              ∧ is_Some (districts d !! taluk_district_code tr)
              ∧ and_eq district_code (Some (taluk_district_code tr)) = true
              ∧ and_eq taluk_code (Some (hobli_taluk_code hr)) = true
              ∧ and_eq hobli_code (Some h) = true)
    ∧ NoDup (get_villages_from_db (Some d) district_code taluk_code
               hobli_code)
    ∧ get_villages_from_db None district_code taluk_code hobli_code = [].
Proof.
  intros d dc tc hc. split_and!.
  - intros s. apply elem_get_villages_from_db.
  - apply NoDup_get_villages_from_db.
  - done.
Qed.

(** X24 (index_all, get_villages_from_db).  What the indexer stores the
    batch tool finds: after a run of [index_all] on a database in which
    every child row names a stored parent, the unfiltered village list
    of the batch tool has the code of every village in the database. *)
Theorem indexed_villages_are_visible :
  ∀ {Net : Type} (api : Remote Net) (now : string)
    (specific_district : option Z) (w : World Net),
    ref_ok (db w) →
    ∃ w' stats,
      index_all api now specific_district w = (w', inr stats)
      ∧ ∀ v h ulb,
          is_Some (villages (db w') !! (v, h, ulb)) →
          pretty v ∈ get_villages_from_db (Some (db w')) None None None.
Proof.
  intros Net api now sd w Hok.
  destruct (index_all_spec api now sd w)
    as (w' & stats & hy & E & _ & _ & _ & _ & _ & _ & _ & Hok' & _).
  exists w', stats. split; [done|]. intros v h ulb Hv.
  destruct (Hok' Hok) as (Ht & Hh & Hvl).
  destruct Hv as [vr Hv].
  destruct (Hvl _ _ Hv) as [hr Hhr]. simpl in Hhr.
  destruct (Hh _ _ Hhr) as [tr Htr].
  apply elem_get_villages_from_db.
  exists v, h, ulb, hr, tr.
  split_and!; first [done | by eexists | by eapply Ht].
Qed.

(** X25 (get_villages, count_villages of the hybrid tool).  The most
    specific filter given decides and the others are not looked at: with
    a hobli code the villages stored under that hobli are listed,
    whether or not the hobli itself is stored; with a taluka code (and no
    hobli code) the villages of the stored hoblis of that taluka; with a
    district code only, the villages of the stored hoblis of the stored
    talukas of that district.  A code that is absent or 0 is no filter,
    and without any filter, or without a database file, the list is
    empty.  No (code, name) pair is listed twice, and the count is the
    length of the list. *)
Theorem hybrid_village_filters :
  ∀ (d : Db) (hobli_code taluk_code district_code : option Z),
    (∀ hc r, hc ≠ 0 →
       (r ∈ get_villages (Some d) (Some hc) taluk_code district_code
        ↔ ∃ ulb vr, villages d !! (r.1, hc, ulb) = Some vr
                    ∧ r.2 = village_name_en vr))
    ∧ (∀ tc r, truthy_opt_int hobli_code = false → tc ≠ 0 →
         (r ∈ get_villages (Some d) hobli_code (Some tc) district_code
          ↔ ∃ hc ulb vr hr,
              villages d !! (r.1, hc, ulb) = Some vr
              ∧ r.2 = village_name_en vr
              ∧ hoblis d !! hc = Some hr ∧ hobli_taluk_code hr = tc))
    ∧ (∀ dc r, truthy_opt_int hobli_code = false →
         truthy_opt_int taluk_code = false → dc ≠ 0 →
         (r ∈ get_villages (Some d) hobli_code taluk_code (Some dc)
          ↔ ∃ hc ulb vr hr tr,
              villages d !! (r.1, hc, ulb) = Some vr
              ∧ r.2 = village_name_en vr
              ∧ hoblis d !! hc = Some hr
              ∧ talukas d !! hobli_taluk_code hr = Some tr
              ∧ taluk_district_code tr = dc))
    ∧ (truthy_opt_int hobli_code = false →
       truthy_opt_int taluk_code = false →
       truthy_opt_int district_code = false →
       get_villages (Some d) hobli_code taluk_code district_code = [])
    ∧ get_villages None hobli_code taluk_code district_code = []
    ∧ NoDup (get_villages (Some d) hobli_code taluk_code district_code)
    ∧ count_villages (Some d) hobli_code taluk_code district_code
      = Z.of_nat (length (get_villages (Some d) hobli_code taluk_code
                            district_code)).
Proof.
  intros d h0 t0 d0. split_and!.
  - intros hc r Hhc. unfold get_villages. rewrite (truthy_some hc Hhc).
    rewrite elem_distinct_by_name, list_elem_of_fmap. split.
    + intros (j & -> & (Hsel & Hj)%list_elem_of_filter).
      apply elem_from_villages in Hj as (Hv & _).
      injection Hsel as <-. destruct j as [[[v hcode] ulb] vr ? ? ?].
      unfold hobli_code_of in *. simpl in *. by exists ulb, vr.
    + intros (ulb & vr & Hv & Hn).
      exists {| v_key := (r.1, hc, ulb); v_row := vr; h_row := None;
                t_row := None; d_row := None |}.
      split; [destruct r; simpl in *; by subst|].
      apply list_elem_of_filter. split; [done|].
      by apply elem_from_villages.
  - intros tc r Hh Htc. unfold get_villages.
    rewrite Hh, (truthy_some tc Htc).
    rewrite elem_distinct_by_name, list_elem_of_fmap. split.
    + intros (j & -> & (Hsel & Hj)%list_elem_of_filter).
      apply elem_join_hoblis in Hj as (Hv & (hr & Hhr & Hhr') & _).
      unfold taluk_code_of in Hsel. rewrite Hhr in Hsel.
      injection Hsel as <-. destruct j as [[[v hcode] ulb] vr ? ? ?].
      unfold hobli_code_of in *. simpl in *. by exists hcode, ulb, vr, hr.
    + intros (hc & ulb & vr & hr & Hv & Hn & Hhr & Htc').
      exists {| v_key := (r.1, hc, ulb); v_row := vr; h_row := Some hr;
                t_row := None; d_row := None |}.
      split; [destruct r; simpl in *; by subst|].
      apply list_elem_of_filter. split.
      * unfold taluk_code_of. simpl. by rewrite Htc'.
      * apply elem_join_hoblis. simpl. split_and!; try done. by exists hr.
  - intros dc r Hh Ht Hdc. unfold get_villages.
    rewrite Hh, Ht, (truthy_some dc Hdc).
    rewrite elem_distinct_by_name, list_elem_of_fmap. split.
    + intros (j & -> & (Hsel & Hj)%list_elem_of_filter).
      apply elem_join_talukas in Hj
        as (Hv & (hr & tr & Hhr & Htr & Hhr' & Htr') & _).
      unfold district_code_of in Hsel. rewrite Htr in Hsel.
      injection Hsel as <-. destruct j as [[[v hcode] ulb] vr ? ? ?].
      unfold hobli_code_of in *. simpl in *.
      by exists hcode, ulb, vr, hr, tr.
    + intros (hc & ulb & vr & hr & tr & Hv & Hn & Hhr & Htr & Hdc').
      exists {| v_key := (r.1, hc, ulb); v_row := vr; h_row := Some hr;
                t_row := Some tr; d_row := None |}.
      split; [destruct r; simpl in *; by subst|].
      apply list_elem_of_filter. split.
      * unfold district_code_of. simpl. by rewrite Hdc'.
      * apply elem_join_talukas. simpl. split_and!; try done.
        by exists hr, tr.
  - intros Hh Ht Hd. unfold get_villages. by rewrite Hh, Ht, Hd.
  - done.
  - unfold get_villages.
    destruct (truthy_opt_int h0); [apply NoDup_distinct_by_name|].
    destruct (truthy_opt_int t0); [apply NoDup_distinct_by_name|].
    destruct (truthy_opt_int d0); [apply NoDup_distinct_by_name|].
    constructor.
  - done.
Qed.
End ReaderFacts.

Section ReaderWitnesses.
Import Py Indexer CrawlSpec Villages Scenario CrawlScenario.

Lemma indexed_villages_are_visible_witness :
  ∃ w' stats,
    index_all flaky "2026-01-01T00:00:00" None (fresh_indexer 0%nat)
    = (w', inr stats)
    ∧ ∀ v h ulb,
        is_Some (villages (db w') !! (v, h, ulb)) →
        pretty v ∈ get_villages_from_db (Some (db w')) None None None.
Proof.
  apply (indexed_villages_are_visible flaky "2026-01-01T00:00:00" None
           (fresh_indexer 0%nat)).
  by split_and!.
Defined.
End ReaderWitnesses.

Section HybridLoopFacts.
Import Py HybridSearch HybridSearchSpec BatchSpec.
Context {R : Type} (svc : Service R).
Context (token : option string) (driver : bool).
Context (party from to : string) (use_browser : bool).
Implicit Types w : World R.






(** The loop when every search is answered with status 401. *)
Lemma expired_loop total (villages : list (Z * string)) :
  use_browser && driver = false →
  (∀ r, ∃ r' id img, generate_captcha svc r = (r', inr (id, img))) →
  (∀ img r, ∃ r' answer, solve svc img r = (r', inr answer)) →
  (∀ tok payload r, ∃ r' resp,
     post svc tok payload r = (r', inr resp) ∧ status_code resp = 401) →
  ∀ acc w, ∃ w',
    for_fold villages
      (search_turn svc token driver party from to use_browser total) acc w
    = (w', inr (acc.1 + Z.of_nat (length villages),
                {| all_results := all_results acc.2;
                   errors := errors acc.2
                             ++ ((λ v, (v.2, expired_message))
                                   <$> villages) |}))
    ∧ output_file w' = output_file w.
Proof.
  intros Hb Hgen Hsolve Hpost.
  induction villages as [|v rest IH]; intros acc w.
  - exists w. simpl. rewrite Z.add_0_r, app_nil_r.
    by destruct acc as [idx [rs es]].
  - cbn [for_fold].
    assert (∃ w1,
      search_turn svc token driver party from to use_browser total acc v w
      = (w1, inr (acc.1 + 1,
                  {| all_results := all_results acc.2;
                     errors := errors acc.2 ++ [(v.2, expired_message)] |}))
      ∧ output_file w1 = output_file w) as (w1 & E & Hf).
    { unfold search_turn, search. cbv zeta. rewrite Hb.
      unfold bind, try, call, show, modify, raise, ret.
      cbn [remote output_file ui].
      destruct (Hgen (remote w)) as (r1 & id & img & ->).
      cbn [remote output_file ui].
      destruct (Hsolve img r1) as (r2 & answer & ->).
      cbn [remote output_file ui].
      match goal with
      | |- context [post svc ?t ?p ?r] =>
          destruct (Hpost t p r) as (r3 & resp & -> & ->)
      end.
      eexists. split; [reflexivity|done]. }
    rewrite (bind_inr _ _ _ _ _ E).
    destruct (IH (acc.1 + 1,
                  {| all_results := all_results acc.2;
                     errors := errors acc.2 ++ [(v.2, expired_message)] |})
                 w1) as (w' & E' & Hf').
    exists w'. rewrite E'. cbn [fst snd all_results errors].
    split; [|congruence].
    assert (acc.1 + 1 + Z.of_nat (length rest)
            = acc.1 + Z.of_nat (length (v :: rest))) as ->
      by (cbn [length]; lia).
    by rewrite fmap_cons, <- app_assoc.
Qed.

(** X27 (main of the hybrid tool, KaveriAPI.search).  An expired session
    does not stop the hybrid search.  When searches go through
    [requests] and every one is answered with status 401, the loop goes
    through the whole list; it returns no record, writes no file, and
    records the error "Session expired! Please login again (Tab 1)" once
    for each village. *)
Theorem expired_session_fails_every_village :
  ∀ (villages : list (Z * string)) w,
    use_browser && driver = false →
    (∀ r, ∃ r' id img, generate_captcha svc r = (r', inr (id, img))) →
    (∀ img r, ∃ r' answer, solve svc img r = (r', inr answer)) →
    (∀ tok payload r, ∃ r' resp,
       post svc tok payload r = (r', inr resp) ∧ status_code resp = 401) →
    ∃ w',
      search_loop svc token driver villages party from to use_browser w
      = (w', inr {| all_results := [];
                    errors := (λ v, (v.2, expired_message)) <$> villages |})
      ∧ output_file w' = output_file w
      ∧ last (ui w') = Some SearchComplete.
Proof.
  intros villages w Hb Hgen Hsolve Hpost. unfold search_loop.
  destruct (expired_loop (Z.of_nat (length villages)) villages Hb Hgen
              Hsolve Hpost (0, {| all_results := []; errors := [] |}) w)
    as (w1 & E & Hf).
  rewrite (bind_inr _ _ _ _ _ E).
  eexists. split; [reflexivity|]. simpl. split; [done|].
  by rewrite last_snoc.
Qed.
End HybridLoopFacts.

Section HybridLoopWitnesses.
Import Py HybridSearch HybridSearchSpec HybridScenario.

Lemma expired_session_fails_every_village_witness :
  ∃ w',
    search_loop expired_portal (Some "a1b2c3d4") false
      [(40, "Alpha"); (41, "Beta")] "KRISHNAPPA" "2003-01-01" "2026-01-01"
      false fresh_page
    = (w', inr {| all_results := [];
                  errors := [("Alpha", expired_message);
                             ("Beta", expired_message)] |})
    ∧ output_file w' = output_file fresh_page
    ∧ last (ui w') = Some SearchComplete.
Proof.
  apply (expired_session_fails_every_village expired_portal
           (Some "a1b2c3d4") false "KRISHNAPPA" "2003-01-01" "2026-01-01"
           false [(40, "Alpha"); (41, "Beta")] fresh_page).
  - reflexivity.
  - intros r. by eexists _, _, _.
  - intros img r. by eexists _, _.
  - intros tok payload r. by eexists _, _.
Defined.
End HybridLoopWitnesses.

Section HierarchyExtras.
Import Py Assistant AssistantSpec StoreSpec FullHierarchy.

(** The rows behind a candidate of the expander. *)
Lemma candidate_rows (d : Db) cfg u :
  u ∈ candidate_combinations (sqlite_repo d) cfg →
  ∃ dr t h v,
    tbl_districts d !! c_district u = Some dr
    ∧ c_district_name u = districtNamee dr
    ∧ tbl_talukas d !! c_taluk u = Some t
    ∧ c_taluk_name u = talukNamee t.1 ∧ t.2 = c_district u
    ∧ tbl_hoblis d !! c_hobli u = Some h
    ∧ c_hobli_name u = hoblinamee h.1
    ∧ (c_taluk u ≠ 0 → h.2 = c_taluk u)
    ∧ tbl_villages d !! c_village u = Some v
    ∧ c_village_name u = villagenamee v.1
    ∧ (c_hobli u ≠ 0 → v.2 = c_hobli u).
Proof.
  unfold candidate_combinations.
  intros (dr & Hu & Hdr)%list_elem_of_bind.
  eapply elem_of_sublist in Hdr; [|apply only_code_sublist].
  apply (district_rows (tbl_districts d)) in Hdr
    as (Hpos & drow & Hdrow & Hdn).
  unfold combos_in_district in Hu.
  apply list_elem_of_bind in Hu as (t & Hu & Ht%selected_elem).
  apply list_elem_of_bind in Hu as (h & Hu & Hh%selected_elem).
  apply list_elem_of_bind in Hu as (v & ->%list_elem_of_singleton
                                      & Hv%selected_elem).
  apply (talukas_answer d) in Ht as (trow & Htrow & Htn & Htp & Htc).
  apply (hoblis_answer d) in Hh as (hrow & Hhrow & Hhn & Hhp & Hhc).
  apply (villages_answer d) in Hv as (vrow & Hvrow & Hvn & Hvp & Hvc).
  simpl in *. unfold truthy_int, Name in *.
  exists drow, trow, hrow, vrow. split_and!; try done.
  - destruct (Z.eqb_spec dr.1 0); [lia|]. simpl in Htc. congruence.
  - intros Hne. destruct (Z.eqb_spec t.1.1 0); [done|].
    simpl in Hhc. congruence.
  - intros Hne. destruct (Z.eqb_spec h.1.1 0); [done|].
    simpl in Hvc. congruence.
Qed.

(** X28 (build_location_combinations, LocationRepo.get_full_hierarchy).
    Expansion and lookup agree: for every target the expander gives on a
    LocationRepo store, with a taluka and a hobli code other than 0,
    [get_full_hierarchy] of the target's village returns the codes and
    names of that very target. *)
Theorem expansion_targets_are_their_villages_hierarchy :
  ∀ (d : Db) (cfg : SearchConfig) (log0 : list LogRecord),
    ∃ combos,
      build_location_combinations (sqlite_repo d) cfg log0
      = (log0, inr combos)
      ∧ Forall (λ u, c_taluk u ≠ 0 → c_hobli u ≠ 0 →
                     get_full_hierarchy d (c_village u) = Some (of_combo u))
               combos.
Proof.
  intros d cfg log0. eexists. split; [apply sqlite_expansion_eq|].
  apply Forall_forall. intros u Hu Ht Hh.
  destruct (candidate_rows d cfg u Hu)
    as (dr & t & h & v & Hdr & Hdn & Htr & Htn & Htp & Hhr & Hhn & Hhp
          & Hvr & Hvn & Hvp).
  unfold get_full_hierarchy, of_combo.
  rewrite Hvr. simpl. rewrite (Hvp Hh), Hhr. simpl.
  rewrite (Hhp Ht), Htr. simpl. rewrite Htp, Hdr. simpl.
  by rewrite Hdn, Htn, Hhn, Hvn.
Qed.
End HierarchyExtras.

Section ControllerExtras.
Import Py Controller.
Context {B : Type} (browser : Browser B) (lower : string → string).

Lemma search_village_body_answer village party from to b b' answer :
  search_village_body browser lower village party from to b
  = (b', inr answer) →
  if answer.1.1 then answer.2 = EmptyString else answer.1.2 = [].
Proof.
  revert b b' answer. unfold search_village_body.
  apply bind_yields. intros filled.
  destruct filled; simpl; [|by intros ? ? ? [= _ <-]].
  do 3 (apply bind_yields; intros ?).
  match goal with |- context [negb ?x] => destruct x end; simpl;
    [|by intros ? ? ? [= _ <-]].
  apply bind_yields. intros solved.
  destruct solved; simpl; [|by intros ? ? ? [= _ <-]].
  apply bind_yields. intros clicked.
  destruct clicked; simpl; [|by intros ? ? ? [= _ <-]].
  apply bind_yields. intros source. cbv zeta.
  destruct (_ && _); [by intros ? ? ? [= _ <-]|].
  destruct (contains _ _); [by intros ? ? ? [= _ <-]|].
  apply bind_yields. intros none.
  destruct none; [by intros ? ? ? [= _ <-]|].
  apply bind_yields. by intros results ? ? ? [= _ <-].
Qed.

(** X29 (BrowserController.search_village).  [search_village] never
    raises, whatever the browser does: every exception becomes a failed
    search.  It reports success only with an empty error text, and
    failure only with an empty result list, so the search loop never
    gets rows and an error together. *)
Theorem search_village_never_raises :
  ∀ (village party from to : string) (b : B),
    ∃ b' success results error,
      search_village browser lower village party from to b
      = (b', inr (success, results, error))
      ∧ (if success : bool then error = EmptyString else results = [])
      ∧ search_village_call browser lower village party from to b
        = (b', (success, results, error)).
Proof.
  intros village party from to b.
  unfold search_village_call, search_village, bind, try.
  destruct (search_village_body browser lower village party from to b)
    as [b1 [e|[[success results] error]]] eqn:E; simpl.
  - destruct (_ || _); simpl; by eexists _, false, [], _.
  - exists b1, success, results, error. split_and!; try done.
    by apply (search_village_body_answer _ _ _ _ _ _ _ E).
Qed.
End ControllerExtras.
